(** * Room session manager of server.mjs: a shallow embedding and its properties

    The development follows [src/server.mjs].  The process-wide [db] object
    becomes a record that every handler receives and returns; a handler is a
    function from the store and one request to a response and the new store.

    Modelling conventions.
    - JavaScript values that travel in request bodies and in [room.state] are
      trees of type [value]; [undefined] is a constructor of its own because
      destructuring an absent body field yields it.
    - A JavaScript number is a [number]: [NaN], an infinity or a rational;
      rounding to a double and the sign of zero are not modelled, so a
      rational stands for a number only if it is a double.
      Counters ([revision], [wins], [losses]) are integers of type [Z]; the
      model is exact as long as they stay below 2^53.
    - Strings are Rocq strings.
    - [db.rooms], [db.sessions] and [stats.vs] are objects used as
      dictionaries and are finite maps here.  A plain object also answers
      to the names of the members it inherits from [Object.prototype]
      ([inherited]).  For [stats.vs] this is part of the model ([versus]).
      For [db.sessions] it makes no difference: a token that names an
      inherited member leads to no user.  For [db.rooms] the handlers
      below stand for the code on room identifiers that are not such
      names.
    - [randomUUID()] and [Date.now()] are inputs of the request ([env]).
    - The room handlers [create], [join], [start], [update] and [read] are
      modelled from the point where [readBody] and the destructuring of
      its result have produced the field values, and up to [save()], which
      is taken to succeed.  The listener further below reads the body,
      and there a [save()] that cannot write the file is answered 500
      after the handler has changed the store. *)

From Stdlib Require Import ZArith QArith Ascii String List Bool Lia.
From stdpp Require Import base option list gmap strings.

Local Open Scope string_scope.
Local Open Scope list_scope.
Local Open Scope Z_scope.
Set Warnings "-register-all".

(** ** JavaScript numbers *)

Inductive number :=
  | NaN
  | Inf (negative : bool)
  | Fin (q : Q).

Definition Qlt_bool (p q : Q) : bool := negb (Qle_bool q p).

(** [a < b] of JavaScript: false as soon as one side is [NaN]. *)
Definition num_lt (a b : number) : bool :=
  match a, b with
  | NaN, _ | _, NaN => false
  | Inf true, Inf true => false
  | Inf true, _ => true
  | _, Inf true => false
  | Inf false, _ => false
  | _, Inf false => true
  | Fin p, Fin q => Qlt_bool p q
  end.

(** [a >= b] of JavaScript. *)
Definition num_ge (a b : number) : bool :=
  match a, b with
  | NaN, _ | _, NaN => false
  | _, _ => negb (num_lt a b)
  end.

Definition Math_min (a b : number) : number :=
  match a, b with
  | NaN, _ | _, NaN => NaN
  | _, _ => if num_lt b a then b else a
  end.

Definition Math_max (a b : number) : number :=
  match a, b with
  | NaN, _ | _, NaN => NaN
  | _, _ => if num_lt a b then b else a
  end.

Definition of_nat (n : nat) : number := Fin (inject_Z (Z.of_nat n)).
Definition of_Z (z : Z) : number := Fin (inject_Z z).

(** ** [StringToNumber], the conversion [Number] applies to a string

    Leading and trailing white space is dropped; the empty string is 0; the
    remainder has to be a binary, octal or hexadecimal integer literal, or an
    optionally signed [Infinity] or decimal literal.  Anything else is
    [NaN].  The value is the exact rational the literal denotes, where the
    code has the nearest double: the definition stands for the code on
    literals that denote a double.  White space is the ASCII white space;
    the code also drops the other Unicode space characters. *)

Definition is_white (c : ascii) : bool :=
  let n := nat_of_ascii c in
  ((9 <=? n)%nat && (n <=? 13)%nat) || (n =? 32)%nat.

Definition digit_of (c : ascii) : option Z :=
  let n := Z.of_nat (nat_of_ascii c) in
  if (48 <=? n) && (n <=? 57) then Some (n - 48)
  else if (97 <=? n) && (n <=? 102) then Some (n - 87)
  else if (65 <=? n) && (n <=? 70) then Some (n - 55)
  else None.

Definition is_digit (base : Z) (c : ascii) : bool :=
  match digit_of c with
  | Some d => d <? base
  | None => false
  end.

Definition digits_value (base : Z) (ds : list ascii) : Z :=
  fold_left (fun acc c => base * acc + default 0 (digit_of c)) ds 0.

Fixpoint span_digits (cs : list ascii) : list ascii * list ascii :=
  match cs with
  | c :: r =>
      if is_digit 10 c then let '(ds, rest) := span_digits r in (c :: ds, rest)
      else ([], cs)
  | [] => ([], [])
  end.

Definition trim (cs : list ascii) : list ascii :=
  let drop_white := fix go (l : list ascii) :=
    match l with
    | c :: r => if is_white c then go r else l
    | [] => []
    end in
  rev (drop_white (rev (drop_white cs))).

Definition all_digits (base : Z) (ds : list ascii) : bool :=
  match ds with
  | [] => false
  | _ => forallb (is_digit base) ds
  end.

Definition parse_nondecimal (cs : list ascii) : option Z :=
  match cs with
  | "0"%char :: p :: ds =>
      let base :=
        if (p =? "x")%char || (p =? "X")%char then Some 16
        else if (p =? "o")%char || (p =? "O")%char then Some 8
        else if (p =? "b")%char || (p =? "B")%char then Some 2
        else None in
      match base with
      | Some b => if all_digits b ds then Some (digits_value b ds) else None
      | None => None
      end
  | _ => None
  end.

Definition parse_exponent (cs : list ascii) : option Z :=
  let '(neg, ds) :=
    match cs with
    | "+"%char :: r => (false, r)
    | "-"%char :: r => (true, r)
    | _ => (false, cs)
    end in
  if all_digits 10 ds
  then Some (if neg then - digits_value 10 ds else digits_value 10 ds)
  else None.

Definition decimal_value (ip fp : list ascii) (e : Z) : Q :=
  (inject_Z (digits_value 10 (ip ++ fp))
   * Qpower (10 # 1) (e - Z.of_nat (length fp)))%Q.

Definition parse_unsigned_decimal (cs : list ascii) : option Q :=
  let '(ip, r1) := span_digits cs in
  let '(fp, r2) :=
    match r1 with
    | "."%char :: r => span_digits r
    | _ => ([], r1)
    end in
  match ip, fp with
  | [], [] => None
  | _, _ =>
      match r2 with
      | [] => Some (decimal_value ip fp 0)
      | c :: r3 =>
          if (c =? "e")%char || (c =? "E")%char
          then e ← parse_exponent r3; Some (decimal_value ip fp e)
          else None
      end
  end.

Definition StringToNumber (s : string) : number :=
  match trim (list_ascii_of_string s) with
  | [] => Fin 0
  | cs =>
      match parse_nondecimal cs with
      | Some z => of_Z z
      | None =>
          let '(neg, r) :=
            match cs with
            | "+"%char :: r => (false, r)
            | "-"%char :: r => (true, r)
            | _ => (false, cs)
            end in
          if String.eqb (string_of_list_ascii r) "Infinity" then Inf neg
          else match parse_unsigned_decimal r with
               | Some q => Fin (if neg then Qopp q else q)
               | None => NaN
               end
      end
  end.


(** ** Values

    What [JSON.parse] returns, plus [undefined]. *)

Inductive value :=
  | VUndefined
  | VNull
  | VBool (b : bool)
  | VNum (n : number)
  | VStr (s : string)
  | VArr (items : list value)
  | VObj (props : list (string * value)).

(** The test [if (v)], [v || d], [v && w] and [!v] apply to a value. *)
Definition truthy (v : value) : bool :=
  match v with
  | VUndefined | VNull => false
  | VBool b => b
  | VNum NaN => false
  | VNum (Inf _) => true
  | VNum (Fin q) => negb (Qeq_bool q 0)
  | VStr s => negb (String.eqb s EmptyString)
  | VArr _ | VObj _ => true
  end.

(** [v || d] *)
Definition or_else (v d : value) : value := if truthy v then v else d.

(** [s === v] for a string [s]: no coercion takes place. *)
Definition strict_equals (s : string) (v : value) : bool :=
  match v with
  | VStr t => String.eqb s t
  | _ => false
  end.

(** [Number(v)].  An array is first turned into the string that joins its
    items with commas, an object into ["[object Object]"], and the string
    is then read by [StringToNumber]: the empty array gives 0, an array of
    two or more items a string with a comma, hence [NaN], and a one-item
    array the number its item reads as once printed ([null] and
    [undefined] print as the empty string, booleans as words).  The code
    throws on an object with a property ["toString"] of its own, which
    after [JSON.parse] is never a function, and on an array that holds
    one: the definition stands for the code on all other values. *)
Fixpoint Number (v : value) : number :=
  match v with
  | VUndefined => NaN
  | VNull => Fin 0
  | VBool b => Fin (if b then 1 else 0)
  | VNum n => n
  | VStr s => StringToNumber s
  | VArr [] => Fin 0
  | VArr [x] =>
      match x with
      | VUndefined | VNull => Fin 0
      | VBool _ => NaN
      | _ => Number x
      end
  | VArr _ => NaN
  | VObj _ => NaN
  end.

(** [JSON.parse(JSON.stringify(v))] on a tree: numbers that are not finite
    become [null], so does [undefined] inside an array, and a property
    whose value is [undefined] is dropped.  ([JSON.stringify(undefined)] is
    [undefined] and parsing it throws; the only caller below guards the
    call by [truthy].) *)
Fixpoint jsonify (v : value) : value :=
  match v with
  | VUndefined => VUndefined
  | VNull => VNull
  | VBool b => VBool b
  | VNum (Fin q) => VNum (Fin q)
  | VNum _ => VNull
  | VStr s => VStr s
  | VArr items =>
      VArr (map (fun x => match x with
                          | VUndefined => VNull
                          | _ => jsonify x
                          end) items)
  | VObj props =>
      VObj (flat_map (fun '(k, x) => match x with
                                      | VUndefined => []
                                      | _ => [(k, jsonify x)]
                                      end) props)
  end.

(** The values [JSON.parse] yields from a text whose number literals are
    within the range of a double. *)
Fixpoint is_json (v : value) : bool :=
  match v with
  | VUndefined => false
  | VNull | VBool _ | VStr _ => true
  | VNum (Fin _) => true
  | VNum _ => false
  | VArr items => forallb is_json items
  | VObj props => forallb (fun kx => is_json (snd kx)) props
  end.

(** ** The store *)

Module Seat.
Record t := mk { id : string; username : string; connected : bool }.
End Seat.

Module Versus.
Record t := mk { wins : Z; losses : Z }.
End Versus.

Module Stats.
Record t := mk { wins : Z; losses : Z; vs : gmap string Versus.t }.
End Stats.

Module User.
Record t := mk {
  id : string;
  username : string;
  salt : string;
  hash : string;
  stats : option Stats.t
}.
End User.

Module Room.
Record t := mk {
  id : string;
  hostId : string;
  players : list Seat.t;
  maxPlayers : number;
  started : bool;
  locked : bool;
  state : value;
  revision : Z
}.
End Room.

Module Match.
Record t := mk {
  id : string;
  roomId : string;
  players : list string;
  winner : string;
  at_ : Z
}.
End Match.

Module Db.
Record t := mk {
  users : list User.t;
  sessions : gmap string string;
  rooms : gmap string Room.t;
  history : list Match.t
}.
End Db.

Definition defaultDb : Db.t := Db.mk [] ∅ ∅ [].

(** ** Responses *)

Module View.
Record t := mk {
  id : string;
  hostId : string;
  players : list Seat.t;
  started : bool;
  locked : bool;
  revision : Z;
  state : value;
  youAreHost : bool
}.
End View.

Inductive payload :=
  | Error (error : string)
  | RoomBody (room : option View.t)
  | OkBody (revision : Z).

Record response := json { code : Z; body : payload }.

(** ** Requests

    [uuid] and [now] are what [randomUUID()] and [Date.now()] return while
    the request is served.  An absent [Authorization] header is the empty
    string ([req.headers.authorization || '']); an absent body field is
    [VUndefined]. *)

Record env := { uuid : string; now : Z }.

Inductive request :=
  | PostRooms (authorization : string) (maxPlayers : value)
  | PostJoin (authorization roomId : string)
  | PostStart (authorization roomId : string) (state : value)
  | PostState (authorization roomId : string) (state reportWinnerId : value)
  | GetRoom (authorization roomId : string).

(** ** The helpers of server.mjs *)

Definition slice (from : nat) (s : string) : string :=
  String.substring from (String.length s - from) s.

Definition authUser (db : Db.t) (authorization : string) : option User.t :=
  let token :=
    if String.prefix "Bearer " authorization
    then Some (slice 7 authorization) else None in
  match token with
  | None | Some EmptyString => None
  | Some token =>
      match Db.sessions db !! token with
      | None | Some EmptyString => None
      | Some uid => snd <$> list_find (λ u, User.id u = uid) (Db.users db)
      end
  end.

Definition sanitizeRoom (room : option Room.t) (requesterId : string)
  : option View.t :=
  match room with
  | None => None
  | Some room =>
      let players :=
        map (λ p, Seat.mk (Seat.id p) (Seat.username p) (Seat.connected p))
            (Room.players room) in
      let state :=
        if truthy (Room.state room) then jsonify (Room.state room)
        else VNull in
      Some (View.mk (Room.id room) (Room.hostId room) players
              (Room.started room) (Room.locked room) (Room.revision room)
              state (bool_decide (Room.hostId room = requesterId)))
  end.

Definition ensureStats (user : User.t) : Stats.t :=
  default (Stats.mk 0 0 ∅) (User.stats user).

(** ** Field updates *)

Definition set_connected (p : Seat.t) : Seat.t :=
  Seat.mk (Seat.id p) (Seat.username p) true.

Definition set_stats (u : User.t) (s : Stats.t) : User.t :=
  User.mk (User.id u) (User.username u) (User.salt u) (User.hash u) (Some s).

Definition set_players (r : Room.t) (ps : list Seat.t) : Room.t :=
  Room.mk (Room.id r) (Room.hostId r) ps (Room.maxPlayers r)
    (Room.started r) (Room.locked r) (Room.state r) (Room.revision r).

Definition set_started (r : Room.t) (b : bool) : Room.t :=
  Room.mk (Room.id r) (Room.hostId r) (Room.players r) (Room.maxPlayers r)
    b (Room.locked r) (Room.state r) (Room.revision r).

Definition set_state (r : Room.t) (v : value) : Room.t :=
  Room.mk (Room.id r) (Room.hostId r) (Room.players r) (Room.maxPlayers r)
    (Room.started r) (Room.locked r) v (Room.revision r).

(** [room.revision += 1] *)
Definition bump (r : Room.t) : Room.t :=
  Room.mk (Room.id r) (Room.hostId r) (Room.players r) (Room.maxPlayers r)
    (Room.started r) (Room.locked r) (Room.state r) (Room.revision r + 1).

Definition set_rooms (db : Db.t) (rooms : gmap string Room.t) : Db.t :=
  Db.mk (Db.users db) (Db.sessions db) rooms (Db.history db).

(** [db.rooms[roomId] = room], also the effect of mutating the room object
    that [db.rooms[roomId]] refers to. *)
Definition put_room (db : Db.t) (roomId : string) (room : Room.t) : Db.t :=
  set_rooms db (<[roomId := room]> (Db.rooms db)).

(** ** Statistics (the body of the winner branch of the state handler) *)

Definition won_or_lost (won : bool) (s : Stats.t) : Stats.t :=
  if won then Stats.mk (Stats.wins s + 1) (Stats.losses s) (Stats.vs s)
  else Stats.mk (Stats.wins s) (Stats.losses s + 1) (Stats.vs s).

(** The names of the members every object inherits from
    [Object.prototype]. *)
Definition inherited (k : string) : bool :=
  bool_decide
    (k ∈ ["constructor"; "__defineGetter__"; "__defineSetter__";
          "hasOwnProperty"; "__lookupGetter__"; "__lookupSetter__";
          "isPrototypeOf"; "propertyIsEnumerable"; "toString"; "valueOf";
          "__proto__"; "toLocaleString"]).

(** One turn of the inner [forEach]:
    [stats.vs[op.username] ||= { wins: 0, losses: 0 }] and the increment.
    [stats.vs] is a plain object: under a name it has no entry for but
    inherits a member for (["toString"], say), the lookup finds that
    member, which is truthy, so [||=] assigns nothing and the increment
    lands on the inherited member, outside the store. *)
Definition versus (won : bool) (s : Stats.t) (op : Seat.t) : Stats.t :=
  let add (r : Versus.t) :=
    if won then Versus.mk (Versus.wins r + 1) (Versus.losses r)
    else Versus.mk (Versus.wins r) (Versus.losses r + 1) in
  let file (r : Versus.t) :=
    Stats.mk (Stats.wins s) (Stats.losses s)
      (<[Seat.username op := add r]> (Stats.vs s)) in
  match Stats.vs s !! Seat.username op with
  | Some r => file r
  | None => if inherited (Seat.username op) then s else file (Versus.mk 0 0)
  end.

(** One turn of the outer [forEach]. *)
Definition credit (players : list Seat.t) (winner : Seat.t)
    (users : list User.t) (p : Seat.t) : list User.t :=
  match list_find (λ x, User.id x = Seat.id p) users with
  | None => users
  | Some (i, u) =>
      let won := bool_decide (Seat.id p = Seat.id winner) in
      let stats := won_or_lost won (ensureStats u) in
      let stats :=
        fold_left (versus won)
          (filter (λ op, Seat.id op ≠ Seat.id p) players) stats in
      <[i := set_stats u stats]> users
  end.

Definition aggregate (players : list Seat.t) (winner : Seat.t)
    (users : list User.t) : list User.t :=
  fold_left (credit players winner) players users.

(** ** The handlers *)

Definition unauthorized : response := json 401 (Error "unauthorized").
Definition room_not_found : response := json 404 (Error "room not found").

(** POST /api/rooms *)
Definition create (e : env) (db : Db.t) (authorization : string)
    (maxPlayers : value) : response * Db.t :=
  match authUser db authorization with
  | None => (unauthorized, db)
  | Some user =>
      let max :=
        Math_max (of_Z 2)
          (Math_min (of_Z 4) (Number (or_else maxPlayers (VNum (of_Z 4))))) in
      let room :=
        Room.mk (String.substring 0 8 (uuid e)) (User.id user)
          [Seat.mk (User.id user) (User.username user) true]
          max false false VNull 0 in
      (json 200 (RoomBody (sanitizeRoom (Some room) (User.id user))),
       put_room db (Room.id room) room)
  end.

(** POST /api/rooms/:id/join *)
Definition join (db : Db.t) (authorization roomId : string)
  : response * Db.t :=
  match authUser db authorization with
  | None => (unauthorized, db)
  | Some user =>
      match Db.rooms db !! roomId with
      | None => (room_not_found, db)
      | Some room =>
          let seated (players : list Seat.t) :=
            let room := bump (set_players room players) in
            (json 200 (RoomBody (sanitizeRoom (Some room) (User.id user))),
             put_room db roomId room) in
          match list_find (λ p, Seat.id p = User.id user)
                  (Room.players room) with
          | Some (i, seat) =>
              seated (<[i := set_connected seat]> (Room.players room))
          | None =>
              if Room.started room
                 || num_ge (of_nat (length (Room.players room)))
                      (Room.maxPlayers room)
              then (json 400 (Error "room full or started"), db)
              else
                let seat :=
                  Seat.mk (User.id user) (User.username user) true in
                seated (Room.players room ++ [set_connected seat])
          end
      end
  end.

(** POST /api/rooms/:id/start *)
Definition start (db : Db.t) (authorization roomId : string)
    (state : value) : response * Db.t :=
  match authUser db authorization with
  | None => (unauthorized, db)
  | Some user =>
      match Db.rooms db !! roomId with
      | None => (room_not_found, db)
      | Some room =>
          if negb (String.eqb (Room.hostId room) (User.id user))
          then (json 403 (Error "host only"), db)
          else if (length (Room.players room) <? 2)%nat
                  || (4 <? length (Room.players room))%nat
          then (json 400 (Error "need 2-4 players"), db)
          else
            let room := set_started room true in
            let room := set_state room (or_else state VNull) in
            let room := bump room in
            (json 200 (RoomBody (sanitizeRoom (Some room) (User.id user))),
             put_room db roomId room)
      end
  end.

(** POST /api/rooms/:id/state *)
Definition update (e : env) (db : Db.t) (authorization roomId : string)
    (state reportWinnerId : value) : response * Db.t :=
  match authUser db authorization with
  | None => (unauthorized, db)
  | Some user =>
      match Db.rooms db !! roomId with
      | None => (room_not_found, db)
      | Some room =>
          if negb (existsb (λ p, String.eqb (Seat.id p) (User.id user))
                     (Room.players room))
          then (json 403 (Error "not in room"), db)
          else
            let room := set_state room state in
            let room := bump room in
            let settled :=
              if truthy reportWinnerId && Room.started room
              then snd <$> list_find
                     (λ p, Is_true (strict_equals (Seat.id p) reportWinnerId))
                     (Room.players room)
              else None in
            match settled with
            | Some winner =>
                let users :=
                  aggregate (Room.players room) winner (Db.users db) in
                let entry :=
                  Match.mk (uuid e) roomId
                    (map Seat.username (Room.players room))
                    (Seat.username winner) (now e) in
                let room := set_started room false in
                (json 200 (OkBody (Room.revision room)),
                 Db.mk users (Db.sessions db)
                   (<[roomId := room]> (Db.rooms db))
                   (Db.history db ++ [entry]))
            | None =>
                (json 200 (OkBody (Room.revision room)),
                 put_room db roomId room)
            end
      end
  end.

(** GET /api/rooms/:id *)
Definition read (db : Db.t) (authorization roomId : string)
  : response * Db.t :=
  match authUser db authorization with
  | None => (unauthorized, db)
  | Some user =>
      match Db.rooms db !! roomId with
      | None => (room_not_found, db)
      | Some room =>
          match list_find (λ p, Seat.id p = User.id user)
                  (Room.players room) with
          | Some (i, seat) =>
              let room :=
                set_players room
                  (<[i := set_connected seat]> (Room.players room)) in
              (json 200 (RoomBody (sanitizeRoom (Some room) (User.id user))),
               put_room db roomId room)
          | None =>
              (json 200 (RoomBody (sanitizeRoom (Some room) (User.id user))),
               db)
          end
      end
  end.

(** The request listener, restricted to the room routes. *)
Definition server (e : env) (db : Db.t) (req : request) : response * Db.t :=
  match req with
  | PostRooms a maxPlayers => create e db a maxPlayers
  | PostJoin a roomId => join db a roomId
  | PostStart a roomId state => start db a roomId state
  | PostState a roomId state reportWinnerId =>
      update e db a roomId state reportWinnerId
  | GetRoom a roomId => read db a roomId
  end.

(** A run of the server over a sequence of requests. *)
Fixpoint serve (db : Db.t) (reqs : list (env * request)) : Db.t :=
  match reqs with
  | [] => db
  | (e, req) :: reqs => serve (snd (server e db req)) reqs
  end.

(** The identifier [create] files the new room under, if the request is one
    to create a room. *)
Definition created_id (e : env) (req : request) : option string :=
  match req with
  | PostRooms _ _ => Some (String.substring 0 8 (uuid e))
  | _ => None
  end.

(** Whether [req] is a join, start or state update of room [rid] that the
    server accepts in store [db]. *)
Definition accepted_mutation (rid : string) (e : env) (db : Db.t)
    (req : request) : bool :=
  match req with
  | PostJoin _ r | PostStart _ r _ | PostState _ r _ _ =>
      bool_decide (r = rid) && (code (fst (server e db req)) =? 200)
  | PostRooms _ _ | GetRoom _ _ => false
  end.

(** The number of accepted mutations of room [rid] in a run. *)
Fixpoint accepted_mutations (rid : string) (db : Db.t)
    (reqs : list (env * request)) : Z :=
  match reqs with
  | [] => 0
  | (e, req) :: reqs =>
      (if accepted_mutation rid e db req then 1 else 0)
      + accepted_mutations rid (snd (server e db req)) reqs
  end.


(** ** The object graph behind [room.state]

    In the running server a state payload is a graph of objects; the tree
    model above identifies an object with its contents.  To speak about
    aliasing, this module keeps objects in a heap.  [read] recovers the tree
    a value denotes, [alloc] builds fresh objects for a tree as
    [JSON.parse] does, and [copy_state] is the expression
    [room.state ? JSON.parse(JSON.stringify(room.state)) : null] of
    [sanitizeRoom].  The JSON text between [stringify] and [parse] is
    represented by the tree it denotes. *)

Section thread.
Context {A B S : Type} (f : A → S → B * S).

(** Map [f] over a list from left to right, passing the state along. *)
Fixpoint thread (xs : list A) (s : S) : list B * S :=
  match xs with
  | [] => ([], s)
  | x :: xs =>
      let '(y, s) := f x s in
      let '(ys, s) := thread xs s in
      (y :: ys, s)
  end.
End thread.

Module Heap.
Inductive val :=
  | Undefined
  | Null
  | Bool (b : bool)
  | Num (n : number)
  | Str (s : string)
  | Ref (l : nat).

Inductive object :=
  | Arr (items : list val)
  | Obj (props : list (string * val)).

Definition fields (o : object) : list val :=
  match o with
  | Arr items => items
  | Obj props => map snd props
  end.

(** The tree a value denotes; [None] when the fuel runs out or a
    reference dangles. *)
Fixpoint read (fuel : nat) (h : list object) (v : val) : option value :=
  match v with
  | Undefined => Some VUndefined
  | Null => Some VNull
  | Bool b => Some (VBool b)
  | Num n => Some (VNum n)
  | Str s => Some (VStr s)
  | Ref l =>
      match fuel with
      | O => None
      | S fuel =>
          match h !! l with
          | Some (Arr items) => VArr <$> mapM (read fuel h) items
          | Some (Obj props) =>
              VObj <$> mapM (λ kx, pair (fst kx) <$> read fuel h (snd kx))
                         props
          | None => None
          end
      end
  end.

(** A chain of references longer than the heap runs through a cycle, on
    which [JSON.stringify] throws. *)
Definition snapshot (h : list object) (v : val) : option value :=
  read (S (length h)) h v.

(** Fresh objects for a tree, children first. *)
Fixpoint alloc (t : value) (h : list object) : val * list object :=
  match t with
  | VUndefined => (Undefined, h)
  | VNull => (Null, h)
  | VBool b => (Bool b, h)
  | VNum n => (Num n, h)
  | VStr s => (Str s, h)
  | VArr items =>
      let '(vs, h) := thread alloc items h in
      (Ref (length h), h ++ [Arr vs])
  | VObj props =>
      let '(ps, h) :=
        thread (λ '(k, x) h, let '(v, h) := alloc x h in ((k, v), h))
          props h in
      (Ref (length h), h ++ [Obj ps])
  end.

Definition truthy (v : val) : bool :=
  match v with
  | Undefined | Null => false
  | Bool b => b
  | Num NaN => false
  | Num (Inf _) => true
  | Num (Fin q) => negb (Qeq_bool q 0)
  | Str s => negb (String.eqb s EmptyString)
  | Ref _ => true
  end.

Definition JSON_stringify (h : list object) (v : val) : option value :=
  jsonify <$> snapshot h v.

Definition JSON_parse (text : value) (h : list object) : val * list object :=
  alloc text h.

(** [room.state ? JSON.parse(JSON.stringify(room.state)) : null] *)
Definition copy_state (h : list object) (state : val) : option (val * list object) :=
  if truthy state
  then text ← JSON_stringify h state; Some (JSON_parse text h)
  else Some (Null, h).

(** A value that refers to nothing below location [k]. *)
Definition above (k : nat) (v : val) : Prop :=
  match v with
  | Ref l => (k ≤ l)%nat
  | _ => True
  end.

(** The locations of the objects a value leads to. *)
Fixpoint reach (fuel : nat) (h : list object) (v : val) : list nat :=
  match v with
  | Ref l =>
      l :: match fuel with
           | O => []
           | S fuel =>
               match h !! l with
               | Some o => flat_map (reach fuel h) (fields o)
               | None => []
               end
           end
  | _ => []
  end.
End Heap.

(** What [alloc] achieves for the tree [t]: it extends the heap by objects
    that refer to new objects only, and the value it returns denotes [t]. *)
Definition alloc_ok (t : value) : Prop :=
  ∀ h, ∃ new,
    snd (Heap.alloc t h) = h ++ new ∧
    Heap.read (S (length new)) (h ++ new) (fst (Heap.alloc t h)) = Some t ∧
    Heap.above (length h) (fst (Heap.alloc t h)) ∧
    Forall (λ o, Forall (Heap.above (length h)) (Heap.fields o)) new.

(** ** Invariant of the player list *)

Definition distinct_seats (room : Room.t) : Prop :=
  NoDup (map Seat.id (Room.players room)).

Definition db_distinct (db : Db.t) : Prop :=
  map_Forall (λ _ room, distinct_seats room) (Db.rooms db).

(** ** Notions used in the statements *)

(** [c] more wins, or losses, against one opponent. *)
Definition add_versus (won : bool) (c : Z) (r : Versus.t) : Versus.t :=
  if won then Versus.mk (Versus.wins r + c) (Versus.losses r)
  else Versus.mk (Versus.wins r) (Versus.losses r + c).

(** How many of the seats [ops] carry the user name [name]. *)
Definition named (name : string) (ops : list Seat.t) : Z :=
  Z.of_nat (length (filter (λ op, Seat.username op = name) ops)).

(** The statistics of user [u] once the player [p] has been credited. *)
Definition credited (players : list Seat.t) (winner p : Seat.t) (u : User.t)
  : Stats.t :=
  let won := bool_decide (Seat.id p = Seat.id winner) in
  fold_left (versus won) (filter (λ op, Seat.id op ≠ Seat.id p) players)
    (won_or_lost won (ensureStats u)).

(** The store [db'] is [db] except, possibly, for the room filed under
    [rid]. *)
Definition same_but_room (rid : string) (db db' : Db.t) : Prop :=
  Db.users db' = Db.users db ∧ Db.sessions db' = Db.sessions db ∧
  Db.history db' = Db.history db ∧
  ∀ r, r ≠ rid → Db.rooms db' !! r = Db.rooms db !! r.

(** Every seat of every room has [connected = true]. *)
Definition all_connected (db : Db.t) : Prop :=
  ∀ rid room p,
    Db.rooms db !! rid = Some room → p ∈ Room.players room →
    Seat.connected p = true.

(** Every seat of [ps'] that is not connected was at the same place of
    [ps], for the same user, and not connected there either. *)
Definition no_disconnect (ps ps' : list Seat.t) : Prop :=
  ∀ k p', ps' !! k = Some p' → Seat.connected p' = false →
    ∃ p, ps !! k = Some p ∧ Seat.connected p = false ∧ Seat.id p = Seat.id p'.

(** ** A store for the examples *)

Module Demo.
Definition alice : User.t :=
  User.mk "u-alice" "alice" "5d41" "9b71" (Some (Stats.mk 0 0 ∅)).
Definition bob : User.t :=
  User.mk "u-bob" "bob" "7c2e" "e4da" (Some (Stats.mk 0 0 ∅)).
Definition carol : User.t := User.mk "u-carol" "carol" "a87f" "1679" None.

Definition sessions : gmap string string :=
  <["ta" := "u-alice"]> (<["tb" := "u-bob"]> (<["tc" := "u-carol"]> ∅)).

Definition seat (u : User.t) (connected : bool) : Seat.t :=
  Seat.mk (User.id u) (User.username u) connected.

(** A room hosted by alice, filed under ["r0000001"]. *)
Definition room (players : list Seat.t) (started : bool) : Room.t :=
  Room.mk "r0000001" "u-alice" players (of_Z 4) started false VNull 0.

Definition db (r : Room.t) : Db.t :=
  Db.mk [alice; bob; carol] sessions (<["r0000001" := r]> ∅) [].

Definition lobby : Db.t := Db.mk [alice; bob; carol] sessions ∅ [].

Definition e0 : env := {| uuid := "r0000001-4a1c-4b7e"; now := 1700000000 |}.
Definition e1 : env := {| uuid := "6f1d2c3b-0000-4000"; now := 1700000060 |}.

Definition two : list Seat.t := [seat alice true; seat bob true].
Definition three : list Seat.t :=
  [seat alice true; seat bob true; seat carol true].

(** bob joins alice's room, carol looks at it, alice starts the match,
    bob reports alice as the winner, a stranger tries to join, carol
    opens a room of her own and joins alice's. *)
Definition trace : list (env * request) :=
  [ (e1, PostJoin "Bearer tb" "r0000001");
    (e1, GetRoom "Bearer tc" "r0000001");
    (e1, PostStart "Bearer ta" "r0000001" (VObj [("turn", VNum (of_Z 1))]));
    (e1, PostState "Bearer tb" "r0000001" (VObj [("turn", VNum (of_Z 9))])
           (VStr "u-alice"));
    (e1, PostJoin "Bearer nobody" "r0000001");
    (e1, PostRooms "Bearer tc" VUndefined);
    (e1, PostJoin "Bearer tc" "r0000001") ].

(** The scenario of the specification: alice opens a room for two, bob
    joins, alice starts, bob reports himself as the winner. *)
Definition scenario : list (env * request) :=
  [ (e0, PostRooms "Bearer ta" (VNum (of_Z 2)));
    (e1, PostJoin "Bearer tb" "r0000001");
    (e1, PostStart "Bearer ta" "r0000001" (VObj [("turn", VNum (of_Z 1))]));
    (e1, PostState "Bearer tb" "r0000001" (VObj [("turn", VNum (of_Z 7))])
           (VStr "u-bob")) ].
End Demo.

(** * The rest of the request listener

    The routes for accounts, the dispatch on method and path, and the
    notions the further properties are stated with. *)

(** ** Accounts (POST /api/register, POST /api/login, GET /api/me)

    Two library functions are parameters:
    [pbkdf2Sync(password, salt, 100000, 64, 'sha512').toString('hex')] and
    [String.prototype.toLowerCase].  A body field is [Some s] when it is
    the string [s] and [None] when it is absent or a falsy value that is
    not a string ([null], [false], 0), which the code treats alike; truthy
    values that are not strings are outside the model.  What the
    environment decides while a request is served is an input of the
    request: the values [randomBytes(16).toString('hex')] and the
    successive [randomUUID()] return, and whether [writeFileSync] in
    [save()] succeeds. *)

From Stdlib Require Import Lqa.

Record draws := {
  first : env;
  second_uuid : string;
  random_salt : string;
  written : bool
}.

(** [!v] for a field that is absent or a string. *)
Definition missing (v : option string) : bool :=
  match v with
  | None | Some EmptyString => true
  | Some _ => false
  end.

Module Profile.
Record t := mk { id : string; username : string; stats : option Stats.t }.
End Profile.

(** [{ id: user.id, username: user.username, stats: user.stats }] *)
Definition profile (user : User.t) : Profile.t :=
  Profile.mk (User.id user) (User.username user) (User.stats user).

Inductive content :=
  | Plain (p : payload)
  | Issued (token : string) (user : Profile.t)
  | Account (user : Profile.t)
  | Preflight
  | Thrown.

Record answer := reply { status : Z; content_of : content }.

Definition set_sessions (db : Db.t) (sessions : gmap string string) : Db.t :=
  Db.mk (Db.users db) sessions (Db.rooms db) (Db.history db).

(** [save()] at the end of a handler, before the answer 200 is sent: when
    the file cannot be written, [writeFileSync] throws and the outer
    [catch] answers 500; what the handler has done to the store stays. *)
Definition save (d : draws) (r : answer * Db.t) : answer * Db.t :=
  if written d then r else (reply 500 Thrown, snd r).

(** An answer of a room handler as an answer of the listener. *)
Definition lift (r : response * Db.t) : answer * Db.t :=
  (reply (code (fst r)) (Plain (body (fst r))), snd r).

(** Every handler calls [save()] on the path that ends in the answer 200
    and on no other. *)
Definition saved (d : draws) (r : answer * Db.t) : answer * Db.t :=
  if status (fst r) =? 200 then save d r else r.

(** The draws [d] with [b] for the fate of the file. *)
Definition writing (b : bool) (d : draws) : draws :=
  {| first := first d; second_uuid := second_uuid d;
     random_salt := random_salt d; written := b |}.

Section Accounts.
Variable pbkdf2 : string → string → string.
Variable toLowerCase : string → string.

Definition hashPassword (password salt : string) : string * string :=
  (salt, pbkdf2 password salt).

(** POST /api/register, up to [save()]. *)
Definition register (d : draws) (db : Db.t) (username password : option string)
  : answer * Db.t :=
  if missing username || missing password
  then (reply 400 (Plain (Error "username and password required")), db)
  else
    let name := default EmptyString username in
    if existsb (λ u, String.eqb (toLowerCase (User.username u))
                       (toLowerCase name)) (Db.users db)
    then (reply 400 (Plain (Error "username already exists")), db)
    else
      let '(salt, hash) :=
        hashPassword (default EmptyString password) (random_salt d) in
      let user :=
        User.mk (uuid (first d)) name salt hash (Some (Stats.mk 0 0 ∅)) in
      let token := second_uuid d in
      (reply 200 (Issued token (profile user)),
       Db.mk (Db.users db ++ [user])
         (<[token := User.id user]> (Db.sessions db))
         (Db.rooms db) (Db.history db)).

(** POST /api/login, up to [save()].  The user is looked up under
    [String(username || '').toLowerCase()]; without a password
    [pbkdf2Sync] throws, which the outer [catch] answers 500. *)
Definition login (d : draws) (db : Db.t) (username password : option string)
  : answer * Db.t :=
  let name := default EmptyString username in
  match list_find (λ u, toLowerCase (User.username u) = toLowerCase name)
          (Db.users db) with
  | None => (reply 401 (Plain (Error "invalid credentials")), db)
  | Some (_, user) =>
      match password with
      | None => (reply 500 Thrown, db)
      | Some pass =>
          let '(_, hash) := hashPassword pass (User.salt user) in
          if negb (String.eqb hash (User.hash user))
          then (reply 401 (Plain (Error "invalid credentials")), db)
          else
            let token := uuid (first d) in
            (reply 200 (Issued token (profile user)),
             set_sessions db (<[token := User.id user]> (Db.sessions db)))
      end
  end.

(** GET /api/me *)
Definition me (db : Db.t) (authorization : string) : answer * Db.t :=
  match authUser db authorization with
  | None => (reply 401 (Plain (Error "unauthorized")), db)
  | Some user => (reply 200 (Account (profile user)), db)
  end.

(** ** All routes *)

Inductive call :=
  | Register (username password : option string)
  | Login (username password : option string)
  | Me (authorization : string)
  | Rooms (req : request).

(** What a call does, [save()] included; GET /api/me does not save. *)
Definition api (d : draws) (db : Db.t) (c : call) : answer * Db.t :=
  match c with
  | Register username password => saved d (register d db username password)
  | Login username password => saved d (login d db username password)
  | Me authorization => me db authorization
  | Rooms req => saved d (lift (server (first d) db req))
  end.

(** A run of the server over calls of all kinds. *)
Fixpoint session (db : Db.t) (cs : list (draws * call)) : Db.t :=
  match cs with
  | [] => db
  | (d, c) :: cs => session (snd (api d db c)) cs
  end.

(** ** The listener (the function given to [http.createServer])

    A request reaches the listener as method, path ([url.pathname]),
    [Authorization] header and body.  The body is [NoBody] when it is
    empty, [BadJson] when [JSON.parse] throws on it and [Json v] when it
    parses to [v]; an object lists each of its keys once.  Whatever a
    handler throws is answered 500 by the outer [catch].  The room
    handlers are the functions [create], [join], [start], [update] and
    [read] above; the listener calls them on room identifiers under which
    [db.rooms] finds a room or nothing and on [maxPlayers] arguments on
    which [Number] returns, and answers the other requests itself. *)

Inductive raw_body :=
  | NoBody
  | BadJson
  | Json (v : value).

(** [raw ? JSON.parse(raw) : {}]; [None] when it throws. *)
Definition readBody (raw : raw_body) : option value :=
  match raw with
  | NoBody => Some (VObj [])
  | BadJson => None
  | Json v => Some v
  end.

(** [const { k } = v]; [None] when it throws, which it does on [null]. *)
Definition field (k : string) (v : value) : option value :=
  match v with
  | VUndefined | VNull => None
  | VObj props =>
      match list_find (λ kx, fst kx = k) props with
      | Some (_, (_, x)) => Some x
      | None => Some VUndefined
      end
  | _ => Some VUndefined
  end.

(** A credential as the account routes take it; [None] for a truthy value
    that is not a string. *)
Definition as_text (v : value) : option (option string) :=
  match v with
  | VStr s => Some (Some s)
  | _ => if truthy v then None else Some None
  end.

(** [pathname.split('/')] *)
Fixpoint split_path (s : string) : list string :=
  match s with
  | EmptyString => [EmptyString]
  | String c r =>
      if Ascii.eqb c "/" then EmptyString :: split_path r
      else match split_path r with
           | x :: xs => String c x :: xs
           | [] => [String c EmptyString]
           end
  end.

(** Whether a string is free of slashes, as [[^/]+] demands. *)
Fixpoint no_slash (s : string) : bool :=
  match s with
  | EmptyString => true
  | String c r => negb (Ascii.eqb c "/") && no_slash r
  end.

(** The room paths: [/^\/api\/rooms\/[^/]+$/] and
    [/^\/api\/rooms\/[^/]+\/(join|start|state)$/], with
    [pathname.split('/')[3]] as room identifier. *)
Definition room_route (pathname : string) : option (string * option string) :=
  match split_path pathname with
  | [root; api; rooms; roomId] =>
      if String.eqb root EmptyString && String.eqb api "api"
         && String.eqb rooms "rooms" && negb (String.eqb roomId EmptyString)
      then Some (roomId, None) else None
  | [root; api; rooms; roomId; action] =>
      if String.eqb root EmptyString && String.eqb api "api"
         && String.eqb rooms "rooms" && negb (String.eqb roomId EmptyString)
      then Some (roomId, Some action) else None
  | _ => None
  end.

Inductive outcome :=
  | Done (a : answer) (db : Db.t)
  | Unmodelled.

Definition thrown (db : Db.t) : outcome := Done (reply 500 Thrown) db.

Definition plain (r : response * Db.t) : outcome :=
  Done (reply (code (fst r)) (Plain (body (fst r)))) (snd r).

Definition answered (r : answer * Db.t) : outcome := Done (fst r) (snd r).

(** The two account routes that read [username] and [password]. *)
Definition with_credentials (handler : option string → option string
                                       → answer * Db.t)
    (db : Db.t) (raw : raw_body) : outcome :=
  match readBody raw with
  | None => thrown db
  | Some b =>
      match field "username" b, field "password" b with
      | Some username, Some password =>
          match as_text username, as_text password with
          | Some username, Some password =>
              answered (handler username password)
          | _, _ => Unmodelled
          end
      | _, _ => thrown db
      end
  end.

(** [Number(v)] throws: [v] is an object with a property ["toString"] of
    its own, which after [JSON.parse] is not a function, while the
    inherited [valueOf] returns the object; or [v] is an array that holds
    such an object, which [join] fails to print. *)
Fixpoint unprintable (v : value) : bool :=
  match v with
  | VObj props => existsb (λ kx, String.eqb (fst kx) "toString") props
  | VArr items => existsb unprintable items
  | _ => false
  end.

(** POST /api/rooms: the body is read once the caller is known, and
    [Number(maxPlayers || 4)] is computed before anything is written. *)
Definition create_route (d : draws) (db : Db.t) (a : string) (raw : raw_body)
  : outcome :=
  match authUser db a with
  | None => plain (unauthorized, db)
  | Some _ =>
      match readBody raw ≫= field "maxPlayers" with
      | None => thrown db
      | Some maxPlayers =>
          if unprintable (or_else maxPlayers (VNum (of_Z 4)))
          then thrown db
          else answered (saved d (lift (create (first d) db a maxPlayers)))
      end
  end.

(** [db.rooms[roomId]] finds no room but the member every object inherits
    under that name. *)
Definition finds_member (db : Db.t) (roomId : string) : bool :=
  match Db.rooms db !! roomId with
  | None => inherited roomId
  | Some _ => false
  end.

(** A room route on such an identifier.  The member is truthy, so the
    handler goes on once the caller is known: its [hostId] is
    [undefined], which is not the caller's identifier, and so is its
    [players], on which [find] and [some] throw. *)
Definition member_route (db : Db.t) (a : string) (start : bool) : outcome :=
  match authUser db a with
  | None => plain (unauthorized, db)
  | Some _ =>
      if start then plain (json 403 (Error "host only"), db) else thrown db
  end.

(** POST /api/rooms/:id/start: the body is read after the four guards. *)
Definition start_route (d : draws) (db : Db.t) (a roomId : string)
    (raw : raw_body) : outcome :=
  match authUser db a with
  | None => plain (unauthorized, db)
  | Some user =>
      match Db.rooms db !! roomId with
      | None => plain (room_not_found, db)
      | Some room =>
          if negb (String.eqb (Room.hostId room) (User.id user))
          then plain (json 403 (Error "host only"), db)
          else if (length (Room.players room) <? 2)%nat
                  || (4 <? length (Room.players room))%nat
          then plain (json 400 (Error "need 2-4 players"), db)
          else
            match readBody raw ≫= field "state" with
            | None => thrown db
            | Some state =>
                answered (saved d (lift (start db a roomId state)))
            end
      end
  end.

(** POST /api/rooms/:id/state: the body is read after the three guards. *)
Definition state_route (d : draws) (db : Db.t) (a roomId : string)
    (raw : raw_body) : outcome :=
  match authUser db a with
  | None => plain (unauthorized, db)
  | Some user =>
      match Db.rooms db !! roomId with
      | None => plain (room_not_found, db)
      | Some room =>
          if negb (existsb (λ p, String.eqb (Seat.id p) (User.id user))
                     (Room.players room))
          then plain (json 403 (Error "not in room"), db)
          else
            match readBody raw with
            | None => thrown db
            | Some b =>
                match field "state" b, field "reportWinnerId" b with
                | Some state, Some reportWinnerId =>
                    answered
                      (saved d (lift (update (first d) db a roomId state
                                        reportWinnerId)))
                | _, _ => thrown db
                end
            end
      end
  end.

Definition listener (d : draws) (db : Db.t)
    (method pathname authorization : string) (raw : raw_body) : outcome :=
  let post := String.eqb method "POST" in
  let get := String.eqb method "GET" in
  if String.eqb method "OPTIONS" then Done (reply 200 Preflight) db
  else if post && String.eqb pathname "/api/register"
  then with_credentials (λ u p, saved d (register d db u p)) db raw
  else if post && String.eqb pathname "/api/login"
  then with_credentials (λ u p, saved d (login d db u p)) db raw
  else if get && String.eqb pathname "/api/me"
  then answered (me db authorization)
  else if post && String.eqb pathname "/api/rooms"
  then create_route d db authorization raw
  else
    match room_route pathname with
    | Some (roomId, Some action) =>
        if post && String.eqb action "join"
        then if finds_member db roomId
             then member_route db authorization false
             else answered (saved d (lift (join db authorization roomId)))
        else if post && String.eqb action "start"
        then if finds_member db roomId
             then member_route db authorization true
             else start_route d db authorization roomId raw
        else if post && String.eqb action "state"
        then if finds_member db roomId
             then member_route db authorization false
             else state_route d db authorization roomId raw
        else Done (reply 404 (Plain (Error "not found"))) db
    | Some (roomId, None) =>
        if get
        then if finds_member db roomId
             then member_route db authorization false
             else answered (saved d (lift (read db authorization roomId)))
        else Done (reply 404 (Plain (Error "not found"))) db
    | None => Done (reply 404 (Plain (Error "not found"))) db
    end.

End Accounts.

(** ** What a request can do to a room

    [room_step users room room'] lists the ways in which the room handlers
    turn a room into its successor; [users] are the registered users. *)

Definition seat_of (user : User.t) : Seat.t :=
  Seat.mk (User.id user) (User.username user) true.

Inductive room_step (users : list User.t) (room : Room.t) : Room.t → Prop :=
  | step_none : room_step users room room
  | step_reconnect i seat :
      Room.players room !! i = Some seat →
      room_step users room
        (bump (set_players room
                 (<[i := set_connected seat]> (Room.players room))))
  | step_seat user :
      user ∈ users →
      User.id user ∉ map Seat.id (Room.players room) →
      Room.started room = false →
      num_ge (of_nat (length (Room.players room))) (Room.maxPlayers room)
        = false →
      room_step users room
        (bump (set_players room (Room.players room ++ [seat_of user])))
  | step_start state :
      (2 ≤ length (Room.players room) ≤ 4)%nat →
      room_step users room
        (bump (set_state (set_started room true) state))
  | step_state state :
      room_step users room (bump (set_state room state))
  | step_settle state :
      Room.started room = true →
      room_step users room (set_started (bump (set_state room state)) false)
  | step_look i seat :
      Room.players room !! i = Some seat →
      room_step users room
        (set_players room (<[i := set_connected seat]> (Room.players room))).

(** A room as [create] files it. *)
Definition fresh_room (users : list User.t) (room : Room.t) : Prop :=
  ∃ host,
    host ∈ users ∧
    Room.hostId room = User.id host ∧
    Room.players room = [seat_of host] ∧
    Room.started room = false ∧
    Room.locked room = false ∧
    Room.state room = VNull ∧
    Room.revision room = 0 ∧
    match Room.maxPlayers room with
    | Fin q => (2 <= q <= 4)%Q
    | NaN => True
    | Inf _ => False
    end.

(** ** Invariants of rooms *)

(** The last seat was given out while the room was below its capacity. *)
Definition within_capacity (room : Room.t) : Prop :=
  match Room.maxPlayers room with
  | Fin q => (inject_Z (Z.of_nat (length (Room.players room))) - 1 < q)%Q
  | _ => True
  end.

(** A match is played by two to four players. *)
Definition match_size (room : Room.t) : Prop :=
  Room.started room = true → (2 ≤ length (Room.players room) ≤ 4)%nat.

(** The host has the first seat. *)
Definition host_first (room : Room.t) : Prop :=
  Seat.id <$> head (Room.players room) = Some (Room.hostId room).

(** Identifier and name of a user, of a seat. *)
Definition user_tag (u : User.t) : string * string :=
  (User.id u, User.username u).
Definition seat_tag (p : Seat.t) : string * string :=
  (Seat.id p, Seat.username p).

(** Every seat carries the identifier and the name of a registered user. *)
Definition seats_registered (users : list User.t) (room : Room.t) : Prop :=
  ∀ p, p ∈ Room.players room → seat_tag p ∈ map user_tag users.

(** What of a user record never changes. *)
Definition credentials (u : User.t) : string * string * string * string :=
  (User.id u, User.username u, User.salt u, User.hash u).

(** The token of an [Authorization] header, as [authUser] reads it. *)
Definition bearer (authorization : string) : option string :=
  if String.prefix "Bearer " authorization
  then Some (slice 7 authorization) else None.

(** The token a call puts into [db.sessions] when it succeeds. *)
Definition issued (d : draws) (c : call) : option string :=
  match c with
  | Register _ _ => Some (second_uuid d)
  | Login _ _ => Some (uuid (first d))
  | _ => None
  end.

(** The identifier a call files a new room under when it succeeds. *)
Definition filed (d : draws) (c : call) : option string :=
  match c with
  | Rooms req => created_id (first d) req
  | _ => None
  end.

(** The [Authorization] header of a room request and the room it is about
    (for a creation, the identifier the new room is filed under). *)
Definition authorization_of (req : request) : string :=
  match req with
  | PostRooms a _ | PostJoin a _ | PostStart a _ _ | PostState a _ _ _
  | GetRoom a _ => a
  end.

Definition room_of (e : env) (req : request) : string :=
  match req with
  | PostRooms _ _ => String.substring 0 8 (uuid e)
  | PostJoin _ r | PostStart _ r _ | PostState _ r _ _ | GetRoom _ r => r
  end.

(** Whether the route for a method and a path reads the request body. *)
Definition reads_body (method pathname : string) : bool :=
  String.eqb method "POST"
  && (String.eqb pathname "/api/register"
      || String.eqb pathname "/api/login"
      || String.eqb pathname "/api/rooms"
      || match room_route pathname with
         | Some (_, Some action) =>
             String.eqb action "start" || String.eqb action "state"
         | _ => false
         end).

(** A body on which [readBody] or the destructuring of its result
    throws. *)
Definition unreadable (raw : raw_body) : Prop :=
  raw = BadJson ∨ raw = Json VNull.

(** A [maxPlayers] argument that is absent, [null], a boolean or a
    number: [Number] reads it without going through a string. *)
Definition plain_number (v : value) : bool :=
  match v with
  | VUndefined | VNull | VBool _ | VNum _ => true
  | VStr _ | VArr _ | VObj _ => false
  end.

(** ** A second store for examples, built through the account routes *)

Module Tour.
(** A stand-in for [pbkdf2Sync]. *)
Definition hash (password salt : string) : string :=
  String.append salt (String.append "$" password).

(** [toLowerCase] on strings of ASCII characters. *)
Definition lower (c : ascii) : ascii :=
  let n := nat_of_ascii c in
  if (65 <=? n)%nat && (n <=? 90)%nat then ascii_of_nat (n + 32) else c.

Fixpoint lowered (s : string) : string :=
  match s with
  | EmptyString => EmptyString
  | String c r => String (lower c) (lowered r)
  end.

(** The draws of a request during which the file can be written. *)
Definition draw (uuid1 uuid2 salt : string) : draws :=
  {| first := {| uuid := uuid1; now := 1700000000 |};
     second_uuid := uuid2; random_salt := salt; written := true |}.



Definition dora : draws := draw "u-dora" "t-dora" "c0ffee".
Definition again : draws := draw "t-dora-2" "-" "-".

(** On the store of [Demo]: carol joins alice's room, alice starts the
    match, bob reports carol as the winner, carol opens a room of her own,
    dora registers and alice logs in with a wrong password. *)
Definition visit : list (draws * call) :=
  [ (draw "-" "-" "-", Rooms (PostJoin "Bearer tc" "r0000001"));
    (draw "-" "-" "-", Rooms (PostStart "Bearer ta" "r0000001" VNull));
    (draw "m-0002" "-" "-",
     Rooms (PostState "Bearer tb" "r0000001" (VStr "over") (VStr "u-carol")));
    (draw "9e3b7a10-52cd" "-" "-", Rooms (PostRooms "Bearer tc" VUndefined));
    (dora, Register (Some "Dora") (Some "pw-d"));
    (again, Login (Some "alice") (Some "guess")) ].

(** Two users register as "toString" and "bob"; toString opens a room, bob
    joins, toString starts the match and bob reports himself as the
    winner. *)
Definition inherited_name : list (draws * call) :=
  [ (draw "u-tostring" "t-tostring" "0badc0de",
     Register (Some "toString") (Some "pw-t"));
    (draw "u-bob" "t-bob" "feedface", Register (Some "bob") (Some "pw-b"));
    (draw "7c9e6679-7425" "-" "-",
     Rooms (PostRooms "Bearer t-tostring" VUndefined));
    (draw "-" "-" "-", Rooms (PostJoin "Bearer t-bob" "7c9e6679"));
    (draw "-" "-" "-",
     Rooms (PostStart "Bearer t-tostring" "7c9e6679" (VStr "go")));
    (draw "m-0003" "-" "-",
     Rooms (PostState "Bearer t-bob" "7c9e6679" (VStr "over")
              (VStr "u-bob"))) ].

(** A request body [{"username": "Alice", "password": "pw-a"}]. *)
Definition taken : raw_body :=
  Json (VObj [("username", VStr "Alice"); ("password", VStr "pw-a")]).

(** A room of alice and bob whose capacity is [NaN]. *)
Definition unbounded : Room.t :=
  Room.mk "r0000001" "u-alice" Demo.two NaN false false VNull 1.
End Tour.

(** * Properties *)

Ltac unfold_handlers :=
  unfold server, create, join, start, update, read,
    unauthorized, room_not_found in *.

(** ** Sample runs *)

Example StringToNumber_3 : StringToNumber " 3 " = Fin (3 # 1).
Proof. vm_compute. reflexivity. Qed.

Example StringToNumber_abc : StringToNumber "abc" = NaN.
Proof. reflexivity. Qed.

Example StringToNumber_literals :
  StringToNumber "2.5" = Fin (25 # 10) ∧
  StringToNumber "-1e1" = Fin (-10 # 1) ∧
  StringToNumber "0x1f" = Fin (31 # 1) ∧
  StringToNumber "-Infinity" = Inf true ∧
  StringToNumber "1,2" = NaN ∧
  StringToNumber "[object Object]" = NaN.
Proof. vm_compute. repeat split. Qed.

Example Number_coercions :
  Number (or_else VUndefined (VNum (of_Z 4))) = Fin (4 # 1) ∧
  Number (or_else (VNum (of_Z 0)) (VNum (of_Z 4))) = Fin (4 # 1) ∧
  Number (VBool true) = Fin (1 # 1) ∧
  Number (VArr [VStr "3"]) = Fin (3 # 1) ∧
  Number (VArr [VNum (of_Z 2); VNum (of_Z 3)]) = NaN ∧
  Number (VObj []) = NaN.
Proof. vm_compute. repeat split. Qed.

Example scenario_of_the_specification :
  (λ r, (length (Room.players r), Room.started r, Room.revision r))
    <$> Db.rooms (serve Demo.lobby (take 1 Demo.scenario)) !! "r0000001"
    = Some (1%nat, false, 0) ∧
  (λ r, (length (Room.players r), Room.started r, Room.revision r))
    <$> Db.rooms (serve Demo.lobby (take 2 Demo.scenario)) !! "r0000001"
    = Some (2%nat, false, 1) ∧
  (λ r, (length (Room.players r), Room.started r, Room.revision r))
    <$> Db.rooms (serve Demo.lobby (take 3 Demo.scenario)) !! "r0000001"
    = Some (2%nat, true, 2) ∧
  (λ r, (length (Room.players r), Room.started r, Room.revision r))
    <$> Db.rooms (serve Demo.lobby Demo.scenario) !! "r0000001"
    = Some (2%nat, false, 3) ∧
  (λ u, (User.username u, Stats.wins (ensureStats u),
         Stats.losses (ensureStats u)))
    <$> Db.users (serve Demo.lobby Demo.scenario)
    = [("alice", 0, 1); ("bob", 1, 0); ("carol", 0, 0)] ∧
  length (Db.history (serve Demo.lobby Demo.scenario)) = 1%nat.
Proof. vm_compute. repeat split. Qed.

(** ** Shape of the handlers *)

Lemma lookup_put_room db rid room rid' :
  Db.rooms (put_room db rid room) !! rid' =
  if decide (rid = rid') then Some room else Db.rooms db !! rid'.
Proof. unfold put_room, set_rooms; simpl. apply lookup_insert. Qed.

Lemma accepted_mutations_nonneg rid reqs :
  ∀ db, 0 <= accepted_mutations rid db reqs.
Proof.
  induction reqs as [|[e req] reqs IH]; intros db; simpl; [lia|].
  specialize (IH (snd (server e db req))). case_match; lia.
Qed.

(** One request: the revision of a room moves by one exactly when the
    request is an accepted join, start or state update of that room. *)
Lemma server_revision e db req rid room :
  Db.rooms db !! rid = Some room →
  created_id e req ≠ Some rid →
  ∃ room',
    Db.rooms (snd (server e db req)) !! rid = Some room' ∧
    Room.revision room' =
      Room.revision room + (if accepted_mutation rid e db req then 1 else 0).
Proof.
  intros Hroom Hfresh.
  destruct req as [a mp|a r|a r st|a r st w|a r];
    cbn [server accepted_mutation created_id] in *.
  - unfold create. case_match; cbn [fst snd].
    + exists room. rewrite lookup_put_room. cbn [Room.id]. case_decide.
      * congruence.
      * split; [done|lia].
    + exists room. split; [done|lia].
  - destruct (decide (r = rid)) as [->|Hne].
    + rewrite bool_decide_eq_true_2 by done. cbn [andb].
      unfold join. rewrite Hroom.
      repeat (case_match; cbn [fst snd code]; simplify_eq);
        try (exists room; split; [done|lia]).
      all: eexists; rewrite lookup_put_room, decide_True by done;
        split; [done|simpl; lia].
    + rewrite bool_decide_eq_false_2 by done. cbn [andb].
      exists room. split; [|lia].
      unfold join. repeat (case_match; cbn [fst snd]; simplify_eq); try done.
      all: by rewrite lookup_put_room, decide_False.
  - destruct (decide (r = rid)) as [->|Hne].
    + rewrite bool_decide_eq_true_2 by done. cbn [andb].
      unfold start. rewrite Hroom.
      repeat (case_match; cbn [fst snd code]; simplify_eq);
        try (exists room; split; [done|lia]).
      all: eexists; rewrite lookup_put_room, decide_True by done;
        split; [done|simpl; lia].
    + rewrite bool_decide_eq_false_2 by done. cbn [andb].
      exists room. split; [|lia].
      unfold start. repeat (case_match; cbn [fst snd]; simplify_eq); try done.
      all: by rewrite lookup_put_room, decide_False.
  - destruct (decide (r = rid)) as [->|Hne].
    + rewrite bool_decide_eq_true_2 by done. cbn [andb].
      unfold update. rewrite Hroom.
      repeat (case_match; cbn [fst snd code Db.rooms]; simplify_eq);
        try (exists room; split; [done|lia]).
      all: eexists;
        first [rewrite lookup_insert_eq
              |rewrite lookup_put_room, decide_True by done];
        split; [done|simpl; lia].
    + rewrite bool_decide_eq_false_2 by done. cbn [andb].
      exists room. split; [|lia].
      unfold update.
      repeat (case_match; cbn [fst snd Db.rooms]; simplify_eq); try done.
      all: first [by rewrite lookup_insert_ne
                 |by rewrite lookup_put_room, decide_False].
  - unfold read.
    repeat (case_match; cbn [fst snd]; simplify_eq);
      try (exists room; split; [done|lia]).
    rewrite lookup_put_room. case_decide; simplify_eq.
    + eexists. split; [done|simpl; lia].
    + exists room. split; [done|lia].
Qed.

(** C1, as the code has it.  [create] files the new room under the first
    eight characters of a random UUID without looking whether a room is
    filed there.  Take a room that is in the store and a run of requests in
    which no room creation draws that room's identifier.  After the run the
    room is still there and its revision is the old one plus the number of
    joins, starts and state updates of that room the server accepted: each
    of them adds exactly 1, nothing else (reads, refused requests, requests
    on other rooms) changes it, and it has not decreased. *)
Theorem revision_counts_accepted_mutations rid room reqs :
  ∀ db,
    Db.rooms db !! rid = Some room →
    Forall (λ er, created_id (fst er) (snd er) ≠ Some rid) reqs →
    ∃ room',
      Db.rooms (serve db reqs) !! rid = Some room' ∧
      Room.revision room' =
        Room.revision room + accepted_mutations rid db reqs ∧
      Room.revision room <= Room.revision room'.
Proof.
  revert room.
  induction reqs as [|[e req] reqs IH]; intros room db Hroom Hfresh; simpl.
  - exists room. split; [done|lia].
  - inversion Hfresh as [|? ? Hreq Hrest]; subst; simpl in *.
    destruct (server_revision e db req rid room Hroom Hreq)
      as (room1 & Hroom1 & Hrev1).
    destruct (IH room1 _ Hroom1 Hrest) as (room' & Hroom' & Hrev' & Hle).
    exists room'. split; [done|].
    pose proof (accepted_mutations_nonneg rid reqs (snd (server e db req))).
    destruct (accepted_mutation rid e db req); lia.
Qed.

(** C1 as stated is false: carol joins alice's room, which puts its
    revision at 1; she then opens a room of her own, and the UUID drawn
    begins with the identifier of alice's room.  The room filed under that
    identifier is now carol's, at revision 0: across these two operations
    the revision read under the identifier has gone down. *)
Lemma create_on_identifier_in_use :
  Room.revision
    <$> Db.rooms (serve (Demo.db (Demo.room Demo.two false))
                    [(Demo.e1, PostJoin "Bearer tc" "r0000001")])
          !! "r0000001" = Some 1 ∧
  (λ r, (Room.hostId r, Room.revision r))
    <$> Db.rooms (serve (Demo.db (Demo.room Demo.two false))
                    [(Demo.e1, PostJoin "Bearer tc" "r0000001");
                     (Demo.e0, PostRooms "Bearer tc" VUndefined)])
          !! "r0000001" = Some ("u-carol", 0) ∧
  ¬ ∃ room',
      Db.rooms (serve (Demo.db (Demo.room Demo.two false))
                  [(Demo.e1, PostJoin "Bearer tc" "r0000001");
                   (Demo.e0, PostRooms "Bearer tc" VUndefined)])
        !! "r0000001" = Some room' ∧
      1 <= Room.revision room'.
Proof.
  split; [vm_compute; reflexivity|]. split; [vm_compute; reflexivity|].
  intros (room' & Hroom' & Hrev). vm_compute in Hroom'.
  injection Hroom' as <-. vm_compute in Hrev. by apply Hrev.
Qed.

(** C10.  A request answered 401, 404, 403 or 400 leaves the store as it
    was: every guard of a handler runs before its first assignment. *)
Theorem error_leaves_store_unchanged e db req :
  code (fst (server e db req)) = 401 ∨ code (fst (server e db req)) = 404 ∨
  code (fst (server e db req)) = 403 ∨ code (fst (server e db req)) = 400 →
  snd (server e db req) = db.
Proof.
  intros Herr.
  destruct req; unfold_handlers;
    repeat (case_match; try reflexivity); cbn [fst snd code] in Herr; lia.
Qed.

(** ** Seats *)

Lemma ids_set_connected (ps : list Seat.t) i seat :
  ps !! i = Some seat →
  map Seat.id (<[i := set_connected seat]> ps) = map Seat.id ps.
Proof.
  intros Hi. apply list_eq. intros j.
  rewrite !list_lookup_fmap.
  destruct (decide (i = j)) as [->|Hne].
  - rewrite list_lookup_insert_eq by (by eapply lookup_lt_Some).
    by rewrite Hi.
  - by rewrite list_lookup_insert_ne.
Qed.

Lemma find_seat_None (ps : list Seat.t) uid :
  list_find (λ p, Seat.id p = uid) ps = None → uid ∉ map Seat.id ps.
Proof.
  intros Hnone Hin. apply list_elem_of_fmap in Hin as (p & -> & Hp).
  apply list_find_None in Hnone.
  rewrite Forall_forall in Hnone. by apply (Hnone p).
Qed.

Lemma distinct_after_push (ps : list Seat.t) seat :
  NoDup (map Seat.id ps) →
  list_find (λ p, Seat.id p = Seat.id seat) ps = None →
  NoDup (map Seat.id (ps ++ [seat])).
Proof.
  intros Hnd Hnone. rewrite map_app. apply NoDup_app. split; [done|]. split.
  - intros x Hx Hx'. apply list_elem_of_singleton in Hx'. subst x.
    by apply find_seat_None in Hnone.
  - apply NoDup_singleton.
Qed.

Lemma server_distinct e db req :
  db_distinct db → db_distinct (snd (server e db req)).
Proof.
  unfold db_distinct. intros Hdb.
  destruct req as [a mp|a r|a r st|a r st w|a r]; cbn [server].
  - unfold create. case_match; cbn [snd]; [|done].
    apply map_Forall_insert_2; [|done].
    unfold distinct_seats; simpl. apply NoDup_singleton.
  - unfold join.
    repeat (case_match; cbn [snd]; simplify_eq); try done.
    + apply map_Forall_insert_2; [|done].
      unfold distinct_seats; simpl.
      match goal with H : list_find _ _ = Some _ |- _ =>
        apply list_find_Some in H as (Hi & _ & _) end.
      rewrite ids_set_connected by done. by eapply Hdb.
    + apply map_Forall_insert_2; [|done].
      unfold distinct_seats; simpl.
      apply (distinct_after_push _ (Seat.mk _ _ true)); [by eapply Hdb|done].
  - unfold start.
    repeat (case_match; cbn [snd]; simplify_eq); try done.
    apply map_Forall_insert_2; [|done].
    unfold distinct_seats; simpl. by eapply Hdb.
  - unfold update.
    repeat (case_match; cbn [snd]; simplify_eq); try done.
    all: apply map_Forall_insert_2; [|done].
    all: unfold distinct_seats; simpl; by eapply Hdb.
  - unfold read.
    repeat (case_match; cbn [snd]; simplify_eq); try done.
    apply map_Forall_insert_2; [|done].
    unfold distinct_seats; simpl.
    match goal with H : list_find _ _ = Some _ |- _ =>
      apply list_find_Some in H as (Hi & _ & _) end.
    rewrite ids_set_connected by done. by eapply Hdb.
Qed.

Lemma serve_distinct reqs :
  ∀ db, db_distinct db → db_distinct (serve db reqs).
Proof.
  induction reqs as [|[e req] reqs IH]; intros db Hdb; simpl; [done|].
  by apply IH, server_distinct.
Qed.

Lemma defaultDb_distinct : db_distinct defaultDb.
Proof. apply map_Forall_empty. Qed.

(** C2.  Start from a store in which no room seats a user twice (the empty
    store, for one) and let the server process any requests.  Then still no
    room seats a user twice.  And when a user who is seated in a room of
    the resulting store joins it again, the request is accepted, the player
    list keeps its length and its user identifiers, the only change being
    that the caller's seat, still under the caller's identifier and name,
    now has [connected = true] whatever the flag was, every other seat
    being as before, and the revision is one higher. *)
Theorem players_stay_distinct db reqs :
  db_distinct db →
  db_distinct (serve db reqs) ∧
  ∀ a rid user room i seat,
    authUser (serve db reqs) a = Some user →
    Db.rooms (serve db reqs) !! rid = Some room →
    list_find (λ p, Seat.id p = User.id user) (Room.players room)
      = Some (i, seat) →
    ∃ room',
      code (fst (join (serve db reqs) a rid)) = 200 ∧
      Db.rooms (snd (join (serve db reqs) a rid)) !! rid = Some room' ∧
      Room.players room' !! i
        = Some (Seat.mk (User.id user) (Seat.username seat) true) ∧
      (∀ k, k ≠ i → Room.players room' !! k = Room.players room !! k) ∧
      length (Room.players room') = length (Room.players room) ∧
      map Seat.id (Room.players room') = map Seat.id (Room.players room) ∧
      NoDup (map Seat.id (Room.players room')) ∧
      Room.revision room' = Room.revision room + 1.
Proof.
  intros Hdb. pose proof (serve_distinct reqs db Hdb) as Hdb'.
  split; [done|].
  intros a rid user room i seat Hauth Hroom Hseat.
  unfold join. rewrite Hauth, Hroom, Hseat. cbn [fst snd code].
  eexists. rewrite lookup_put_room, decide_True by done.
  pose proof Hseat as (Hi & Hid & _)%list_find_Some.
  split; [done|]. split; [done|].
  cbn [bump set_players Room.players Room.revision].
  split; [|split; [|split; [|split; [|split]]]].
  - rewrite list_lookup_insert_eq by (by eapply lookup_lt_Some).
    unfold set_connected. by rewrite Hid.
  - intros k Hk. by apply list_lookup_insert_ne.
  - by rewrite length_insert.
  - by apply ids_set_connected.
  - rewrite ids_set_connected by done. by eapply Hdb'.
  - done.
Qed.

(** ** Join *)

Lemma num_ge_of_nat (n : nat) (q : Q) :
  num_ge (of_nat n) (Fin q) = true ↔ (q <= inject_Z (Z.of_nat n))%Q.
Proof.
  unfold num_ge, of_nat, num_lt, Qlt_bool. rewrite negb_involutive.
  apply Qle_bool_iff.
Qed.

(** The store after [put_room]: the room is filed, everything else is as
    it was. *)
Lemma put_room_frame db rid room : same_but_room rid db (put_room db rid room).
Proof.
  repeat split. intros r Hr. by rewrite lookup_put_room, decide_False.
Qed.

(** C3, as the code has it.  Take an existing room whose [maxPlayers] is a
    finite number (in particular one in 2..4) and an authenticated caller.
    If the caller is not seated in the room, the join is refused with 400
    "room full or started" exactly when the room is started or already
    holds [maxPlayers] players or more, and the store is then unchanged;
    otherwise the join is answered 200 and the room as stored afterwards
    has the old seats followed by a seat for the caller with
    [connected = true] and a revision one higher, its other fields, the
    other rooms, the users, the sessions and the history being as before;
    the answer shows that room.  If the caller is already seated, the join
    is accepted whatever the room's state. *)
Theorem join_refused_iff_full db a rid user room q :
  authUser db a = Some user →
  Db.rooms db !! rid = Some room →
  Room.maxPlayers room = Fin q →
  let full :=
    Room.started room = true ∨
    (q <= inject_Z (Z.of_nat (length (Room.players room))))%Q in
  (list_find (λ p, Seat.id p = User.id user) (Room.players room) = None →
     (code (fst (join db a rid)) = 400 ↔ full) ∧
     (full →
        join db a rid = (json 400 (Error "room full or started"), db)) ∧
     (¬ full →
        code (fst (join db a rid)) = 200 ∧
        same_but_room rid db (snd (join db a rid)) ∧
        ∃ room',
          Db.rooms (snd (join db a rid)) !! rid = Some room' ∧
          Room.players room' =
            Room.players room
            ++ [Seat.mk (User.id user) (User.username user) true] ∧
          Room.revision room' = Room.revision room + 1 ∧
          Room.started room' = false ∧
          Room.maxPlayers room' = Fin q ∧
          Room.hostId room' = Room.hostId room ∧
          Room.state room' = Room.state room ∧
          body (fst (join db a rid))
            = RoomBody (sanitizeRoom (Some room') (User.id user)))) ∧
  (∀ i seat,
     list_find (λ p, Seat.id p = User.id user) (Room.players room)
       = Some (i, seat) →
     code (fst (join db a rid)) = 200).
Proof.
  intros Hauth Hroom Hmax full. split.
  - intros Hseat. unfold join. rewrite Hauth, Hroom, Hseat, Hmax.
    destruct (Room.started room) eqn:Hst; cbn [orb].
    + assert (full) as Hfull by (left; done).
      split; [done|]. split; [done|]. intros Hn. by destruct Hn.
    + destruct (num_ge _ _) eqn:Hge.
      * assert (full) as Hfull by (right; by apply num_ge_of_nat).
        split; [done|]. split; [done|]. intros Hn. by destruct Hn.
      * assert (¬ full) as Hfull.
        { intros [Hs|Hq]; [done|].
          apply num_ge_of_nat in Hq. congruence. }
        split; [|split; [done|]].
        -- cbn [fst code]. split; [lia|done].
        -- intros _. cbn [fst snd code body].
           split; [done|]. split; [apply put_room_frame|].
           eexists. rewrite lookup_put_room, decide_True by done.
           split; [done|].
           cbn [bump set_players set_connected Room.players Room.revision
                  Room.started Room.maxPlayers Room.hostId Room.state
                  Seat.id Seat.username].
           by repeat split.
  - intros i seat Hseat. unfold join. by rewrite Hauth, Hroom, Hseat.
Qed.

(** C3 as stated is false: bob is seated in a started room of capacity 4;
    his join is answered 200, not 400, although the room is started. *)
Lemma join_by_seated_player_of_started_room :
  Room.maxPlayers (Demo.room Demo.two true) = Fin (4 # 1) ∧
  authUser (Demo.db (Demo.room Demo.two true)) "Bearer tb" = Some Demo.bob ∧
  ¬ (code (fst (join (Demo.db (Demo.room Demo.two true))
                  "Bearer tb" "r0000001")) = 400 ↔
     Room.started (Demo.room Demo.two true) = true ∨
     (4 # 1 <= inject_Z (Z.of_nat
                 (length (Room.players (Demo.room Demo.two true)))))%Q).
Proof.
  split; [reflexivity|]. split; [vm_compute; reflexivity|].
  intros [_ Hfull].
  assert (code (fst (join (Demo.db (Demo.room Demo.two true))
                       "Bearer tb" "r0000001")) = 200) as Hok
    by (vm_compute; reflexivity).
  rewrite Hfull in Hok by (left; reflexivity). discriminate.
Qed.

(** ** Start *)

(** C4, as the code has it.  For an existing room and an authenticated
    caller, start is answered 403 when the caller is not the host, 400 when
    the caller is the host and the room has fewer than 2 or more than 4
    players, and is accepted otherwise, whether or not the room is already
    started.  On success the room as stored afterwards has [started] true,
    a revision one higher, the same players, and as [state] the supplied
    initial state if that is truthy and [null] if it is absent or falsy
    ([state || null]); its other fields, the other rooms, the users, the
    sessions and the history are as before, and the answer shows that
    room. *)
Theorem start_iff_host_and_count db a rid user room state :
  authUser db a = Some user →
  Db.rooms db !! rid = Some room →
  let n := length (Room.players room) in
  (code (fst (start db a rid state)) = 200 ↔
     Room.hostId room = User.id user ∧ (2 ≤ n ≤ 4)%nat) ∧
  (Room.hostId room ≠ User.id user →
     start db a rid state = (json 403 (Error "host only"), db)) ∧
  (Room.hostId room = User.id user → ¬ (2 ≤ n ≤ 4)%nat →
     start db a rid state = (json 400 (Error "need 2-4 players"), db)) ∧
  (Room.hostId room = User.id user → (2 ≤ n ≤ 4)%nat →
     same_but_room rid db (snd (start db a rid state)) ∧
     ∃ room',
       Db.rooms (snd (start db a rid state)) !! rid = Some room' ∧
       Room.started room' = true ∧
       Room.state room' = (if truthy state then state else VNull) ∧
       Room.revision room' = Room.revision room + 1 ∧
       Room.players room' = Room.players room ∧
       Room.hostId room' = Room.hostId room ∧
       Room.maxPlayers room' = Room.maxPlayers room ∧
       body (fst (start db a rid state))
         = RoomBody (sanitizeRoom (Some room') (User.id user))).
Proof.
  intros Hauth Hroom n. unfold start. rewrite Hauth, Hroom.
  fold n.
  destruct (String.eqb_spec (Room.hostId room) (User.id user)) as [Hh|Hh];
    cbn [negb].
  - destruct (n <? 2)%nat eqn:H2; cbn [orb];
      [apply Nat.ltb_lt in H2|apply Nat.ltb_ge in H2].
    2: destruct (4 <? n)%nat eqn:H4;
      [apply Nat.ltb_lt in H4|apply Nat.ltb_ge in H4].
    all: split; [split; intros; cbn [fst code] in *; simplify_eq;
                 try done; try lia|].
    all: split; [done|]. all: split; [intros; try done; exfalso; lia|].
    all: intros _ Hn; try (exfalso; lia).
    cbn [fst snd body]. split; [apply put_room_frame|].
    eexists. rewrite lookup_put_room, decide_True by done.
    split; [done|].
    cbn [bump set_state set_started Room.started Room.state Room.revision
           Room.players Room.hostId Room.maxPlayers].
    by repeat split.
  - split; [split; intros Hc; cbn [fst code] in *; [lia|by destruct Hc]|].
    split; [done|]. split; by intros.
Qed.

(** C4 as stated is false: the host starts a two-player room with initial
    state 0; the start is accepted and the room's state is [null], not 0. *)
Lemma start_with_falsy_state_stores_null :
  code (fst (start (Demo.db (Demo.room Demo.two false)) "Bearer ta"
               "r0000001" (VNum (of_Z 0)))) = 200 ∧
  Room.state <$>
    Db.rooms (snd (start (Demo.db (Demo.room Demo.two false)) "Bearer ta"
                     "r0000001" (VNum (of_Z 0)))) !! "r0000001"
    = Some VNull ∧
  Room.state <$>
    Db.rooms (snd (start (Demo.db (Demo.room Demo.two false)) "Bearer ta"
                     "r0000001" (VNum (of_Z 0)))) !! "r0000001"
    ≠ Some (VNum (of_Z 0)).
Proof.
  split; [vm_compute; reflexivity|].
  split; [vm_compute; reflexivity|].
  vm_compute. discriminate.
Qed.

(** ** State updates *)

Lemma update_plain e db a rid state w user room :
  authUser db a = Some user →
  Db.rooms db !! rid = Some room →
  existsb (λ p, String.eqb (Seat.id p) (User.id user)) (Room.players room)
    = true →
  truthy w && Room.started room = false ∨
  list_find (λ p, Is_true (strict_equals (Seat.id p) w)) (Room.players room)
    = None →
  update e db a rid state w =
    (json 200 (OkBody (Room.revision room + 1)),
     put_room db rid (bump (set_state room state))).
Proof.
  intros Hauth Hroom Hin Hopen. unfold update.
  rewrite Hauth, Hroom, Hin.
  cbn [negb Room.started Room.players bump set_state].
  destruct Hopen as [->| ->]; [done|]. by destruct (_ && _).
Qed.

Lemma update_settles e db a rid state w user room j winner :
  authUser db a = Some user →
  Db.rooms db !! rid = Some room →
  existsb (λ p, String.eqb (Seat.id p) (User.id user)) (Room.players room)
    = true →
  truthy w = true →
  Room.started room = true →
  list_find (λ p, Is_true (strict_equals (Seat.id p) w)) (Room.players room)
    = Some (j, winner) →
  update e db a rid state w =
    (json 200 (OkBody (Room.revision room + 1)),
     Db.mk (aggregate (Room.players room) winner (Db.users db))
       (Db.sessions db)
       (<[rid := set_started (bump (set_state room state)) false]>
          (Db.rooms db))
       (Db.history db
        ++ [Match.mk (uuid e) rid (map Seat.username (Room.players room))
              (Seat.username winner) (now e)])).
Proof.
  intros Hauth Hroom Hin Hw Hst Hwin. unfold update.
  rewrite Hauth, Hroom, Hin. cbn [negb Room.started Room.players bump set_state].
  by rewrite Hw, Hst, Hwin.
Qed.

(** A state update of a room that is not started touches neither the users
    nor the history, whoever sends it and whatever it carries. *)
Lemma update_of_open_room e db a rid state w room :
  Db.rooms db !! rid = Some room →
  Room.started room = false →
  Db.history (snd (update e db a rid state w)) = Db.history db ∧
  Db.users (snd (update e db a rid state w)) = Db.users db.
Proof.
  intros Hroom Hst. unfold update. rewrite Hroom.
  cbn [Room.started bump set_state]. rewrite Hst, andb_false_r.
  by repeat case_match.
Qed.

(** C6.  Let a seated caller send a state update.
    (1) If the room is not started, the update is accepted whatever
    [reportWinnerId] it carries and answered with the new revision: the
    room as stored afterwards has the new [state] and a revision one
    higher, [started] still false and the same players, and nothing else
    in the store changes, so no statistics move and the history is as
    before.
    (2) If the room is started and [reportWinnerId] names a seated player,
    exactly one history entry is appended; the room is then open, and
    sending the same report again (at any later time) appends no entry and
    moves no statistics. *)
Theorem winner_report_on_open_room_is_ignored e db a rid state w user room :
  authUser db a = Some user →
  Db.rooms db !! rid = Some room →
  existsb (λ p, String.eqb (Seat.id p) (User.id user)) (Room.players room)
    = true →
  (Room.started room = false →
     fst (update e db a rid state w)
       = json 200 (OkBody (Room.revision room + 1)) ∧
     (∃ room',
        Db.rooms (snd (update e db a rid state w)) !! rid = Some room' ∧
        Room.state room' = state ∧
        Room.revision room' = Room.revision room + 1 ∧
        Room.started room' = false ∧
        Room.players room' = Room.players room) ∧
     same_but_room rid db (snd (update e db a rid state w)) ∧
     Db.users (snd (update e db a rid state w)) = Db.users db ∧
     Db.history (snd (update e db a rid state w)) = Db.history db) ∧
  (∀ j winner,
     Room.started room = true →
     truthy w = true →
     list_find (λ p, Is_true (strict_equals (Seat.id p) w))
       (Room.players room) = Some (j, winner) →
     let db1 := snd (update e db a rid state w) in
     Db.history db1 =
       Db.history db
       ++ [Match.mk (uuid e) rid (map Seat.username (Room.players room))
             (Seat.username winner) (now e)] ∧
     (Room.started <$> Db.rooms db1 !! rid) = Some false ∧
     ∀ e2,
       Db.history (snd (update e2 db1 a rid state w)) = Db.history db1 ∧
       Db.users (snd (update e2 db1 a rid state w)) = Db.users db1).
Proof.
  intros Hauth Hroom Hin. split.
  - intros Hst.
    assert (update e db a rid state w =
              (json 200 (OkBody (Room.revision room + 1)),
               put_room db rid (bump (set_state room state)))) as Hupd.
    { apply (update_plain _ _ _ _ _ _ user); try done.
      left. by rewrite Hst, andb_false_r. }
    rewrite Hupd. cbn [fst snd]. split; [done|]. split.
    + eexists. rewrite lookup_put_room, decide_True by done.
      split; [done|].
      cbn [bump set_state Room.state Room.revision Room.started
             Room.players].
      by repeat split.
    + split; [apply put_room_frame|done].
  - intros j winner Hst Hw Hwin db1. subst db1.
    rewrite (update_settles e db a rid state w user room j winner) by done.
    cbn [snd Db.history Db.rooms]. rewrite lookup_insert_eq.
    split; [done|]. split; [done|]. intros e2.
    eapply update_of_open_room.
    + cbn [Db.rooms]. apply lookup_insert_eq.
    + done.
Qed.

(** ** Room creation *)

Lemma Qlt_bool_true p q : Qlt_bool p q = true ↔ (p < q)%Q.
Proof.
  unfold Qlt_bool. rewrite negb_true_iff.
  split.
  - intros Hle. apply Qnot_le_lt. intros Hq.
    apply Qle_bool_iff in Hq. congruence.
  - intros Hlt. destruct (Qle_bool q p) eqn:Hle; [|done].
    apply Qle_bool_iff in Hle. by apply Qlt_not_le in Hlt.
Qed.

Lemma Qlt_bool_false p q : Qlt_bool p q = false ↔ (q <= p)%Q.
Proof.
  unfold Qlt_bool. rewrite negb_false_iff. apply Qle_bool_iff.
Qed.

(** [Math.max(2, Math.min(4, n))] lies in 2..4 for every [n] but [NaN],
    which it hands through. *)
Lemma clamp_range n :
  match Math_max (of_Z 2) (Math_min (of_Z 4) n) with
  | Fin q => n ≠ NaN ∧ (2 <= q <= 4)%Q
  | NaN => n = NaN
  | Inf _ => False
  end.
Proof.
  destruct n as [|[]|p]; simpl; try done.
  destruct (Qlt_bool p (inject_Z 4)) eqn:H4; simpl.
  - apply Qlt_bool_true in H4.
    destruct (Qlt_bool (inject_Z 2) p) eqn:H2.
    + apply Qlt_bool_true in H2. split; [done|].
      split; by apply Qlt_le_weak.
    + apply Qlt_bool_false in H2. split; [done|].
      split; [apply Qle_refl|done].
  - split; [done|]. split; [done|apply Qle_refl].
Qed.

(** What [create] files: the host alone, seated and connected, not started,
    revision 0, and a capacity that is in 2..4 unless [Number] made [NaN]
    of the argument. *)
Lemma create_room e db a maxPlayers user :
  authUser db a = Some user →
  ∃ room,
    code (fst (create e db a maxPlayers)) = 200 ∧
    Db.rooms (snd (create e db a maxPlayers))
      !! String.substring 0 8 (uuid e) = Some room ∧
    Room.hostId room = User.id user ∧
    Room.players room = [Seat.mk (User.id user) (User.username user) true] ∧
    Room.started room = false ∧
    Room.revision room = 0 ∧
    match Room.maxPlayers room with
    | Fin q => (2 <= q <= 4)%Q
    | NaN => Number (or_else maxPlayers (VNum (of_Z 4))) = NaN
    | Inf _ => False
    end.
Proof.
  intros Hauth. unfold create. rewrite Hauth. cbn [fst snd code].
  eexists. rewrite lookup_put_room, decide_True by done.
  repeat split. cbn [Room.maxPlayers].
  pose proof (clamp_range (Number (or_else maxPlayers (VNum (of_Z 4)))))
    as Hc.
  destruct (Math_max _ _); [done| done |by destruct Hc].
Qed.

(** C8, at the failing input.  Creating a room with [maxPlayers: "abc"] is
    accepted and files a room whose [maxPlayers] is [NaN], which is not a
    number in 2..4. *)
Theorem create_with_non_numeric_maxPlayers e db a user :
  authUser db a = Some user →
  ∃ room,
    code (fst (create e db a (VStr "abc"))) = 200 ∧
    Db.rooms (snd (create e db a (VStr "abc")))
      !! String.substring 0 8 (uuid e) = Some room ∧
    Room.maxPlayers room = NaN.
Proof.
  intros Hauth. unfold create. rewrite Hauth. cbn [fst snd code].
  eexists. rewrite lookup_put_room, decide_True by done.
  repeat split.
Qed.

(** ** The [connected] flag *)

Lemma no_disconnect_refl ps : no_disconnect ps ps.
Proof. intros k p Hk Hc. by exists p. Qed.

Lemma no_disconnect_insert ps i seat :
  ps !! i = Some seat → no_disconnect ps (<[i := set_connected seat]> ps).
Proof.
  intros Hi k p' Hk Hc. destruct (decide (i = k)) as [->|Hne].
  - rewrite list_lookup_insert_eq in Hk by (by eapply lookup_lt_Some).
    by simplify_eq.
  - rewrite list_lookup_insert_ne in Hk by done. by exists p'.
Qed.

Lemma no_disconnect_push ps seat :
  Seat.connected seat = true → no_disconnect ps (ps ++ [seat]).
Proof.
  intros Hseat k p' Hk Hc.
  apply lookup_app_Some in Hk as [Hk|[_ Hk]].
  - by exists p'.
  - apply list_lookup_singleton_Some in Hk as [_ ->]. congruence.
Qed.

Lemma server_no_disconnect e db req rid room' :
  Db.rooms (snd (server e db req)) !! rid = Some room' →
  (∃ room, Db.rooms db !! rid = Some room ∧
           no_disconnect (Room.players room) (Room.players room')) ∨
  (Db.rooms db !! rid = None ∨ created_id e req = Some rid) ∧
  Forall (λ p, Seat.connected p = true) (Room.players room').
Proof.
  destruct req as [a mp|a r|a r st|a r st w|a r];
    cbn [server created_id].
  - unfold create. case_match; cbn [snd].
    + rewrite lookup_put_room. cbn [Room.id]. case_decide.
      * intros [= <-]. right. split; [right; by f_equal|].
        by repeat constructor.
      * intros Hr. left. exists room'. split; [done|].
        apply no_disconnect_refl.
    + intros Hr. left. exists room'. split; [done|].
      apply no_disconnect_refl.
  - unfold join.
    repeat (case_match; cbn [snd]; simplify_eq);
      try (intros Hr; left; exists room'; split;
           [done|apply no_disconnect_refl]).
    all: rewrite lookup_put_room; case_decide; simplify_eq;
      try (intros Hr; left; exists room'; split;
           [done|apply no_disconnect_refl]).
    all: intros [= <-]; left; eexists; split; [done|]; simpl.
    + apply no_disconnect_insert.
      match goal with H : list_find _ _ = Some _ |- _ =>
        by apply list_find_Some in H as (Hi & _ & _) end.
    + by apply no_disconnect_push.
  - unfold start.
    repeat (case_match; cbn [snd]; simplify_eq);
      try (intros Hr; left; exists room'; split;
           [done|apply no_disconnect_refl]).
    rewrite lookup_put_room; case_decide; simplify_eq;
      try (intros Hr; left; exists room'; split;
           [done|apply no_disconnect_refl]).
    intros [= <-]; left; eexists; split; [done|]; simpl.
    apply no_disconnect_refl.
  - unfold update.
    repeat (case_match; cbn [snd Db.rooms]; simplify_eq);
      try (intros Hr; left; exists room'; split;
           [done|apply no_disconnect_refl]).
    all: unfold put_room, set_rooms; cbn [Db.rooms];
      rewrite lookup_insert; case_decide; simplify_eq;
      try (intros Hr; left; exists room'; split;
           [done|apply no_disconnect_refl]).
    all: intros [= <-]; left; eexists; split; [done|]; simpl;
      apply no_disconnect_refl.
  - unfold read.
    repeat (case_match; cbn [snd]; simplify_eq);
      try (intros Hr; left; exists room'; split;
           [done|apply no_disconnect_refl]).
    rewrite lookup_put_room; case_decide; simplify_eq;
      try (intros Hr; left; exists room'; split;
           [done|apply no_disconnect_refl]).
    intros [= <-]; left; eexists; split; [done|]; simpl.
    apply no_disconnect_insert.
    match goal with H : list_find _ _ = Some _ |- _ =>
      by apply list_find_Some in H as (Hi & _ & _) end.
Qed.

(** One request keeps every seat connected. *)
Lemma server_all_connected e db req :
  all_connected db → all_connected (snd (server e db req)).
Proof.
  intros Hdb rid room' p' Hroom' Hp'.
  destruct (server_no_disconnect e db req rid room' Hroom')
    as [(room & Hroom & Hnd)|[_ Hall]].
  - apply list_elem_of_lookup in Hp' as [k Hk].
    destruct (Seat.connected p') eqn:Hc; [done|].
    destruct (Hnd k p' Hk Hc) as (p & Hp & Hpc & _).
    rewrite <- Hpc. eapply Hdb; [done|]. by eapply list_elem_of_lookup_2.
  - rewrite Forall_forall in Hall. by apply Hall.
Qed.

(** In a store reached from one whose seats are all connected (the empty
    store, for one) every seat is connected. *)
Lemma serve_all_connected reqs :
  ∀ db, all_connected db → all_connected (serve db reqs).
Proof.
  induction reqs as [|[e req] reqs IH]; intros db Hdb; [done|].
  cbn [serve]. by apply IH, server_all_connected.
Qed.

(** ** Statistics *)

Lemma named_cons name op ops :
  named name (op :: ops) =
  (if decide (Seat.username op = name) then 1 else 0) + named name ops.
Proof.
  unfold named. rewrite filter_cons. case_decide; simpl; lia.
Qed.

Lemma named_nonneg name ops : 0 <= named name ops.
Proof. unfold named. lia. Qed.

Lemma fold_versus_totals won ops :
  ∀ s, Stats.wins (fold_left (versus won) ops s) = Stats.wins s ∧
       Stats.losses (fold_left (versus won) ops s) = Stats.losses s.
Proof.
  induction ops as [|op ops IH]; intros s; simpl; [done|].
  destruct (IH (versus won s op)) as [-> ->].
  unfold versus. by repeat case_match.
Qed.

Lemma versus_vs won s op name :
  inherited (Seat.username op) = false →
  Stats.vs (versus won s op) !! name =
  if decide (Seat.username op = name)
  then Some (add_versus won 1
               (default (Versus.mk 0 0) (Stats.vs s !! name)))
  else Stats.vs s !! name.
Proof.
  intros Hown. unfold versus. rewrite Hown.
  destruct (Stats.vs s !! Seat.username op) as [r|] eqn:Hr;
    cbn [Stats.vs]; case_decide as Hn.
  - subst name. rewrite lookup_insert_eq, Hr. by destruct won.
  - by rewrite lookup_insert_ne.
  - subst name. rewrite lookup_insert_eq, Hr. by destruct won.
  - by rewrite lookup_insert_ne.
Qed.

(** Under an inherited name nothing is filed unless an entry is there. *)
Lemma versus_inherited won s op :
  inherited (Seat.username op) = true →
  Stats.vs s !! Seat.username op = None →
  versus won s op = s.
Proof. intros Hin Hnone. unfold versus. by rewrite Hnone, Hin. Qed.

Lemma fold_versus_vs won ops name :
  Forall (λ op, inherited (Seat.username op) = false) ops →
  ∀ s, Stats.vs (fold_left (versus won) ops s) !! name =
       if decide (named name ops = 0) then Stats.vs s !! name
       else Some (add_versus won (named name ops)
                    (default (Versus.mk 0 0) (Stats.vs s !! name))).
Proof.
  induction ops as [|op ops IH]; intros Hown s; [done|].
  apply Forall_cons in Hown as [Hop Hown].
  cbn [fold_left]. rewrite IH, named_cons, versus_vs by done.
  pose proof (named_nonneg name ops) as Hc.
  destruct (decide (Seat.username op = name)) as [Hn|Hn].
  - cbn [default]. rewrite (decide_False (P := 1 + _ = 0)) by lia.
    case_decide as Hz.
    + by rewrite Hz, Z.add_0_r.
    + f_equal. destruct won; unfold add_versus; simpl; f_equal; lia.
  - by rewrite Z.add_0_l.
Qed.

Lemma credit_ids players winner users p :
  map User.id (credit players winner users p) = map User.id users.
Proof.
  unfold credit.
  destruct (list_find _ users) as [[i u]|] eqn:Hfind; [|done].
  apply list_find_Some in Hfind as (Hi & _ & _).
  rewrite list_fmap_insert. apply list_insert_id.
  by rewrite list_lookup_fmap, Hi.
Qed.

Lemma find_user_ids (us us' : list User.t) k :
  map User.id us = map User.id us' →
  fst <$> list_find (λ x, User.id x = k) us =
  fst <$> list_find (λ x, User.id x = k) us'.
Proof.
  revert us'. induction us as [|u us IH]; intros [|u' us'] Hids;
    simplify_eq/=; [done|].
  repeat case_decide; try congruence; try done.
  rewrite <- !option_fmap_compose.
  specialize (IH us' ltac:(done)).
  destruct (list_find _ us) as [[]|], (list_find _ us') as [[]|];
    simplify_eq/=; done.
Qed.

Lemma find_user_lookup (us : list User.t) k i u :
  fst <$> list_find (λ x, User.id x = k) us = Some i →
  us !! i = Some u →
  list_find (λ x, User.id x = k) us = Some (i, u).
Proof.
  intros Hfind Hi.
  destruct (list_find _ us) as [[j u']|] eqn:Hf; simplify_eq/=.
  apply list_find_Some in Hf as (Hj & _ & _). congruence.
Qed.

Lemma credit_hit players winner users p i u :
  list_find (λ x, User.id x = Seat.id p) users = Some (i, u) →
  credit players winner users p !! i
    = Some (set_stats u (credited players winner p u)).
Proof.
  intros Hfind. unfold credit. rewrite Hfind.
  apply list_find_Some in Hfind as (Hi & _ & _).
  apply list_lookup_insert_eq. by eapply lookup_lt_Some.
Qed.

Lemma credit_miss players winner users p i :
  fst <$> list_find (λ x, User.id x = Seat.id p) users ≠ Some i →
  credit players winner users p !! i = users !! i.
Proof.
  intros Hfind. unfold credit.
  destruct (list_find _ users) as [[j u]|]; [|done].
  apply list_lookup_insert_ne. naive_solver.
Qed.

Lemma credits_miss players winner qs :
  ∀ users i,
    (∀ q, q ∈ qs →
       fst <$> list_find (λ x, User.id x = Seat.id q) users ≠ Some i) →
    fold_left (credit players winner) qs users !! i = users !! i.
Proof.
  induction qs as [|q qs IH]; intros users i Hmiss; [done|].
  cbn [fold_left]. rewrite IH.
  - apply credit_miss, Hmiss. left.
  - intros q' Hq'.
    rewrite (find_user_ids _ users) by apply credit_ids.
    apply Hmiss. by right.
Qed.

Lemma credits_hit players winner qs :
  ∀ users p i u,
    NoDup (map Seat.id qs) →
    p ∈ qs →
    list_find (λ x, User.id x = Seat.id p) users = Some (i, u) →
    fold_left (credit players winner) qs users !! i
      = Some (set_stats u (credited players winner p u)).
Proof.
  induction qs as [|q qs IH]; intros users p i u Hnd Hp Hfind.
  { by apply elem_of_nil in Hp. }
  cbn [map] in Hnd. apply NoDup_cons in Hnd as [Hq Hnd].
  pose proof Hfind as (Hi & Hid & _)%list_find_Some.
  cbn [fold_left].
  apply elem_of_cons in Hp as [->|Hp].
  - rewrite credits_miss; [by apply credit_hit|].
    intros q' Hq'.
    rewrite (find_user_ids _ users) by apply credit_ids.
    intros Hq'i.
    destruct (list_find (λ x, User.id x = Seat.id q') users)
      as [[j u']|] eqn:Hf; simplify_eq/=.
    apply list_find_Some in Hf as (Hj & Hid' & _).
    apply Hq. apply list_elem_of_fmap. exists q'. split; [|done]. congruence.
  - assert (Seat.id p ≠ Seat.id q) as Hne.
    { intros Heq. apply Hq. apply list_elem_of_fmap. by exists p. }
    apply IH; try done.
    apply find_user_lookup.
    + rewrite (find_user_ids _ users) by apply credit_ids.
      by rewrite Hfind.
    + rewrite credit_miss; [done|].
      intros Hqi.
      destruct (list_find (λ x, User.id x = Seat.id q) users)
        as [[j u']|] eqn:Hf; simplify_eq/=.
      apply list_find_Some in Hf as (Hj & Hid' & _). congruence.
Qed.

Lemma aggregate_length players winner users :
  length (aggregate players winner users) = length users.
Proof.
  unfold aggregate.
  assert (∀ qs us, map User.id (fold_left (credit players winner) qs us)
                   = map User.id us) as Hids.
  { induction qs as [|q qs IH]; intros us; [done|].
    cbn [fold_left]. by rewrite IH, credit_ids. }
  rewrite <- (length_map User.id), Hids. apply length_map.
Qed.

Lemma named_once (ops : list Seat.t) op :
  op ∈ ops → 1 <= named (Seat.username op) ops.
Proof.
  intros Hop. unfold named.
  assert (op ∈ filter (λ o, Seat.username o = Seat.username op) ops) as Hin
    by (by apply list_elem_of_filter).
  destruct (filter _ ops); [by apply elem_of_nil in Hin|simpl; lia].
Qed.

Lemma named_at_most_once (ops : list Seat.t) name :
  NoDup (map Seat.username ops) → named name ops <= 1.
Proof.
  unfold named. induction ops as [|o ops IH]; intros Hnd; [simpl; lia|].
  cbn [map] in Hnd. apply NoDup_cons in Hnd as [Ho Hnd].
  rewrite filter_cons. case_decide as Hn; [|by apply IH].
  assert (filter (λ op, Seat.username op = name) ops = []) as ->; [|simpl; lia].
  destruct (filter _ ops) as [|x xs] eqn:Hf; [done|].
  assert (x ∈ filter (λ op, Seat.username op = name) ops) as Hx
    by (rewrite Hf; left).
  apply list_elem_of_filter in Hx as [Hxn Hx].
  destruct Ho. apply list_elem_of_fmap. exists x. split; [congruence|done].
Qed.

Lemma usernames_of_others (players : list Seat.t) p :
  NoDup (map Seat.username players) →
  NoDup (map Seat.username (filter (λ op, Seat.id op ≠ Seat.id p) players)).
Proof.
  induction players as [|o ps IH]; intros Hnd; [constructor|].
  cbn [map] in Hnd. apply NoDup_cons in Hnd as [Ho Hnd].
  rewrite filter_cons. case_decide; [|by apply IH].
  cbn [map]. apply NoDup_cons. split; [|by apply IH].
  intros Hin. apply Ho.
  apply list_elem_of_fmap in Hin as (x & Hx & Hin).
  apply list_elem_of_filter in Hin as [_ Hin].
  apply list_elem_of_fmap. by exists x.
Qed.

(** What the winner branch does when no seated player carries an
    inherited name.  A seated caller reports a winner for a started room
    whose seats belong to distinct users, and the report names a seated
    player.  Then the room is no longer started, and for every seated
    player [p] whose user record [u] is found (a player without a record is
    skipped, and records of users who are not seated are untouched) the
    record at the same place afterwards has the same identifier, name,
    salt and hash, and statistics [s] such that, a record without
    statistics counting as 0/0 with no entries:
    - [wins] is one higher if [p] is the winner, and otherwise [losses] is
      one higher;
    - for every other seated player [op], the entry [vs[op.username]]
      exists, and its [wins] (if [p] is the winner) or else its [losses]
      has grown by the number of other seated players called
      [op.username], which is 1 when user names are distinct; the other
      counter of the entry is unchanged, and a missing entry counts as
      0/0;
    - entries of [vs] under names no other seated player carries are
      unchanged. *)
Theorem winner_report_credits_everyone
    e db a rid state w user room j winner :
  authUser db a = Some user →
  Db.rooms db !! rid = Some room →
  existsb (λ p, String.eqb (Seat.id p) (User.id user)) (Room.players room)
    = true →
  truthy w = true →
  Room.started room = true →
  list_find (λ p, Is_true (strict_equals (Seat.id p) w)) (Room.players room)
    = Some (j, winner) →
  NoDup (map Seat.id (Room.players room)) →
  (∀ p, p ∈ Room.players room → inherited (Seat.username p) = false) →
  let players := Room.players room in
  let db' := snd (update e db a rid state w) in
  Room.started <$> Db.rooms db' !! rid = Some false ∧
  length (Db.users db') = length (Db.users db) ∧
  (∀ i,
     (∀ p, p ∈ players →
        fst <$> list_find (λ x, User.id x = Seat.id p) (Db.users db)
          ≠ Some i) →
     Db.users db' !! i = Db.users db !! i) ∧
  (∀ p i u,
     p ∈ players →
     list_find (λ x, User.id x = Seat.id p) (Db.users db) = Some (i, u) →
     let won := bool_decide (Seat.id p = Seat.id winner) in
     let old := default (Stats.mk 0 0 ∅) (User.stats u) in
     let ops := filter (λ op, Seat.id op ≠ Seat.id p) players in
     ∃ u' s,
       Db.users db' !! i = Some u' ∧
       User.id u' = User.id u ∧ User.username u' = User.username u ∧
       User.salt u' = User.salt u ∧ User.hash u' = User.hash u ∧
       User.stats u' = Some s ∧
       Stats.wins s = Stats.wins old + (if won then 1 else 0) ∧
       Stats.losses s = Stats.losses old + (if won then 0 else 1) ∧
       (∀ op, op ∈ players → Seat.id op ≠ Seat.id p →
          1 <= named (Seat.username op) ops ∧
          (NoDup (map Seat.username players) →
             named (Seat.username op) ops = 1) ∧
          Stats.vs s !! Seat.username op =
            Some (add_versus won (named (Seat.username op) ops)
                    (default (Versus.mk 0 0)
                       (Stats.vs old !! Seat.username op)))) ∧
       (∀ name, named name ops = 0 →
          Stats.vs s !! name = Stats.vs old !! name)).
Proof.
  intros Hauth Hroom Hin Hw Hst Hwin Hnd Hown players db'. subst db'.
  rewrite (update_settles e db a rid state w user room j winner) by done.
  cbn [snd Db.users Db.rooms]. rewrite lookup_insert_eq.
  split; [done|]. split; [apply aggregate_length|].
  split; [intros i Hmiss; by apply credits_miss|].
  intros p i u Hp Hfind.
  exists (set_stats u (credited players winner p u)),
    (credited players winner p u).
  split; [by apply credits_hit|].
  do 5 (split; [reflexivity|]).
  unfold credited, ensureStats.
  set (won := bool_decide (Seat.id p = Seat.id winner)).
  set (old := default (Stats.mk 0 0 ∅) (User.stats u)).
  set (ops := filter (λ op, Seat.id op ≠ Seat.id p) players).
  assert (Forall (λ op, inherited (Seat.username op) = false) ops) as Hops.
  { apply Forall_forall. intros op Hop.
    apply list_elem_of_filter in Hop as [_ Hop]. by apply Hown. }
  destruct (fold_versus_totals won ops (won_or_lost won old)) as [-> ->].
  split; [destruct won; simpl; lia|]. split; [destruct won; simpl; lia|].
  assert (Stats.vs (won_or_lost won old) = Stats.vs old) as Hvs
    by (by destruct won).
  split.
  - intros op Hop Hne.
    assert (op ∈ ops) as Hin' by (by apply list_elem_of_filter).
    pose proof (named_once ops op Hin') as H1.
    split; [done|]. split.
    + intros Hnames.
      pose proof (named_at_most_once ops (Seat.username op)
                    (usernames_of_others players p Hnames)). lia.
    + rewrite fold_versus_vs, Hvs by done. rewrite decide_False by lia. done.
  - intros name Hz. rewrite fold_versus_vs, Hvs by done.
    by rewrite decide_True.
Qed.

(** C5, at the failing input.  Two users have registered as "toString"
    and "bob" and play a match, and bob is reported as the winner.  The
    report is accepted and one history entry is written; bob has one win
    and toString one loss, and toString's [vs] has the entry for "bob"
    with one loss.  But bob's [vs] has no entry for "toString", where the
    claim has one with [wins = 1]: [stats.vs["toString"]] finds the method
    every object inherits, so [||=] files nothing and the increment is
    lost on that method. *)
Theorem winner_report_against_inherited_name :
  (λ u, (User.username u,
         (λ s, (Stats.wins s, Stats.losses s,
                Stats.vs s !! "toString", Stats.vs s !! "bob"))
           <$> User.stats u))
    <$> Db.users (session Tour.hash Tour.lowered defaultDb
                    Tour.inherited_name)
  = [("toString", Some (0, 1, None, Some (Versus.mk 0 1)));
     ("bob", Some (1, 0, None, None))] ∧
  (λ m, (Match.players m, Match.winner m))
    <$> Db.history (session Tour.hash Tour.lowered defaultDb
                      Tour.inherited_name)
  = [(["toString"; "bob"], "bob")].
Proof. split; vm_compute; reflexivity. Qed.

(** ** The state payload *)

Lemma value_induction (P : value → Prop) :
  P VUndefined → P VNull → (∀ b, P (VBool b)) → (∀ n, P (VNum n)) →
  (∀ s, P (VStr s)) →
  (∀ items, Forall P items → P (VArr items)) →
  (∀ props, Forall (λ kx, P (snd kx)) props → P (VObj props)) →
  ∀ v, P v.
Proof.
  intros Hu Hn Hb Hnum Hs Ha Ho.
  fix IH 1.
  intros [ | |b|n|s|items|props];
    [exact Hu|exact Hn|apply Hb|apply Hnum|apply Hs| | ].
  - apply Ha. induction items as [|x xs IHxs]; constructor.
    + apply IH.
    + apply IHxs.
  - apply Ho. induction props as [|[k x] ps IHps]; constructor.
    + apply IH.
    + apply IHps.
Qed.

(** A payload as [JSON.parse] delivers it survives
    [JSON.parse(JSON.stringify(_))] unchanged. *)
Lemma jsonify_is_json v : is_json v = true → jsonify v = v.
Proof.
  induction v as [ | |b|n|s|items IH|props IH] using value_induction;
    try done.
  - by destruct n.
  - cbn [is_json jsonify]. intros Hall. f_equal.
    induction IH as [|x xs Hx _ IHxs]; [done|].
    cbn [forallb map] in *. apply andb_true_iff in Hall as [Hjx Hxs].
    rewrite IHxs by done. f_equal.
    rewrite Hx by done. by destruct x.
  - cbn [is_json jsonify]. intros Hall. f_equal.
    induction IH as [|[k x] ps Hx _ IHps]; [done|].
    cbn [forallb flat_map snd] in *.
    apply andb_true_iff in Hall as [Hjx Hps].
    rewrite IHps by done.
    rewrite Hx by done. by destruct x.
Qed.

Lemma read_grow n :
  ∀ h v t m h2,
    Heap.read n h v = Some t → (n ≤ m)%nat → h `prefix_of` h2 →
    Heap.read m h2 v = Some t.
Proof.
  induction n as [|n IH]; intros h v t m h2 Hr Hm Hp.
  - destruct v; simplify_eq/=; by destruct m.
  - destruct v as [ | |b|x|s|l]; simplify_eq/=; try by destruct m.
    destruct m as [|m]; [lia|]. cbn [Heap.read].
    destruct (h !! l) as [o|] eqn:Hl; [|done].
    rewrite (prefix_lookup_Some _ _ _ _ Hl Hp).
    destruct o as [items|props].
    + apply fmap_Some in Hr as (ts & Hts & ->).
      apply fmap_Some. exists ts. split; [|done].
      apply mapM_Some. apply mapM_Some in Hts.
      eapply Forall2_impl; [done|]. intros x y Hxy.
      eapply IH; [exact Hxy|lia|done].
    + apply fmap_Some in Hr as (ts & Hts & ->).
      apply fmap_Some. exists ts. split; [|done].
      apply mapM_Some. apply mapM_Some in Hts.
      eapply Forall2_impl; [done|]. intros x y Hxy.
      apply fmap_Some in Hxy as (t' & Ht' & ->).
      by rewrite (IH h _ t' m h2 Ht' ltac:(lia) Hp).
Qed.

Lemma read_truthy n h v t :
  Heap.read n h v = Some t → Heap.truthy v = truthy t.
Proof.
  destruct n, v as [ | |b|x|s|l]; simpl; try by intros [= <-].
  destruct (h !! l) as [[]|]; [| |done];
    intros (ts & _ & ->)%fmap_Some; done.
Qed.

Lemma above_le k k' v : (k ≤ k')%nat → Heap.above k' v → Heap.above k v.
Proof. destruct v; simpl; lia. Qed.

Lemma cells_above_le k k' (new : list Heap.object) :
  (k ≤ k')%nat →
  Forall (λ o, Forall (Heap.above k') (Heap.fields o)) new →
  Forall (λ o, Forall (Heap.above k) (Heap.fields o)) new.
Proof.
  intros Hk Hnew. eapply Forall_impl; [exact Hnew|].
  intros o Ho. eapply Forall_impl; [exact Ho|].
  intros v. by apply above_le.
Qed.

Lemma mapM_read_grow n m (h h2 : list Heap.object) vs ts :
  mapM (Heap.read n h) vs = Some ts → (n ≤ m)%nat → h `prefix_of` h2 →
  mapM (Heap.read m h2) vs = Some ts.
Proof.
  intros Hr Hm Hp. apply mapM_Some. apply mapM_Some in Hr.
  eapply Forall2_impl; [done|]. intros x y Hxy.
  eapply read_grow; [exact Hxy|lia|done].
Qed.

Lemma mapM_read_props_grow n m (h h2 : list Heap.object)
    (ps : list (string * Heap.val)) ts :
  mapM (λ kx, pair (fst kx) <$> Heap.read n h (snd kx)) ps = Some ts →
  (n ≤ m)%nat → h `prefix_of` h2 →
  mapM (λ kx, pair (fst kx) <$> Heap.read m h2 (snd kx)) ps = Some ts.
Proof.
  intros Hr Hm Hp. apply mapM_Some. apply mapM_Some in Hr.
  eapply Forall2_impl; [done|]. intros x y Hxy.
  apply fmap_Some in Hxy as (t' & Ht' & ->).
  by rewrite (read_grow n h _ t' m h2 Ht' Hm Hp).
Qed.

Lemma thread_alloc_items items :
  Forall alloc_ok items →
  ∀ h, ∃ new,
    snd (thread Heap.alloc items h) = h ++ new ∧
    mapM (Heap.read (S (length new)) (h ++ new))
      (fst (thread Heap.alloc items h)) = Some items ∧
    Forall (Heap.above (length h)) (fst (thread Heap.alloc items h)) ∧
    Forall (λ o, Forall (Heap.above (length h)) (Heap.fields o)) new.
Proof.
  induction 1 as [|x xs Hx _ IH]; intros h.
  - exists []. simpl. by rewrite app_nil_r.
  - cbn [thread].
    destruct (Hx h) as (n1 & H1 & R1 & A1 & C1).
    destruct (Heap.alloc x h) as [v h1]. cbn [fst snd] in *. subst h1.
    destruct (IH (h ++ n1)) as (n2 & H2 & R2 & A2 & C2).
    destruct (thread Heap.alloc xs (h ++ n1)) as [vs h2].
    cbn [fst snd] in *. subst h2.
    rewrite length_app in A2, C2.
    exists (n1 ++ n2). rewrite length_app.
    split; [by rewrite app_assoc|]. split; [|split].
    + cbn [mapM]. rewrite app_assoc.
      rewrite (read_grow _ _ _ _ (S (length n1 + length n2)) ((h ++ n1) ++ n2)
                 R1) by (lia || by apply prefix_app_r).
      rewrite (mapM_read_grow _ (S (length n1 + length n2)) _
                 ((h ++ n1) ++ n2) _ _ R2) by (lia || done).
      done.
    + constructor; [done|].
      eapply Forall_impl; [exact A2|]. intros y. apply above_le. lia.
    + apply Forall_app. split; [done|].
      eapply cells_above_le; [|exact C2]. lia.
Qed.

Lemma thread_alloc_props (props : list (string * value)) :
  Forall (λ kx, alloc_ok (snd kx)) props →
  ∀ h,
    let r :=
      thread (λ '(k, x) h, let '(v, h) := Heap.alloc x h in ((k, v), h))
        props h in
    ∃ new,
      snd r = h ++ new ∧
      mapM (λ kx, pair (fst kx)
                    <$> Heap.read (S (length new)) (h ++ new) (snd kx))
        (fst r) = Some props ∧
      Forall (Heap.above (length h)) (map snd (fst r)) ∧
      Forall (λ o, Forall (Heap.above (length h)) (Heap.fields o)) new.
Proof.
  induction 1 as [|[k x] ps Hx _ IH]; intros h.
  - exists []. simpl. by rewrite app_nil_r.
  - cbn [thread snd] in *.
    destruct (Hx h) as (n1 & H1 & R1 & A1 & C1).
    destruct (Heap.alloc x h) as [v h1]. cbn [fst snd] in *. subst h1.
    destruct (IH (h ++ n1)) as (n2 & H2 & R2 & A2 & C2).
    destruct (thread _ ps (h ++ n1)) as [vs h2].
    cbn [fst snd] in *. subst h2.
    rewrite length_app in A2, C2.
    exists (n1 ++ n2). rewrite length_app.
    split; [by rewrite app_assoc|]. split; [|split].
    + cbn [mapM fst snd]. rewrite app_assoc.
      rewrite (read_grow _ _ _ _ (S (length n1 + length n2)) ((h ++ n1) ++ n2)
                 R1) by (lia || by apply prefix_app_r).
      rewrite (mapM_read_props_grow _ (S (length n1 + length n2)) _
                 ((h ++ n1) ++ n2) _ _ R2) by (lia || done).
      done.
    + cbn [map snd]. constructor; [done|].
      eapply Forall_impl; [exact A2|]. intros y. apply above_le. lia.
    + apply Forall_app. split; [done|].
      eapply cells_above_le; [|exact C2]. lia.
Qed.

Lemma read_ref n (h : list Heap.object) l :
  Heap.read (S n) h (Heap.Ref l) =
  match h !! l with
  | Some (Heap.Arr items) => VArr <$> mapM (Heap.read n h) items
  | Some (Heap.Obj props) =>
      VObj <$> mapM (λ kx, pair (fst kx) <$> Heap.read n h (snd kx)) props
  | None => None
  end.
Proof. reflexivity. Qed.

(** [alloc] builds the tree it is given in fresh objects. *)
Lemma alloc_spec t : alloc_ok t.
Proof.
  induction t as [ | |b|n|s|items IH|props IH] using value_induction;
    try (intros h; exists []; simpl; by rewrite app_nil_r).
  - intros h. cbn [Heap.alloc].
    destruct (thread_alloc_items items IH h) as (new & H1 & R1 & A1 & C1).
    destruct (thread Heap.alloc items h) as [vs h1].
    cbn [fst snd] in *. subst h1.
    exists (new ++ [Heap.Arr vs]).
    rewrite length_app, Nat.add_1_r. rewrite app_assoc.
    split; [done|]. split; [|split].
    + rewrite read_ref, lookup_app_r, Nat.sub_diag by done.
      cbn [lookup list_lookup].
      rewrite (mapM_read_grow _ (S (length new)) _ ((h ++ new) ++ [Heap.Arr vs])
                 _ _ R1) by (lia || by apply prefix_app_r).
      done.
    + simpl. rewrite length_app. lia.
    + apply Forall_app. split; [done|]. by repeat constructor.
  - intros h. cbn [Heap.alloc].
    destruct (thread_alloc_props props IH h) as (new & H1 & R1 & A1 & C1).
    destruct (thread _ props h) as [ps h1].
    cbn [fst snd] in *. subst h1.
    exists (new ++ [Heap.Obj ps]).
    rewrite length_app, Nat.add_1_r. rewrite app_assoc.
    split; [done|]. split; [|split].
    + rewrite read_ref, lookup_app_r, Nat.sub_diag by done.
      cbn [lookup list_lookup].
      rewrite (mapM_read_props_grow _ (S (length new)) _
                 ((h ++ new) ++ [Heap.Obj ps]) _ _ R1)
        by (lia || by apply prefix_app_r).
      done.
    + simpl. rewrite length_app. lia.
    + apply Forall_app. split; [done|]. by repeat constructor.
Qed.

(** From a value above [k], through objects that are above [k] from
    location [k] on, only locations from [k] on are reached. *)
Lemma reach_above k (h : list Heap.object) :
  (∀ l o, (k ≤ l)%nat → h !! l = Some o →
          Forall (Heap.above k) (Heap.fields o)) →
  ∀ n v l, Heap.above k v → l ∈ Heap.reach n h v → (k ≤ l)%nat.
Proof.
  intros Hcells. induction n as [|n IH]; intros v l Hv Hl.
  - destruct v; simpl in *; try by apply elem_of_nil in Hl.
    apply list_elem_of_singleton in Hl. by subst.
  - destruct v as [ | | | | |l0]; simpl in *; try by apply elem_of_nil in Hl.
    apply elem_of_cons in Hl as [->|Hl]; [done|].
    destruct (h !! l0) as [o|] eqn:Ho; [|by apply elem_of_nil in Hl].
    apply list_elem_of_In, in_flat_map in Hl as (v' & Hv' & Hl).
    apply list_elem_of_In in Hv', Hl.
    eapply IH; [|exact Hl].
    pose proof (Hcells l0 o Hv Ho) as Hall.
    rewrite Forall_forall in Hall. by apply Hall.
Qed.

(** [sanitizeRoom]'s copy of a truthy state lives in objects allocated
    after every object of the heap it was taken from, and denotes the state
    as [JSON.stringify] sees it; the state it was taken from reads the same
    whatever is done to the objects allocated after it. *)
Lemma copy_state_fresh (h : list Heap.object) v t :
  Heap.snapshot h v = Some t →
  truthy t = true →
  ∃ v' new,
    Heap.copy_state h v = Some (v', h ++ new) ∧
    Heap.snapshot (h ++ new) v' = Some (jsonify t) ∧
    (∀ n l, l ∈ Heap.reach n (h ++ new) v' → (length h ≤ l)%nat) ∧
    (∀ new', Heap.snapshot (h ++ new') v = Some t).
Proof.
  intros Hsnap Ht.
  destruct (alloc_spec (jsonify t) h) as (new & H1 & R1 & A1 & C1).
  exists (fst (Heap.alloc (jsonify t) h)), new.
  split; [|split; [|split]].
  - unfold Heap.copy_state, Heap.JSON_stringify, Heap.JSON_parse.
    rewrite (read_truthy _ _ _ _ Hsnap), Ht, Hsnap. cbn [fmap option_fmap
      option_map mbind option_bind]. f_equal.
    rewrite <- H1. by destruct (Heap.alloc _ _).
  - unfold Heap.snapshot.
    eapply read_grow; [exact R1| |done]. rewrite length_app. lia.
  - intros n l. apply reach_above; [|done].
    intros l0 o Hl0 Ho.
    rewrite lookup_app_r in Ho by done.
    rewrite Forall_lookup in C1. by eapply C1.
  - intros new'. unfold Heap.snapshot in *.
    eapply read_grow; [exact Hsnap| |by apply prefix_app_r].
    rewrite length_app. lia.
Qed.

Lemma copy_state_falsy (h : list Heap.object) v t :
  Heap.snapshot h v = Some t → truthy t = false →
  Heap.copy_state h v = Some (Heap.Null, h).
Proof.
  intros Hsnap Ht. unfold Heap.copy_state.
  by rewrite (read_truthy _ _ _ _ Hsnap), Ht.
Qed.

Lemma update_accepted_state e db a rid state w :
  code (fst (update e db a rid state w)) = 200 →
  ∃ room',
    Db.rooms (snd (update e db a rid state w)) !! rid = Some room' ∧
    Room.state room' = state.
Proof.
  unfold update, unauthorized, room_not_found.
  repeat (case_match; cbn [fst snd code Db.rooms]; simplify_eq);
    try (by intros ?).
  all: intros _; eexists;
    first [rewrite lookup_insert_eq
          |rewrite lookup_put_room, decide_True by done];
    split; done.
Qed.

Lemma read_view db b rid reader room :
  authUser db b = Some reader →
  Db.rooms db !! rid = Some room →
  ∃ view,
    fst (read db b rid) = json 200 (RoomBody (Some view)) ∧
    View.state view =
      (if truthy (Room.state room) then jsonify (Room.state room)
       else VNull).
Proof.
  intros Hauth Hroom. unfold read. rewrite Hauth, Hroom.
  destruct (list_find _ _) as [[i seat]|]; cbn [fst]; by eexists.
Qed.

(** C7, as the code has it.  After an accepted state update carrying
    [newState], a read of the room by any authenticated caller returns
    - [null] as [state] when [newState] is falsy (absent, [null], [false],
      0, the empty string);
    - otherwise what [JSON.parse(JSON.stringify(newState))] yields, which
      is [newState] itself for every payload made of JSON values with
      finite numbers.
    In the second case the returned state is a deep copy: if [v] is the
    state the server holds in heap [h], the copy consists of objects
    allocated after all objects of [h], it denotes the returned state, and
    [v] still denotes [newState] whatever is done to the objects allocated
    after [h]. *)
Theorem state_round_trip e db a rid newState w b reader :
  code (fst (update e db a rid newState w)) = 200 →
  authUser (snd (update e db a rid newState w)) b = Some reader →
  ∃ view,
    fst (read (snd (update e db a rid newState w)) b rid)
      = json 200 (RoomBody (Some view)) ∧
    (truthy newState = false → View.state view = VNull) ∧
    (truthy newState = true →
       View.state view = jsonify newState ∧
       (is_json newState = true → View.state view = newState) ∧
       ∀ (h : list Heap.object) v,
         Heap.snapshot h v = Some newState →
         ∃ v' new,
           Heap.copy_state h v = Some (v', h ++ new) ∧
           Heap.snapshot (h ++ new) v' = Some (View.state view) ∧
           (∀ n l, l ∈ Heap.reach n (h ++ new) v' → (length h ≤ l)%nat) ∧
           (∀ new', Heap.snapshot (h ++ new') v = Some newState)).
Proof.
  intros Hok Hauth.
  destruct (update_accepted_state _ _ _ _ _ _ Hok) as (room' & Hroom' & Hst).
  destruct (read_view _ b rid reader room' Hauth Hroom')
    as (view & Hread & Hview).
  rewrite Hst in Hview. exists view. split; [done|]. split.
  - intros Hf. by rewrite Hview, Hf.
  - intros Ht. rewrite Hview, Ht. split; [done|]. split.
    + apply jsonify_is_json.
    + intros h v Hsnap. by apply copy_state_fresh.
Qed.

(** C7 as stated is false: bob stores the state 0 in the room; the update
    is accepted, and alice's read of the room returns [null], not 0. *)
Lemma falsy_state_reads_back_null :
  code (fst (update Demo.e1 (Demo.db (Demo.room Demo.two true)) "Bearer tb"
               "r0000001" (VNum (of_Z 0)) VUndefined)) = 200 ∧
  ∃ view,
    fst (read (snd (update Demo.e1 (Demo.db (Demo.room Demo.two true))
                      "Bearer tb" "r0000001" (VNum (of_Z 0)) VUndefined))
           "Bearer ta" "r0000001")
      = json 200 (RoomBody (Some view)) ∧
    View.state view = VNull ∧
    View.state view ≠ VNum (of_Z 0).
Proof.
  split; [vm_compute; reflexivity|].
  eexists. split; [vm_compute; reflexivity|]. split; [reflexivity|].
  discriminate.
Qed.

(** * The properties at work on the example store *)

Lemma revision_counts_accepted_mutations_witness :
  Db.rooms (Demo.db (Demo.room [Demo.seat Demo.alice true] false))
    !! "r0000001" = Some (Demo.room [Demo.seat Demo.alice true] false) ∧
  Forall (λ er, created_id (fst er) (snd er) ≠ Some "r0000001") Demo.trace ∧
  ∃ room',
    Db.rooms (serve (Demo.db (Demo.room [Demo.seat Demo.alice true] false))
                Demo.trace) !! "r0000001" = Some room' ∧
    Room.revision room' =
      Room.revision (Demo.room [Demo.seat Demo.alice true] false)
      + accepted_mutations "r0000001"
          (Demo.db (Demo.room [Demo.seat Demo.alice true] false)) Demo.trace ∧
    Room.revision (Demo.room [Demo.seat Demo.alice true] false)
      <= Room.revision room'.
Proof.
  assert (Db.rooms (Demo.db (Demo.room [Demo.seat Demo.alice true] false))
            !! "r0000001" = Some (Demo.room [Demo.seat Demo.alice true] false))
    as Hroom by (vm_compute; reflexivity).
  assert (Forall (λ er, created_id (fst er) (snd er) ≠ Some "r0000001")
            Demo.trace) as Hfresh
    by (repeat constructor; discriminate).
  split; [exact Hroom|]. split; [exact Hfresh|].
  exact (revision_counts_accepted_mutations _ _ _ _ Hroom Hfresh).
Defined.

Lemma players_stay_distinct_witness :
  db_distinct Demo.lobby ∧
  db_distinct
    (serve Demo.lobby ((Demo.e0, PostRooms "Bearer ta" (VNum (of_Z 3)))
                       :: Demo.trace)) ∧
  ∀ a rid user room i seat,
    authUser (serve Demo.lobby
                ((Demo.e0, PostRooms "Bearer ta" (VNum (of_Z 3)))
                 :: Demo.trace)) a = Some user →
    Db.rooms (serve Demo.lobby
                ((Demo.e0, PostRooms "Bearer ta" (VNum (of_Z 3)))
                 :: Demo.trace)) !! rid = Some room →
    list_find (λ p, Seat.id p = User.id user) (Room.players room)
      = Some (i, seat) →
    ∃ room',
      code (fst (join (serve Demo.lobby
                         ((Demo.e0, PostRooms "Bearer ta" (VNum (of_Z 3)))
                          :: Demo.trace)) a rid)) = 200 ∧
      Db.rooms (snd (join (serve Demo.lobby
                             ((Demo.e0, PostRooms "Bearer ta" (VNum (of_Z 3)))
                              :: Demo.trace)) a rid)) !! rid = Some room' ∧
      Room.players room' !! i
        = Some (Seat.mk (User.id user) (Seat.username seat) true) ∧
      (∀ k, k ≠ i → Room.players room' !! k = Room.players room !! k) ∧
      length (Room.players room') = length (Room.players room) ∧
      map Seat.id (Room.players room') = map Seat.id (Room.players room) ∧
      NoDup (map Seat.id (Room.players room')) ∧
      Room.revision room' = Room.revision room + 1.
Proof.
  assert (db_distinct Demo.lobby) as Hlobby by apply map_Forall_empty.
  split; [exact Hlobby|].
  exact (players_stay_distinct Demo.lobby _ Hlobby).
Defined.

Lemma join_refused_iff_full_witness :
  authUser (Demo.db (Demo.room Demo.two false)) "Bearer tc"
    = Some Demo.carol ∧
  Db.rooms (Demo.db (Demo.room Demo.two false)) !! "r0000001"
    = Some (Demo.room Demo.two false) ∧
  Room.maxPlayers (Demo.room Demo.two false) = Fin (4 # 1) ∧
  code (fst (join (Demo.db (Demo.room Demo.two false)) "Bearer tc"
               "r0000001")) = 200 ∧
  ∃ room',
    Db.rooms (snd (join (Demo.db (Demo.room Demo.two false)) "Bearer tc"
                     "r0000001")) !! "r0000001" = Some room' ∧
    Room.players room' = Demo.three ∧
    Room.revision room' = 1.
Proof.
  assert (authUser (Demo.db (Demo.room Demo.two false)) "Bearer tc"
            = Some Demo.carol) as Hauth by (vm_compute; reflexivity).
  assert (Db.rooms (Demo.db (Demo.room Demo.two false)) !! "r0000001"
            = Some (Demo.room Demo.two false)) as Hroom
    by (vm_compute; reflexivity).
  assert (Room.maxPlayers (Demo.room Demo.two false) = Fin (4 # 1)) as Hmax
    by reflexivity.
  split; [exact Hauth|]. split; [exact Hroom|]. split; [exact Hmax|].
  destruct (join_refused_iff_full _ _ _ _ _ _ Hauth Hroom Hmax)
    as [Hnew _].
  destruct (Hnew ltac:(vm_compute; reflexivity)) as (_ & _ & Hfree).
  assert (¬ (Room.started (Demo.room Demo.two false) = true ∨
             (4 # 1 <= inject_Z (Z.of_nat
                         (length (Room.players
                                    (Demo.room Demo.two false)))))%Q))
    as Hroomy.
  { intros [Hst|Hq]; [discriminate|].
    apply Qle_bool_iff in Hq. vm_compute in Hq. discriminate. }
  destruct (Hfree Hroomy) as (Hcode & _ & room' & Hr & Hps & Hrev & _).
  split; [exact Hcode|]. exists room'.
  split; [exact Hr|]. split; [exact Hps|exact Hrev].
Defined.

Lemma start_iff_host_and_count_witness :
  authUser (Demo.db (Demo.room Demo.two true)) "Bearer ta"
    = Some Demo.alice ∧
  Db.rooms (Demo.db (Demo.room Demo.two true)) !! "r0000001"
    = Some (Demo.room Demo.two true) ∧
  ∃ room',
    Db.rooms (snd (start (Demo.db (Demo.room Demo.two true)) "Bearer ta"
                     "r0000001" (VStr EmptyString))) !! "r0000001"
      = Some room' ∧
    Room.started room' = true ∧
    Room.state room' = VNull ∧
    Room.revision room' = 1.
Proof.
  assert (authUser (Demo.db (Demo.room Demo.two true)) "Bearer ta"
            = Some Demo.alice) as Hauth by (vm_compute; reflexivity).
  assert (Db.rooms (Demo.db (Demo.room Demo.two true)) !! "r0000001"
            = Some (Demo.room Demo.two true)) as Hroom
    by (vm_compute; reflexivity).
  split; [exact Hauth|]. split; [exact Hroom|].
  destruct (start_iff_host_and_count _ _ _ _ _ (VStr EmptyString) Hauth Hroom)
    as (_ & _ & _ & Hok).
  destruct (Hok eq_refl ltac:(simpl; lia))
    as (_ & room' & Hr & Hst & Hstate & Hrev & _).
  exists room'. split; [exact Hr|]. split; [exact Hst|].
  split; [exact Hstate|exact Hrev].
Defined.

Lemma error_leaves_store_unchanged_witness :
  code (fst (server Demo.e1 (Demo.db (Demo.room Demo.two true))
               (PostJoin "Bearer tc" "r0000001"))) = 400 ∧
  snd (server Demo.e1 (Demo.db (Demo.room Demo.two true))
         (PostJoin "Bearer tc" "r0000001"))
    = Demo.db (Demo.room Demo.two true).
Proof.
  assert (code (fst (server Demo.e1 (Demo.db (Demo.room Demo.two true))
                       (PostJoin "Bearer tc" "r0000001"))) = 400) as Hcode
    by (vm_compute; reflexivity).
  split; [exact Hcode|].
  apply error_leaves_store_unchanged. right; right; right. exact Hcode.
Defined.

Lemma create_with_non_numeric_maxPlayers_witness :
  authUser Demo.lobby "Bearer ta" = Some Demo.alice ∧
  ∃ room,
    code (fst (create Demo.e0 Demo.lobby "Bearer ta" (VStr "abc"))) = 200 ∧
    Db.rooms (snd (create Demo.e0 Demo.lobby "Bearer ta" (VStr "abc")))
      !! String.substring 0 8 (uuid Demo.e0) = Some room ∧
    Room.maxPlayers room = NaN.
Proof.
  assert (authUser Demo.lobby "Bearer ta" = Some Demo.alice) as Hauth
    by (vm_compute; reflexivity).
  split; [exact Hauth|].
  exact (create_with_non_numeric_maxPlayers Demo.e0 _ _ _ Hauth).
Defined.

(** The example of the specification: players alice, bob and carol, bob
    reports alice as the winner. *)
Lemma winner_report_credits_everyone_witness :
  authUser (Demo.db (Demo.room Demo.three true)) "Bearer tb"
    = Some Demo.bob ∧
  Db.rooms (Demo.db (Demo.room Demo.three true)) !! "r0000001"
    = Some (Demo.room Demo.three true) ∧
  NoDup (map Seat.id Demo.three) ∧
  (∀ p, p ∈ Demo.three → inherited (Seat.username p) = false) ∧
  Room.started <$>
    Db.rooms (snd (update Demo.e1 (Demo.db (Demo.room Demo.three true))
                     "Bearer tb" "r0000001" (VStr "over") (VStr "u-alice")))
      !! "r0000001" = Some false ∧
  ∃ ua ub uc sa sb sc,
    Db.users (snd (update Demo.e1 (Demo.db (Demo.room Demo.three true))
                     "Bearer tb" "r0000001" (VStr "over") (VStr "u-alice")))
      = [ua; ub; uc] ∧
    (User.username ua = "alice" ∧ User.stats ua = Some sa ∧
     Stats.wins sa = 1 ∧ Stats.losses sa = 0 ∧
     Stats.vs sa !! "bob" = Some (Versus.mk 1 0) ∧
     Stats.vs sa !! "carol" = Some (Versus.mk 1 0)) ∧
    (User.username ub = "bob" ∧ User.stats ub = Some sb ∧
     Stats.wins sb = 0 ∧ Stats.losses sb = 1 ∧
     Stats.vs sb !! "alice" = Some (Versus.mk 0 1) ∧
     Stats.vs sb !! "carol" = Some (Versus.mk 0 1)) ∧
    (User.username uc = "carol" ∧ User.stats uc = Some sc ∧
     Stats.wins sc = 0 ∧ Stats.losses sc = 1 ∧
     Stats.vs sc !! "alice" = Some (Versus.mk 0 1) ∧
     Stats.vs sc !! "bob" = Some (Versus.mk 0 1)).
Proof.
  assert (authUser (Demo.db (Demo.room Demo.three true)) "Bearer tb"
            = Some Demo.bob) as Hauth by (vm_compute; reflexivity).
  assert (Db.rooms (Demo.db (Demo.room Demo.three true)) !! "r0000001"
            = Some (Demo.room Demo.three true)) as Hroom
    by (vm_compute; reflexivity).
  assert (NoDup (map Seat.id Demo.three)) as Hnd
    by (apply (bool_decide_unpack _); vm_compute; exact I).
  assert (∀ p, p ∈ Demo.three → inherited (Seat.username p) = false)
    as Hown.
  { intros p Hp.
    apply elem_of_cons in Hp as [->|Hp]; [vm_compute; reflexivity|].
    apply elem_of_cons in Hp as [->|Hp]; [vm_compute; reflexivity|].
    apply elem_of_cons in Hp as [->|Hp]; [vm_compute; reflexivity|].
    by apply elem_of_nil in Hp. }
  split; [exact Hauth|]. split; [exact Hroom|]. split; [exact Hnd|].
  split; [exact Hown|].
  destruct (winner_report_credits_everyone Demo.e1 _ "Bearer tb" "r0000001"
              (VStr "over") (VStr "u-alice") Demo.bob
              (Demo.room Demo.three true) 0%nat (Demo.seat Demo.alice true)
              Hauth Hroom eq_refl eq_refl eq_refl
              ltac:(vm_compute; reflexivity) Hnd Hown)
    as (Hopen & Hlen & _ & Hcredit).
  split; [exact Hopen|].
  destruct (Hcredit (Demo.seat Demo.alice true) 0%nat Demo.alice
              ltac:(left) ltac:(vm_compute; reflexivity))
    as (ua & sa & Ha & _ & Hna & _ & _ & Hsa & Hwa & Hla & Hvsa & _).
  destruct (Hcredit (Demo.seat Demo.bob true) 1%nat Demo.bob
              ltac:(right; left) ltac:(vm_compute; reflexivity))
    as (ub & sb & Hb & _ & Hnb & _ & _ & Hsb & Hwb & Hlb & Hvsb & _).
  destruct (Hcredit (Demo.seat Demo.carol true) 2%nat Demo.carol
              ltac:(right; right; left) ltac:(vm_compute; reflexivity))
    as (uc & sc & Hc & _ & Hnc & _ & _ & Hsc & Hwc & Hlc & Hvsc & _).
  exists ua, ub, uc, sa, sb, sc. split.
  - apply list_eq. intros [|[|[|i]]]; [exact Ha|exact Hb|exact Hc|].
    apply lookup_ge_None_2. rewrite Hlen. simpl. lia.
  - split; [|split].
    + split; [exact Hna|]. split; [exact Hsa|].
      split; [exact Hwa|]. split; [exact Hla|]. split.
      * destruct (Hvsa (Demo.seat Demo.bob true) ltac:(right; left)
                    ltac:(discriminate)) as (_ & _ & Hv).
        exact Hv.
      * destruct (Hvsa (Demo.seat Demo.carol true) ltac:(right; right; left)
                    ltac:(discriminate)) as (_ & _ & Hv).
        exact Hv.
    + split; [exact Hnb|]. split; [exact Hsb|].
      split; [exact Hwb|]. split; [exact Hlb|]. split.
      * destruct (Hvsb (Demo.seat Demo.alice true) ltac:(left)
                    ltac:(discriminate)) as (_ & _ & Hv).
        exact Hv.
      * destruct (Hvsb (Demo.seat Demo.carol true) ltac:(right; right; left)
                    ltac:(discriminate)) as (_ & _ & Hv).
        exact Hv.
    + split; [exact Hnc|]. split; [exact Hsc|].
      split; [exact Hwc|]. split; [exact Hlc|]. split.
      * destruct (Hvsc (Demo.seat Demo.alice true) ltac:(left)
                    ltac:(discriminate)) as (_ & _ & Hv).
        exact Hv.
      * destruct (Hvsc (Demo.seat Demo.bob true) ltac:(right; left)
                    ltac:(discriminate)) as (_ & _ & Hv).
        exact Hv.
Defined.

Lemma winner_report_on_open_room_is_ignored_witness :
  authUser (Demo.db (Demo.room Demo.two false)) "Bearer tb"
    = Some Demo.bob ∧
  Db.rooms (Demo.db (Demo.room Demo.two false)) !! "r0000001"
    = Some (Demo.room Demo.two false) ∧
  existsb (λ p, String.eqb (Seat.id p) (User.id Demo.bob)) Demo.two = true ∧
  fst (update Demo.e1 (Demo.db (Demo.room Demo.two false)) "Bearer tb"
         "r0000001" (VStr "over") (VStr "u-alice"))
    = json 200 (OkBody 1) ∧
  Db.history
    (snd (update Demo.e1 (Demo.db (Demo.room Demo.two true)) "Bearer tb"
            "r0000001" (VStr "over") (VStr "u-alice")))
    = [Match.mk (uuid Demo.e1) "r0000001" ["alice"; "bob"] "alice"
         (now Demo.e1)] ∧
  ∀ e2,
    Db.history
      (snd (update e2
              (snd (update Demo.e1 (Demo.db (Demo.room Demo.two true))
                      "Bearer tb" "r0000001" (VStr "over") (VStr "u-alice")))
              "Bearer tb" "r0000001" (VStr "over") (VStr "u-alice")))
    = [Match.mk (uuid Demo.e1) "r0000001" ["alice"; "bob"] "alice"
         (now Demo.e1)].
Proof.
  assert (authUser (Demo.db (Demo.room Demo.two false)) "Bearer tb"
            = Some Demo.bob) as Hauth by (vm_compute; reflexivity).
  assert (Db.rooms (Demo.db (Demo.room Demo.two false)) !! "r0000001"
            = Some (Demo.room Demo.two false)) as Hroom
    by (vm_compute; reflexivity).
  assert (authUser (Demo.db (Demo.room Demo.two true)) "Bearer tb"
            = Some Demo.bob) as Hauth' by (vm_compute; reflexivity).
  assert (Db.rooms (Demo.db (Demo.room Demo.two true)) !! "r0000001"
            = Some (Demo.room Demo.two true)) as Hroom'
    by (vm_compute; reflexivity).
  split; [exact Hauth|]. split; [exact Hroom|]. split; [reflexivity|].
  destruct (winner_report_on_open_room_is_ignored Demo.e1 _ _ _ (VStr "over")
              (VStr "u-alice") _ _ Hauth Hroom eq_refl) as [Hopen _].
  destruct (winner_report_on_open_room_is_ignored Demo.e1 _ _ _ (VStr "over")
              (VStr "u-alice") _ _ Hauth' Hroom' eq_refl) as [_ Hstarted].
  split; [exact (proj1 (Hopen eq_refl))|].
  destruct (Hstarted 0%nat (Demo.seat Demo.alice true) eq_refl eq_refl
              ltac:(vm_compute; reflexivity)) as (Hhist & _ & Hreplay).
  split; [exact Hhist|].
  intros e2. destruct (Hreplay e2) as [Hh _].
  exact (eq_trans Hh Hhist).
Defined.

Lemma state_round_trip_witness :
  code (fst (update Demo.e1 (Demo.db (Demo.room Demo.two true)) "Bearer tb"
               "r0000001" (VObj [("turn", VNum (of_Z 9))]) VUndefined))
    = 200 ∧
  authUser
    (snd (update Demo.e1 (Demo.db (Demo.room Demo.two true)) "Bearer tb"
            "r0000001" (VObj [("turn", VNum (of_Z 9))]) VUndefined))
    "Bearer ta" = Some Demo.alice ∧
  ∃ view,
    fst (read
           (snd (update Demo.e1 (Demo.db (Demo.room Demo.two true))
                   "Bearer tb" "r0000001" (VObj [("turn", VNum (of_Z 9))])
                   VUndefined))
           "Bearer ta" "r0000001") = json 200 (RoomBody (Some view)) ∧
    View.state view = VObj [("turn", VNum (of_Z 9))] ∧
    ∃ v' new,
      Heap.copy_state [Heap.Obj [("turn", Heap.Num (of_Z 9))]] (Heap.Ref 0)
        = Some (v', [Heap.Obj [("turn", Heap.Num (of_Z 9))]] ++ new) ∧
      Heap.snapshot ([Heap.Obj [("turn", Heap.Num (of_Z 9))]] ++ new) v'
        = Some (VObj [("turn", VNum (of_Z 9))]) ∧
      (∀ n l,
         l ∈ Heap.reach n ([Heap.Obj [("turn", Heap.Num (of_Z 9))]] ++ new) v'
         → (1 ≤ l)%nat) ∧
      (∀ new',
         Heap.snapshot ([Heap.Obj [("turn", Heap.Num (of_Z 9))]] ++ new')
           (Heap.Ref 0) = Some (VObj [("turn", VNum (of_Z 9))])).
Proof.
  assert (code (fst (update Demo.e1 (Demo.db (Demo.room Demo.two true))
                       "Bearer tb" "r0000001"
                       (VObj [("turn", VNum (of_Z 9))]) VUndefined)) = 200)
    as Hok by (vm_compute; reflexivity).
  assert (authUser
            (snd (update Demo.e1 (Demo.db (Demo.room Demo.two true))
                    "Bearer tb" "r0000001" (VObj [("turn", VNum (of_Z 9))])
                    VUndefined))
            "Bearer ta" = Some Demo.alice) as Hauth
    by (vm_compute; reflexivity).
  split; [exact Hok|]. split; [exact Hauth|].
  destruct (state_round_trip _ _ _ _ _ _ _ _ Hok Hauth)
    as (view & Hread & _ & Htruthy).
  destruct (Htruthy eq_refl) as (_ & Hsame & Hcopy).
  exists view. split; [exact Hread|]. split; [exact (Hsame eq_refl)|].
  destruct (Hcopy [Heap.Obj [("turn", Heap.Num (of_Z 9))]] (Heap.Ref 0)
              eq_refl) as (v' & new & Hc & Hs & Hfresh & Hframe).
  exists v', new. split; [exact Hc|]. split; [|split].
  - rewrite Hs. f_equal. exact (Hsame eq_refl).
  - exact Hfresh.
  - exact Hframe.
Defined.

(** * Further properties of the request listener *)

(** ** Who is calling *)

Lemma substring_all s : String.substring 0 (String.length s) s = s.
Proof. induction s as [|c s IH]; simpl; [done|by rewrite IH]. Qed.

Lemma append_cons c p t :
  String.append (String c p) t = String c (String.append p t).
Proof. reflexivity. Qed.

Lemma append_nil t : String.append EmptyString t = t.
Proof. reflexivity. Qed.

Lemma prefix_split p :
  ∀ a, String.prefix p a = true →
       a = String.append p
             (String.substring (String.length p)
                (String.length a - String.length p) a).
Proof.
  induction p as [|c p IH]; intros a Hp.
  - rewrite append_nil. simpl. by rewrite Nat.sub_0_r, substring_all.
  - destruct a as [|c' a]; [done|].
    change (String.prefix (String c p) (String c' a))
      with (if ascii_dec c c' then String.prefix p a else false) in Hp.
    destruct (ascii_dec c c'); [|done]. subst.
    rewrite append_cons. simpl. f_equal. by apply IH.
Qed.

Lemma prefix_append p t :
  String.prefix p (String.append p t) = true ∧
  String.substring (String.length p)
    (String.length (String.append p t) - String.length p)
    (String.append p t) = t.
Proof.
  induction p as [|c p [IH1 IH2]].
  - rewrite append_nil. split; [by destruct t|].
    simpl. by rewrite Nat.sub_0_r, substring_all.
  - rewrite append_cons. split; [|exact IH2].
    change (String.prefix (String c p) (String c (String.append p t)))
      with (if ascii_dec c c then String.prefix p (String.append p t)
            else false).
    by destruct (ascii_dec c c).
Qed.

Lemma bearer_spec a token :
  bearer a = Some token ↔ a = String.append "Bearer " token.
Proof.
  unfold bearer, slice. split.
  - destruct (String.prefix "Bearer " a) eqn:Hp; [|done]. intros [= <-].
    by apply prefix_split in Hp.
  - intros ->. destruct (prefix_append "Bearer " token) as [-> Hs].
    f_equal. exact Hs.
Qed.

Lemma authUser_bearer db a :
  authUser db a =
  match bearer a with
  | None | Some EmptyString => None
  | Some token =>
      match Db.sessions db !! token with
      | None | Some EmptyString => None
      | Some uid => snd <$> list_find (λ u, User.id u = uid) (Db.users db)
      end
  end.
Proof. reflexivity. Qed.

Lemma authUser_elem db a user : authUser db a = Some user → user ∈ Db.users db.
Proof.
  rewrite authUser_bearer. intros H.
  repeat case_match; simplify_eq.
  all: apply fmap_Some in H as ([i u] & Hf & ->);
    apply list_find_Some in Hf as (Hi & _); by eapply list_elem_of_lookup_2.
Qed.

Lemma authUser_iff db a user :
  authUser db a = Some user ↔
  ∃ token uid i,
    a = String.append "Bearer " token ∧ token ≠ EmptyString ∧
    Db.sessions db !! token = Some uid ∧ uid ≠ EmptyString ∧
    list_find (λ u, User.id u = uid) (Db.users db) = Some (i, user).
Proof.
  rewrite authUser_bearer. split.
  - intros H.
    destruct (bearer a) as [token|] eqn:Hb; [|done].
    apply bearer_spec in Hb.
    destruct token as [|c token]; [done|].
    destruct (Db.sessions db !! String c token) as [uid|] eqn:Hs; [|done].
    destruct uid as [|c' uid]; [done|].
    apply fmap_Some in H as ([i u] & Hf & ->).
    by exists (String c token), (String c' uid), i.
  - intros (token & uid & i & -> & Ht & Hs & Hu & Hf).
    rewrite (proj2 (bearer_spec _ token) eq_refl).
    destruct token; [done|]. rewrite Hs. destruct uid; [done|].
    by rewrite Hf.
Qed.

(** X1.  [authUser] answers with a user exactly when the header is
    ["Bearer "] followed by a token that is not empty, [db.sessions] maps
    the token to a user identifier that is not empty, and the user is the
    first one in [db.users] with that identifier. *)
Theorem authUser_spec db a user :
  authUser db a = Some user ↔
  ∃ token uid i,
    a = String.append "Bearer " token ∧ token ≠ EmptyString ∧
    Db.sessions db !! token = Some uid ∧ uid ≠ EmptyString ∧
    list_find (λ u, User.id u = uid) (Db.users db) = Some (i, user).
Proof. apply authUser_iff. Qed.

(** ** What a request does to the rooms *)

Lemma seated_not_found (ps : list Seat.t) uid :
  list_find (λ p, Seat.id p = uid) ps = None → uid ∉ map Seat.id ps.
Proof.
  intros Hnone Hin. apply list_elem_of_fmap in Hin as (p & -> & Hp).
  apply list_find_None in Hnone.
  rewrite Forall_forall in Hnone. by apply (Hnone p).
Qed.

Ltac room_same room' :=
  intros Hr; left; exists room'; split; [exact Hr|apply step_none].

(** Every room of the store after a request comes from the room filed under
    the same identifier before, by one of the steps of [room_step], or is
    the room a creation has just filed. *)
Lemma server_rooms e db req rid room' :
  Db.rooms (snd (server e db req)) !! rid = Some room' →
  (∃ room, Db.rooms db !! rid = Some room ∧
           room_step (Db.users db) room room') ∨
  (created_id e req = Some rid ∧ fresh_room (Db.users db) room').
Proof.
  destruct req as [a mp|a r|a r st|a r st w|a r];
    cbn [server created_id].
  - unfold create.
    destruct (authUser db a) as [user|] eqn:Hauth; cbn [snd];
      [|room_same room'].
    rewrite lookup_put_room. cbn [Room.id]. case_decide as Hid;
      [|room_same room'].
    subst rid. intros Heq. right. split; [done|].
    apply (inj Some) in Heq. subst room'. exists user.
    cbn [Room.hostId Room.players Room.started Room.locked Room.state
         Room.revision Room.maxPlayers].
    split; [by eapply authUser_elem|].
    do 6 (split; [reflexivity|]).
    pose proof (clamp_range (Number (or_else mp (VNum (of_Z 4))))) as Hc.
    destruct (Math_max _ _); [done|done|by destruct Hc].
  - unfold join.
    destruct (authUser db a) as [user|] eqn:Hauth; [|room_same room'].
    destruct (Db.rooms db !! r) as [room|] eqn:Hroom; [|room_same room'].
    destruct (list_find _ _) as [[i seat]|] eqn:Hseat.
    + cbn [snd]. rewrite lookup_put_room. case_decide; [|room_same room'].
      subst. intros [= <-]. left. exists room. split; [done|].
      apply step_reconnect.
      by apply list_find_Some in Hseat as (Hi & _).
    + destruct (Room.started room) eqn:Hst; cbn [orb]; [room_same room'|].
      destruct (num_ge _ _) eqn:Hge; [room_same room'|].
      cbn [snd]. rewrite lookup_put_room. case_decide; [|room_same room'].
      subst. intros [= <-]. left. exists room. split; [done|].
      apply (step_seat _ _ user); try done.
      * by eapply authUser_elem.
      * by apply seated_not_found.
  - unfold start.
    destruct (authUser db a) as [user|] eqn:Hauth; [|room_same room'].
    destruct (Db.rooms db !! r) as [room|] eqn:Hroom; [|room_same room'].
    destruct (negb _); [room_same room'|].
    destruct (length (Room.players room) <? 2)%nat eqn:H2; cbn [orb];
      [room_same room'|].
    destruct (4 <? length (Room.players room))%nat eqn:H4;
      [room_same room'|].
    cbn [snd]. rewrite lookup_put_room. case_decide; [|room_same room'].
    subst. intros [= <-]. left. exists room. split; [done|].
    apply step_start.
    apply Nat.ltb_ge in H2, H4. lia.
  - unfold update.
    destruct (authUser db a) as [user|] eqn:Hauth; [|room_same room'].
    destruct (Db.rooms db !! r) as [room|] eqn:Hroom; [|room_same room'].
    destruct (negb _); [room_same room'|].
    cbn [Room.started Room.players bump set_state].
    destruct (truthy w && Room.started room) eqn:Hws.
    + destruct (list_find _ _) as [[j winner]|] eqn:Hwin;
        cbn [fmap option_fmap option_map snd Db.rooms].
      * rewrite lookup_insert. case_decide; [|room_same room'].
        subst. intros [= <-]. left. exists room. split; [done|].
        apply step_settle. by apply andb_true_iff in Hws as [_ ?].
      * rewrite lookup_put_room. case_decide; [|room_same room'].
        subst. intros [= <-]. left. exists room. split; [done|].
        apply step_state.
    + cbn [snd]. rewrite lookup_put_room. case_decide; [|room_same room'].
      subst. intros [= <-]. left. exists room. split; [done|].
      apply step_state.
  - unfold read.
    destruct (authUser db a) as [user|] eqn:Hauth; [|room_same room'].
    destruct (Db.rooms db !! r) as [room|] eqn:Hroom; [|room_same room'].
    destruct (list_find _ _) as [[i seat]|] eqn:Hseat; [|room_same room'].
    cbn [snd]. rewrite lookup_put_room. case_decide; [|room_same room'].
    subst. intros [= <-]. left. exists room. split; [done|].
    apply step_look. by apply list_find_Some in Hseat as (Hi & _).
Qed.

(** No request removes a room: a room that is not overwritten by a creation
    has a successor under the same identifier. *)
Lemma server_keeps_rooms e db req rid room :
  Db.rooms db !! rid = Some room →
  is_Some (Db.rooms (snd (server e db req)) !! rid).
Proof.
  intros Hroom.
  destruct (decide (created_id e req = Some rid)) as [Hc|Hc].
  - destruct req; try done. cbn [server created_id] in *.
    unfold create. case_match; cbn [snd]; [|by eexists].
    rewrite lookup_put_room. cbn [Room.id]. case_decide; by eexists.
  - destruct (server_revision e db req rid room Hroom Hc) as (r' & Hr' & _).
    by eexists.
Qed.

(** ** Steps of a room and the invariants they keep *)

Lemma room_step_capacity users room room' :
  room_step users room room' → within_capacity room → within_capacity room'.
Proof.
  unfold within_capacity.
  destruct 1 as [|i seat Hi|user Hu Hnew Hst Hge|st Hn|st|st Hst|i seat Hi];
    cbn [bump set_players set_state set_started Room.maxPlayers Room.players];
    try done.
  - by rewrite length_insert.
  - intros _. destruct (Room.maxPlayers room) as [| |q] eqn:Hq; try done.
    assert (¬ (q <= inject_Z (Z.of_nat (length (Room.players room))))%Q)
      as Hlt.
    { intros Hle. apply num_ge_of_nat in Hle. congruence. }
    apply Qnot_le_lt in Hlt.
    rewrite length_app, Nat2Z.inj_add, inject_Z_plus.
    change (inject_Z (Z.of_nat (length [seat_of user]))) with 1%Q. lra.
  - by rewrite length_insert.
Qed.

Lemma fresh_room_capacity users room :
  fresh_room users room → within_capacity room.
Proof.
  intros (host & _ & _ & Hp & _ & _ & _ & _ & Hmax).
  unfold within_capacity. rewrite Hp.
  destruct (Room.maxPlayers room) as [| |q]; try done.
  change (inject_Z (Z.of_nat (length [seat_of host]))) with 1%Q. lra.
Qed.

Lemma room_step_match_size users room room' :
  room_step users room room' → match_size room → match_size room'.
Proof.
  unfold match_size.
  destruct 1 as [|i seat Hi|user Hu Hnew Hst Hge|st Hn|st|st Hst|i seat Hi];
    cbn [bump set_players set_state set_started Room.started Room.players];
    try done.
  - by rewrite length_insert.
  - intros _ ?. congruence.
  - by rewrite length_insert.
Qed.

Lemma head_ids (ps : list Seat.t) :
  Seat.id <$> head ps = head (map Seat.id ps).
Proof. by destruct ps. Qed.

Lemma room_step_host_first users room room' :
  room_step users room room' → host_first room → host_first room'.
Proof.
  unfold host_first. rewrite !head_ids.
  destruct 1 as [|i seat Hi|user Hu Hnew Hst Hge|st Hn|st|st Hst|i seat Hi];
    cbn [bump set_players set_state set_started Room.hostId Room.players];
    try done.
  - by rewrite ids_set_connected.
  - rewrite map_app. by destruct (Room.players room).
  - by rewrite ids_set_connected.
Qed.

Lemma tags_set_connected (ps : list Seat.t) i seat :
  ps !! i = Some seat →
  map seat_tag (<[i := set_connected seat]> ps) = map seat_tag ps.
Proof.
  intros Hi. rewrite list_fmap_insert. apply list_insert_id.
  by rewrite list_lookup_fmap, Hi.
Qed.

Lemma room_step_tags users room room' :
  room_step users room room' →
  map seat_tag (Room.players room') = map seat_tag (Room.players room) ∨
  ∃ user, user ∈ users ∧
    map seat_tag (Room.players room')
      = (map seat_tag (Room.players room) ++ [user_tag user]) ∧
    (User.id user ∉ map Seat.id (Room.players room)) ∧
    Room.started room = false.
Proof.
  destruct 1 as [|i seat Hi|user Hu Hnew Hst Hge|st Hn|st|st Hst|i seat Hi];
    cbn [bump set_players set_state set_started Room.players];
    try (by left).
  - left. by apply tags_set_connected.
  - right. exists user. by rewrite map_app.
  - left. by apply tags_set_connected.
Qed.

Lemma room_step_registered users room room' :
  room_step users room room' →
  seats_registered users room → seats_registered users room'.
Proof.
  unfold seats_registered. intros Hstep Hreg p Hp.
  assert (seat_tag p ∈ map seat_tag (Room.players room')) as Htag
    by (apply list_elem_of_fmap; by exists p).
  destruct (room_step_tags _ _ _ Hstep) as [Heq|(user & Hu & Heq & _)];
    rewrite Heq in Htag.
  - apply list_elem_of_fmap in Htag as (p0 & -> & Hp0). by apply Hreg.
  - apply elem_of_app in Htag as [Htag|Htag].
    + apply list_elem_of_fmap in Htag as (p0 & -> & Hp0). by apply Hreg.
    + apply list_elem_of_singleton in Htag. rewrite Htag.
      apply list_elem_of_fmap. by exists user.
Qed.

Lemma room_step_fixed users room room' :
  room_step users room room' →
  Room.id room' = Room.id room ∧ Room.hostId room' = Room.hostId room ∧
  Room.maxPlayers room' = Room.maxPlayers room ∧
  Room.locked room' = Room.locked room ∧
  Room.revision room <= Room.revision room'.
Proof.
  destruct 1; cbn; repeat split; lia.
Qed.

(** ** Users and sessions under the room routes *)

Lemma credit_credentials players winner users p :
  map credentials (credit players winner users p) = map credentials users.
Proof.
  unfold credit.
  destruct (list_find _ users) as [[i u]|] eqn:Hfind; [|done].
  apply list_find_Some in Hfind as (Hi & _ & _).
  rewrite list_fmap_insert. apply list_insert_id.
  by rewrite list_lookup_fmap, Hi.
Qed.

Lemma aggregate_credentials players winner users :
  map credentials (aggregate players winner users) = map credentials users.
Proof.
  unfold aggregate. generalize players at 2. intros qs. revert users.
  induction qs as [|q qs IH]; intros users; [done|].
  cbn [fold_left]. by rewrite IH, credit_credentials.
Qed.

(** The room routes never touch [db.sessions], and of [db.users] they
    change nothing but statistics. *)
Lemma server_accounts e db req :
  Db.sessions (snd (server e db req)) = Db.sessions db ∧
  map credentials (Db.users (snd (server e db req)))
    = map credentials (Db.users db).
Proof.
  destruct req; unfold_handlers;
    repeat (case_match; try done); cbn [snd Db.sessions Db.users].
  split; [done|]. apply aggregate_credentials.
Qed.

Lemma find_user_credentials (us us' : list User.t) k :
  map credentials us = map credentials us' →
  (λ iu, (fst iu, credentials (snd iu)))
    <$> list_find (λ x, User.id x = k) us =
  (λ iu, (fst iu, credentials (snd iu)))
    <$> list_find (λ x, User.id x = k) us'.
Proof.
  revert us'. induction us as [|u us IH]; intros [|u' us'] Hids;
    simplify_eq/=; [done|].
  assert (User.id u = User.id u') as Hid by (unfold credentials in *; congruence).
  rewrite Hid. case_decide; [simpl; unfold credentials; congruence|].
  rewrite <- !option_fmap_compose.
  specialize (IH us' ltac:(done)).
  destruct (list_find _ us) as [[]|], (list_find _ us') as [[]|];
    simplify_eq/=; try done. unfold credentials. congruence.
Qed.

Lemma find_user_app (us more : list User.t) k i u :
  list_find (λ x, User.id x = k) us = Some (i, u) →
  list_find (λ x, User.id x = k) (us ++ more) = Some (i, u).
Proof. intros Hf. by apply list_find_app_Some; left. Qed.

(** ** Runs over all routes *)

Section Api.
Variable pbkdf2 : string → string → string.
Variable toLowerCase : string → string.

(** Whether [save()] succeeds or not, the store is what the handler has
    made of it. *)
Lemma snd_saved d r : snd (saved d r) = snd r.
Proof. unfold saved, save. by repeat case_match. Qed.

Lemma api_snd d db c :
  snd (api pbkdf2 toLowerCase d db c) =
  match c with
  | Register u p => snd (register pbkdf2 toLowerCase d db u p)
  | Login u p => snd (login pbkdf2 toLowerCase d db u p)
  | Me a => db
  | Rooms req => snd (server (first d) db req)
  end.
Proof.
  destruct c; cbn [api]; rewrite ?snd_saved; try done.
  unfold me. by case_match.
Qed.

Lemma api_rooms_snd d db req :
  snd (api pbkdf2 toLowerCase d db (Rooms req)) = snd (server (first d) db req).
Proof. apply api_snd. Qed.

(** The account routes leave rooms and history alone. *)
Lemma api_accounts_frame d db c :
  match c with Rooms _ => False | _ => True end →
  Db.rooms (snd (api pbkdf2 toLowerCase d db c)) = Db.rooms db ∧
  Db.history (snd (api pbkdf2 toLowerCase d db c)) = Db.history db.
Proof.
  rewrite api_snd.
  destruct c as [u p|u p|a|req]; [| | |done]; intros _.
  - unfold register. by repeat case_match.
  - unfold login. by repeat case_match.
  - done.
Qed.

Lemma api_rooms d db c rid room' :
  Db.rooms (snd (api pbkdf2 toLowerCase d db c)) !! rid = Some room' →
  (∃ room, Db.rooms db !! rid = Some room ∧
           room_step (Db.users db) room room') ∨
  (filed d c = Some rid ∧ fresh_room (Db.users db) room').
Proof.
  destruct c as [u p|u p|a|req].
  4: { rewrite api_rooms_snd. apply server_rooms. }
  1: rewrite (proj1 (api_accounts_frame d db (Register u p) I)).
  2: rewrite (proj1 (api_accounts_frame d db (Login u p) I)).
  3: rewrite (proj1 (api_accounts_frame d db (Me a) I)).
  all: intros Hr; left; exists room'; split; [done|apply step_none].
Qed.

Lemma api_credentials d db c :
  map credentials (Db.users db)
    `prefix_of` map credentials
        (Db.users (snd (api pbkdf2 toLowerCase d db c))).
Proof.
  rewrite api_snd. destruct c as [u p|u p|a|req].
  - unfold register.
    repeat case_match; cbn [snd Db.users]; try done.
    rewrite map_app. by apply prefix_app_r.
  - unfold login. by repeat case_match.
  - done.
  - by rewrite (proj2 (server_accounts (first d) db req)).
Qed.

Lemma tags_of_credentials (us : list User.t) :
  map user_tag us = map (λ c, (c.1.1.1, c.1.1.2)) (map credentials us).
Proof. rewrite map_map. by apply map_ext. Qed.

Lemma api_tags d db c :
  map user_tag (Db.users db)
    `prefix_of` map user_tag (Db.users (snd (api pbkdf2 toLowerCase d db c))).
Proof.
  rewrite !tags_of_credentials.
  destruct (api_credentials d db c) as [k ->].
  rewrite map_app. by apply prefix_app_r.
Qed.

(** A property of rooms that holds of every created room, is kept by every
    step of a room and survives the registration of users, holds
    throughout a run. *)
Lemma session_rooms (Q : list User.t → Room.t → Prop) :
  (∀ us us' r, map user_tag us `prefix_of` map user_tag us' →
               Q us r → Q us' r) →
  (∀ us r r', room_step us r r' → Q us r → Q us r') →
  (∀ us r, fresh_room us r → Q us r) →
  ∀ cs db,
    map_Forall (λ _ r, Q (Db.users db) r) (Db.rooms db) →
    map_Forall (λ _ r, Q (Db.users (session pbkdf2 toLowerCase db cs)) r)
      (Db.rooms (session pbkdf2 toLowerCase db cs)).
Proof.
  intros Hmono Hstep Hfresh.
  induction cs as [|[d c] cs IH]; intros db Hdb; [done|].
  cbn [session]. apply IH. intros rid room' Hroom'.
  apply (Hmono (Db.users db)); [apply api_tags|].
  destruct (api_rooms d db c rid room' Hroom')
    as [(room & Hroom & Hs)|[_ Hf]].
  - eapply Hstep; [done|]. by eapply Hdb.
  - by apply Hfresh.
Qed.




(** X2.  Rooms never outgrow their capacity.  If every room of the store
    is within its capacity (as in the empty store), so is every room after
    any run of calls; in particular a room whose [maxPlayers] is the
    integer [m] never has more than [m] players. *)
Theorem rooms_stay_within_capacity db cs :
  map_Forall (λ _ r, within_capacity r) (Db.rooms db) →
  map_Forall (λ _ r, within_capacity r)
      (Db.rooms (session pbkdf2 toLowerCase db cs)) ∧
  ∀ rid room m,
    Db.rooms (session pbkdf2 toLowerCase db cs) !! rid = Some room →
    Room.maxPlayers room = of_Z m →
    Z.of_nat (length (Room.players room)) <= m.
Proof.
  intros Hdb.
  assert (map_Forall (λ _ r, within_capacity r)
            (Db.rooms (session pbkdf2 toLowerCase db cs))) as Hall.
  { apply (session_rooms (λ _ r, within_capacity r)); try done.
    - intros us r r'. apply room_step_capacity.
    - apply fresh_room_capacity. }
  split; [done|]. intros rid room m Hroom Hm.
  pose proof (Hall rid room Hroom) as Hcap.
  unfold within_capacity in Hcap. rewrite Hm in Hcap. unfold of_Z in Hcap.
  assert (inject_Z (Z.of_nat (length (Room.players room)) - 1) < inject_Z m)%Q
    as Hlt.
  { unfold Z.sub. rewrite inject_Z_plus. exact Hcap. }
  rewrite <- Zlt_Qlt in Hlt. lia.
Qed.

(** X3.  A match is played by two to four players: if every started room
    of the store has two to four players, so has every started room after
    any run of calls. *)
Theorem started_rooms_have_two_to_four_players db cs :
  map_Forall (λ _ r, match_size r) (Db.rooms db) →
  ∀ rid room,
    Db.rooms (session pbkdf2 toLowerCase db cs) !! rid = Some room →
    Room.started room = true →
    (2 ≤ length (Room.players room) ≤ 4)%nat.
Proof.
  intros Hdb rid room Hroom.
  apply (session_rooms (λ _ r, match_size r)) with (cs := cs) (db := db)
                                                       (i := rid); try done.
  - intros us r r'. apply room_step_match_size.
  - intros us r (host & _ & _ & _ & Hst & _) ?. congruence.
Qed.

(** X4.  The host keeps the first seat: if in every room of the store the
    first player is the host, the same holds after any run of calls. *)
Theorem host_keeps_first_seat db cs :
  map_Forall (λ _ r, host_first r) (Db.rooms db) →
  ∀ rid room,
    Db.rooms (session pbkdf2 toLowerCase db cs) !! rid = Some room →
    ∃ seat rest,
      Room.players room = seat :: rest ∧ Seat.id seat = Room.hostId room.
Proof.
  intros Hdb rid room Hroom.
  assert (host_first room) as Hh.
  { apply (session_rooms (λ _ r, host_first r)) with (cs := cs) (db := db)
                                                      (i := rid); try done.
    - intros us r r'. apply room_step_host_first.
    - intros us r (host & _ & Hid & Hp & _). unfold host_first.
      by rewrite Hp, Hid. }
  unfold host_first in Hh.
  destruct (Room.players room) as [|seat rest]; [done|].
  exists seat, rest. split; [done|]. simpl in Hh. congruence.
Qed.

(** X5.  Seats belong to registered users: if every seat of the store
    carries the identifier and the name of a user in [db.users], the same
    holds after any run of calls, so that the statistics step finds a
    record for every seated player. *)
Theorem seats_belong_to_registered_users db cs :
  map_Forall (λ _ r, seats_registered (Db.users db) r) (Db.rooms db) →
  ∀ rid room p,
    Db.rooms (session pbkdf2 toLowerCase db cs) !! rid = Some room →
    p ∈ Room.players room →
    seat_tag p ∈ map user_tag (Db.users (session pbkdf2 toLowerCase db cs)) ∧
    is_Some (list_find (λ x, User.id x = Seat.id p)
               (Db.users (session pbkdf2 toLowerCase db cs))).
Proof.
  intros Hdb rid room p Hroom Hp.
  assert (seats_registered
      (Db.users (session pbkdf2 toLowerCase db cs)) room) as Hreg.
  { apply (session_rooms seats_registered) with (cs := cs) (db := db)
                                                 (i := rid); try done.
    - intros us us' r [k Hk] Hr q Hq. rewrite Hk.
      apply elem_of_app. left. by apply Hr.
    - intros us r r'. apply room_step_registered.
    - intros us r (host & Hhost & _ & Hpl & _) q Hq.
      rewrite Hpl in Hq. apply list_elem_of_singleton in Hq. subst q.
      apply list_elem_of_fmap. by exists host. }
  pose proof (Hreg p Hp) as Htag. split; [done|].
  apply list_elem_of_fmap in Htag as (u & Hu & Hin).
  apply list_elem_of_lookup in Hin as [i Hi].
  eapply list_find_elem_of with (x := u) (P := λ x, User.id x = Seat.id p).
  - by eapply list_elem_of_lookup_2.
  - unfold seat_tag, user_tag in Hu. congruence.
Qed.

Lemma api_keeps_rooms d db c rid room :
  Db.rooms db !! rid = Some room →
  filed d c ≠ Some rid →
  ∃ room',
    Db.rooms (snd (api pbkdf2 toLowerCase d db c)) !! rid = Some room' ∧
    room_step (Db.users db) room room'.
Proof.
  intros Hroom Hfiled.
  assert (is_Some (Db.rooms
      (snd (api pbkdf2 toLowerCase d db c)) !! rid)) as [room' Hr'].
  { destruct c as [u p|u p|a|req].
    4: { rewrite api_rooms_snd. by eapply server_keeps_rooms. }
    1: rewrite (proj1 (api_accounts_frame d db (Register u p) I)).
    2: rewrite (proj1 (api_accounts_frame d db (Login u p) I)).
    3: rewrite (proj1 (api_accounts_frame d db (Me a) I)).
    all: by eexists. }
  exists room'. split; [done|].
  destruct (api_rooms d db c rid room' Hr') as [(room0 & Hr0 & Hs)|[Hf _]];
    [|done].
  congruence.
Qed.

(** X6.  Rooms are never removed and their identity never changes.  Take a
    room of the store and a run in which no creation draws its identifier
    again.  After the run the room is still filed under that identifier
    with the same [id], [hostId], [maxPlayers] and [locked]; its seats are
    the old seats, for the same users under the same names and in the same
    order, followed by the seats given out since; its revision has not
    gone down. *)
Theorem rooms_are_never_removed rid cs :
  ∀ db room,
    Db.rooms db !! rid = Some room →
    Forall (λ dc, filed (fst dc) (snd dc) ≠ Some rid) cs →
    ∃ room',
      Db.rooms (session pbkdf2 toLowerCase db cs) !! rid = Some room' ∧
      Room.id room' = Room.id room ∧
      Room.hostId room' = Room.hostId room ∧
      Room.maxPlayers room' = Room.maxPlayers room ∧
      Room.locked room' = Room.locked room ∧
      map seat_tag (Room.players room)
        `prefix_of` map seat_tag (Room.players room') ∧
      Room.revision room <= Room.revision room'.
Proof.
  induction cs as [|[d c] cs IH]; intros db room Hroom Hcs.
  - exists room. by repeat split.
  - apply Forall_cons in Hcs as [Hc Hcs]. cbn [fst snd] in Hc.
    destruct (api_keeps_rooms d db c rid room Hroom Hc) as (r1 & Hr1 & Hs).
    destruct (IH _ r1 Hr1 Hcs) as (r2 & Hr2 & Hid & Hh & Hm & Hl & Hp & Hrev).
    destruct (room_step_fixed _ _ _ Hs) as (Hid1 & Hh1 & Hm1 & Hl1 & Hrev1).
    exists r2. cbn [session].
    split; [done|]. split; [congruence|]. split; [congruence|].
    split; [congruence|]. split; [congruence|]. split; [|lia].
    etrans; [|exact Hp].
    destruct (room_step_tags _ _ _ Hs) as [->|(u & _ & -> & _)]; [done|].
    by apply prefix_app_r.
Qed.

Lemma server_history e db req :
  Db.history (snd (server e db req)) = Db.history db ∨
  ∃ m, Db.history (snd (server e db req)) = Db.history db ++ [m] ∧
       Match.winner m ∈ Match.players m.
Proof.
  destruct req as [a mp|a r|a r st|a r st w|a r]; cbn [server].
  1-3, 5: left; unfold_handlers; by repeat case_match.
  unfold update.
  destruct (authUser db a) as [user|]; [|by left].
  destruct (Db.rooms db !! r) as [room|]; [|by left].
  destruct (negb _); [by left|].
  cbn [Room.started Room.players bump set_state].
  destruct (truthy w && Room.started room); [|by left].
  destruct (list_find _ _) as [[j winner]|] eqn:Hwin; [|by left].
  right. eexists. split; [reflexivity|]. cbn.
  apply list_find_Some in Hwin as (Hj & _).
  apply list_elem_of_fmap. exists winner. split; [done|].
  by eapply list_elem_of_lookup_2.
Qed.

Lemma api_history d db c :
  Db.history (snd (api pbkdf2 toLowerCase d db c)) = Db.history db ∨
  ∃ m, Db.history (snd (api pbkdf2 toLowerCase d db c)) = Db.history db ++ [m] ∧
       Match.winner m ∈ Match.players m.
Proof.
  destruct c as [u p|u p|a|req].
  4: { rewrite api_rooms_snd. apply server_history. }
  1: rewrite (proj2 (api_accounts_frame d db (Register u p) I)).
  2: rewrite (proj2 (api_accounts_frame d db (Login u p) I)).
  3: rewrite (proj2 (api_accounts_frame d db (Me a) I)).
  all: by left.
Qed.

(** X7.  The match history is append-only.  After any run of calls the old
    history is an initial segment of the new one, at most one entry has
    been added per call, and every added entry names as winner one of the
    players it lists. *)
Theorem history_is_append_only cs :
  ∀ db,
    ∃ more,
      Db.history (session pbkdf2 toLowerCase db cs) = Db.history db ++ more ∧
      (length more ≤ length cs)%nat ∧
      Forall (λ m, Match.winner m ∈ Match.players m) more.
Proof.
  induction cs as [|[d c] cs IH]; intros db.
  - exists []. by rewrite app_nil_r.
  - cbn [session]. destruct (IH (snd (api pbkdf2 toLowerCase d db c)))
      as (more & -> & Hlen & Hall).
    destruct (api_history d db c) as [->|(m & -> & Hm)].
    + exists more. split; [done|]. split; [simpl; lia|done].
    + exists (m :: more). rewrite <- app_assoc. split; [done|].
      split; [simpl; lia|]. by constructor.
Qed.

Lemma ensureStats_set_stats u s : ensureStats (set_stats u s) = s.
Proof. reflexivity. Qed.

Lemma credit_grows players winner users p i u :
  users !! i = Some u →
  ∃ u',
    credit players winner users p !! i = Some u' ∧
    credentials u' = credentials u ∧
    Stats.wins (ensureStats u) <= Stats.wins (ensureStats u') ∧
    Stats.losses (ensureStats u) <= Stats.losses (ensureStats u').
Proof.
  intros Hi. unfold credit.
  destruct (list_find _ users) as [[j uj]|] eqn:Hfind.
  2: { exists u. repeat split; (done || lia). }
  apply list_find_Some in Hfind as (Hj & _ & _).
  destruct (decide (j = i)) as [->|Hne].
  - simplify_eq. eexists. split.
    + apply list_lookup_insert_eq. by eapply lookup_lt_Some.
    + split; [done|]. rewrite !ensureStats_set_stats.
      destruct (fold_versus_totals
                  (bool_decide (Seat.id p = Seat.id winner))
                  (filter (λ op, Seat.id op ≠ Seat.id p) players)
                  (won_or_lost (bool_decide (Seat.id p = Seat.id winner))
                     (ensureStats u))) as [-> ->].
      destruct (bool_decide _); simpl; lia.
  - exists u. rewrite list_lookup_insert_ne by done.
    repeat split; (done || lia).
Qed.

Lemma aggregate_grows players winner users i u :
  users !! i = Some u →
  ∃ u',
    aggregate players winner users !! i = Some u' ∧
    credentials u' = credentials u ∧
    Stats.wins (ensureStats u) <= Stats.wins (ensureStats u') ∧
    Stats.losses (ensureStats u) <= Stats.losses (ensureStats u').
Proof.
  unfold aggregate. generalize players at 2. intros qs. revert users u.
  induction qs as [|q qs IH]; intros users u Hi.
  - exists u. repeat split; (done || lia).
  - cbn [fold_left].
    destruct (credit_grows players winner users q i u Hi)
      as (u1 & H1 & Hc1 & Hw1 & Hl1).
    destruct (IH _ u1 H1) as (u2 & H2 & Hc2 & Hw2 & Hl2).
    exists u2. split; [done|]. split; [congruence|]. lia.
Qed.

Lemma api_grows d db c i u :
  Db.users db !! i = Some u →
  ∃ u',
    Db.users (snd (api pbkdf2 toLowerCase d db c)) !! i = Some u' ∧
    credentials u' = credentials u ∧
    Stats.wins (ensureStats u) <= Stats.wins (ensureStats u') ∧
    Stats.losses (ensureStats u) <= Stats.losses (ensureStats u').
Proof.
  intros Hi.
  assert (∃ u', Db.users db !! i = Some u' ∧ credentials u' = credentials u ∧
            Stats.wins (ensureStats u) <= Stats.wins (ensureStats u') ∧
            Stats.losses (ensureStats u) <= Stats.losses (ensureStats u'))
    as Hsame by (exists u; repeat split; (done || lia)).
  rewrite api_snd. destruct c as [n p|n p|a|req].
  - unfold register.
    repeat case_match; cbn [snd Db.users]; try done.
    exists u. rewrite lookup_app_l by (by eapply lookup_lt_Some).
    repeat split; (done || lia).
  - unfold login. by repeat case_match.
  - done.
  - destruct req; unfold_handlers;
      repeat (case_match; try done); cbn [snd Db.users].
    by apply aggregate_grows.
Qed.

(** X8.  Accounts only grow.  A user record of the store keeps its place in
    [db.users] through any run of calls, with the same identifier, name,
    salt and hash, and its numbers of wins and of losses do not go down. *)
Theorem accounts_only_grow cs :
  ∀ db i u,
    Db.users db !! i = Some u →
    ∃ u',
      Db.users (session pbkdf2 toLowerCase db cs) !! i = Some u' ∧
      credentials u' = credentials u ∧
      Stats.wins (ensureStats u) <= Stats.wins (ensureStats u') ∧
      Stats.losses (ensureStats u) <= Stats.losses (ensureStats u').
Proof.
  induction cs as [|[d c] cs IH]; intros db i u Hi.
  - exists u. repeat split; (done || lia).
  - cbn [session].
    destruct (api_grows d db c i u Hi) as (u1 & H1 & Hc1 & Hw1 & Hl1).
    destruct (IH _ i u1 H1) as (u2 & H2 & Hc2 & Hw2 & Hl2).
    exists u2. split; [done|]. split; [congruence|]. lia.
Qed.

Lemma find_user_prefix (us us' : list User.t) k i u :
  map credentials us `prefix_of` map credentials us' →
  list_find (λ x, User.id x = k) us = Some (i, u) →
  ∃ u', list_find (λ x, User.id x = k) us' = Some (i, u') ∧
        credentials u' = credentials u.
Proof.
  intros [more Hmore] Hfind.
  assert (map credentials (take (length us) us') = map credentials us) as Hhead.
  { change (map credentials (take (length us) us'))
      with (credentials <$> take (length us) us').
    rewrite fmap_take.
    change (credentials <$> us') with (map credentials us').
    rewrite Hmore.
    by rewrite take_app_length' by (by rewrite length_map). }
  pose proof (find_user_credentials us (take (length us) us') k
                (eq_sym Hhead)) as Hsame.
  rewrite Hfind in Hsame. cbn in Hsame.
  destruct (list_find _ (take _ _)) as [[j u']|] eqn:Hf; simplify_eq/=.
  exists u'. split; [|unfold credentials; congruence].
  rewrite <- (take_drop (length us) us'). by apply find_user_app.
Qed.

Lemma api_sessions d db c token :
  issued d c ≠ Some token →
  Db.sessions
      (snd (api pbkdf2 toLowerCase d db c)) !! token = Db.sessions db !! token.
Proof.
  intros Hissued. rewrite api_snd.
  destruct c as [n p|n p|a|req]; cbn [issued] in Hissued.
  - unfold register.
    repeat case_match; cbn [snd Db.sessions]; try done.
    apply lookup_insert_ne. congruence.
  - unfold login.
    repeat case_match; cbn [snd Db.sessions set_sessions]; try done.
    apply lookup_insert_ne. congruence.
  - done.
  - by rewrite (proj1 (server_accounts (first d) db req)).
Qed.

(** X9.  Tokens do not expire.  A header that authenticates a user keeps
    authenticating the user with the same identifier, name, salt and hash
    through any run of calls in which no registration or login draws the
    header's token again. *)
Theorem tokens_do_not_expire a cs :
  ∀ db user,
    authUser db a = Some user →
    Forall (λ dc, issued (fst dc) (snd dc) ≠ bearer a) cs →
    ∃ user',
      authUser (session pbkdf2 toLowerCase db cs) a = Some user' ∧
      credentials user' = credentials user.
Proof.
  induction cs as [|[d c] cs IH]; intros db user Hauth Hcs.
  - by exists user.
  - apply Forall_cons in Hcs as [Hc Hcs]. cbn [fst snd] in Hc.
    cbn [session].
    assert (∃ u1, authUser (snd (api pbkdf2 toLowerCase d db c)) a = Some u1 ∧
                  credentials u1 = credentials user) as (u1 & H1 & Hc1).
    { rewrite authUser_bearer in Hauth. rewrite authUser_bearer.
      destruct (bearer a) as [[|ch token]|] eqn:Hb; try done.
      rewrite api_sessions by done.
      destruct (Db.sessions db !! String ch token) as [[|ch' uid]|];
        try done.
      apply fmap_Some in Hauth as ([i u] & Hf & ->).
      destruct (find_user_prefix _ _ _ _ _ (api_credentials d db c) Hf)
        as (u' & Hf' & Hcu).
      exists u'. by rewrite Hf'. }
    destruct (IH _ u1 H1 Hcs) as (u2 & H2 & Hc2).
    exists u2. split; [done|congruence].
Qed.

Lemma lowered_names (us us' : list User.t) :
  map credentials us = map credentials us' →
  map (λ u, toLowerCase (User.username u)) us
    = map (λ u, toLowerCase (User.username u)) us'.
Proof.
  intros Hc.
  assert (∀ l : list User.t,
            map (λ u, toLowerCase (User.username u)) l
            = map (λ c, toLowerCase c.1.1.2) (map credentials l)) as Hl
    by (intros l; rewrite map_map; by apply map_ext).
  by rewrite !Hl, Hc.
Qed.

Lemma api_names d db c :
  NoDup (map (λ u, toLowerCase (User.username u)) (Db.users db)) →
  NoDup (map (λ u, toLowerCase (User.username u))
           (Db.users (snd (api pbkdf2 toLowerCase d db c)))).
Proof.
  intros Hnd. rewrite api_snd. destruct c as [n p|n p|a|req].
  - unfold register.
    destruct (missing n || missing p); [done|].
    destruct (existsb _ _) eqn:Hex; [done|].
    cbn [hashPassword snd Db.users]. rewrite map_app.
    apply NoDup_app. split; [done|]. split; [|apply NoDup_singleton].
    intros x Hx Hx'. apply list_elem_of_singleton in Hx'. subst x.
    apply list_elem_of_fmap in Hx as (u & Hu & Hin).
    assert (existsb (λ u, String.eqb (toLowerCase (User.username u))
                            (toLowerCase (default EmptyString n)))
              (Db.users db) = true) as Htrue; [|congruence].
    apply existsb_exists. exists u. split; [by apply list_elem_of_In|].
    apply String.eqb_eq. simpl in Hu. congruence.
  - unfold login. by repeat case_match.
  - done.
  - by rewrite (lowered_names _ _
                  (proj2 (server_accounts (first d) db req))).
Qed.

(** X10.  User names stay unique up to [toLowerCase], whatever that
    library function does to a string: if no two users of the store have
    names with the same [toLowerCase], the same holds after any run of
    calls, so the lookup of a login has at most one candidate. *)
Theorem usernames_stay_unique cs :
  ∀ db,
    NoDup (map (λ u, toLowerCase (User.username u)) (Db.users db)) →
    NoDup (map (λ u, toLowerCase (User.username u))
             (Db.users (session pbkdf2 toLowerCase db cs))).
Proof.
  induction cs as [|[d c] cs IH]; intros db Hnd; [done|].
  cbn [session]. by apply IH, api_names.
Qed.

(** A handler that does not reach its answer 200 has not touched the
    store. *)
Lemma register_refused d db n p :
  status (fst (register pbkdf2 toLowerCase d db n p)) ≠ 200 →
  snd (register pbkdf2 toLowerCase d db n p) = db.
Proof.
  unfold register, hashPassword.
  repeat case_match; cbn [fst snd status]; intros Hs; (done || by destruct Hs).
Qed.

Lemma login_refused d db n p :
  status (fst (login pbkdf2 toLowerCase d db n p)) ≠ 200 →
  snd (login pbkdf2 toLowerCase d db n p) = db.
Proof.
  unfold login, hashPassword.
  repeat case_match; cbn [fst snd status]; intros Hs; (done || by destruct Hs).
Qed.

Lemma server_refused e db req :
  code (fst (server e db req)) ≠ 200 → snd (server e db req) = db.
Proof.
  destruct req; unfold_handlers;
    repeat case_match; simplify_eq; cbn [fst snd code];
    intros Hs; (done || by destruct Hs).
Qed.

(** [save()] turns an answer 200 into 500 when the file cannot be written
    and changes nothing else. *)
Lemma saved_refused d r db :
  (status (fst r) ≠ 200 → snd r = db) →
  status (fst (saved d r)) ≠ 200 →
  written d = true ∨ status (fst (saved d r)) ≠ 500 →
  snd (saved d r) = db.
Proof.
  unfold saved, save. intros Hr.
  destruct (status (fst r) =? 200) eqn:Hok.
  - destruct (written d); cbn [fst snd status].
    + intros Hs. apply Z.eqb_eq in Hok. done.
    + intros _ [Hw|Hs]; done.
  - intros Hs _. by apply Hr.
Qed.

Lemma api_refused d db c :
  status (fst (api pbkdf2 toLowerCase d db c)) ≠ 200 →
  written d = true ∨ status (fst (api pbkdf2 toLowerCase d db c)) ≠ 500 →
  snd (api pbkdf2 toLowerCase d db c) = db.
Proof.
  destruct c as [n p|n p|a|req]; cbn [api].
  - apply saved_refused, register_refused.
  - apply saved_refused, login_refused.
  - unfold me.
    case_match; cbn [fst snd status]; intros Hs; (done || by destruct Hs).
  - apply saved_refused. cbn [lift fst snd status]. apply server_refused.
Qed.

(** The store after a call does not depend on whether the file could be
    written. *)
Lemma api_writing b d db c :
  snd (api pbkdf2 toLowerCase (writing b d) db c)
  = snd (api pbkdf2 toLowerCase d db c).
Proof. rewrite !api_snd. by destruct c. Qed.

(** X11.  Whatever the route, a call that is not answered 200 leaves the
    store exactly as it was, unless it is answered 500 because [save()]
    could not write the file: a refused registration, a failed login, the
    500 of a login without password and every refusal of a room handler
    change nothing.  When the file cannot be written, a call whose handler
    has done its work is answered 500, and the store keeps what the
    handler did: it is the store the same call leaves behind when the
    file can be written. *)
Theorem refused_call_leaves_store_unchanged d db c :
  (status (fst (api pbkdf2 toLowerCase d db c)) ≠ 200 →
   written d = true ∨ status (fst (api pbkdf2 toLowerCase d db c)) ≠ 500 →
   snd (api pbkdf2 toLowerCase d db c) = db) ∧
  (written d = false →
   match c with Me _ => False | _ => True end →
   status (fst (api pbkdf2 toLowerCase (writing true d) db c)) = 200 →
   status (fst (api pbkdf2 toLowerCase d db c)) = 500 ∧
   snd (api pbkdf2 toLowerCase d db c)
   = snd (api pbkdf2 toLowerCase (writing true d) db c)).
Proof.
  split; [apply api_refused|].
  intros Hw Hc Hok. split; [|symmetry; apply api_writing].
  destruct c as [n p|n p|a|req]; [| |done|];
    cbn [api] in *; unfold saved, save in *;
    cbn [writing written first second_uuid random_salt] in *;
    rewrite Hw.
  - change (register pbkdf2 toLowerCase (writing true d) db n p)
      with (register pbkdf2 toLowerCase d db n p) in Hok.
    by destruct (status _ =? 200) eqn:H200;
      [|apply Z.eqb_neq in H200].
  - change (login pbkdf2 toLowerCase (writing true d) db n p)
      with (login pbkdf2 toLowerCase d db n p) in Hok.
    by destruct (status _ =? 200) eqn:H200;
      [|apply Z.eqb_neq in H200].
  - by destruct (status _ =? 200) eqn:H200;
      [|apply Z.eqb_neq in H200].
Qed.

(** X12.  Registration opens a session.  When a registration is accepted,
    the identifier drawn for the user is not empty and not the identifier
    of an earlier user, and the token drawn is not empty, then the header
    ["Bearer " ++ token] authenticates the new user, and GET /api/me
    answers 200 with the new user's identifier and name and statistics of
    zero wins and losses. *)
Theorem register_opens_session d db name pass :
  status (fst (register pbkdf2 toLowerCase d db
      (Some name) (Some pass))) = 200 →
  uuid (first d) ≠ EmptyString →
  second_uuid d ≠ EmptyString →
  uuid (first d) ∉ map User.id (Db.users db) →
  let db' := snd (register pbkdf2 toLowerCase d db (Some name) (Some pass)) in
  let user :=
    User.mk (uuid (first d)) name (random_salt d)
      (pbkdf2 pass (random_salt d)) (Some (Stats.mk 0 0 ∅)) in
  authUser db' (String.append "Bearer " (second_uuid d)) = Some user ∧
  me db' (String.append "Bearer " (second_uuid d))
    = (reply 200
         (Account (Profile.mk (uuid (first d)) name (Some (Stats.mk 0 0 ∅)))),
       db').
Proof.
  intros Hok Hid Htok Hfresh db' user.
  assert (db' = Db.mk (Db.users db ++ [user])
                  (<[second_uuid d := uuid (first d)]> (Db.sessions db))
                  (Db.rooms db) (Db.history db)) as Hdb'.
  { subst db'. unfold register in *.
    destruct (missing _ || missing _); [done|].
    destruct (existsb _ _); done. }
  assert (authUser db' (String.append "Bearer " (second_uuid d)) = Some user)
    as Hauth.
  { apply authUser_iff.
    exists (second_uuid d), (uuid (first d)), (length (Db.users db)).
    rewrite Hdb'. cbn [Db.sessions Db.users].
    split; [done|]. split; [done|]. split; [apply lookup_insert_eq|].
    split; [done|]. apply list_find_Some. split; [|split].
    - by rewrite lookup_app_r, Nat.sub_diag.
    - done.
    - intros j y Hj Hlt Hy. rewrite lookup_app_l in Hj by done.
      apply Hfresh. apply list_elem_of_fmap. exists y. split; [done|].
      by eapply list_elem_of_lookup_2. }
  split; [done|]. unfold me. by rewrite Hauth.
Qed.

Lemma existsb_lowered_false (us : list User.t) name :
  existsb (λ u, String.eqb (toLowerCase (User.username u)) (toLowerCase name))
    us = false →
  list_find (λ u, toLowerCase (User.username u) = toLowerCase name) us = None.
Proof.
  intros Hex. apply list_find_None. apply Forall_forall. intros u Hu Heq.
  assert (existsb (λ u, String.eqb (toLowerCase (User.username u))
                          (toLowerCase name)) us = true) as Ht; [|congruence].
  apply existsb_exists. exists u. split; [by apply list_elem_of_In|].
  by apply String.eqb_eq.
Qed.

(** X13.  Register, then log in.  After an accepted registration, a login
    with the same password under any name that [toLowerCase] maps to the
    same string as the registered name is answered 200 with the token
    drawn and the new user's identifier, name and statistics.  In the
    store it leaves, the token leads to the new user's identifier, every
    other session is as before, and so are the users, the rooms and the
    history. *)
Theorem login_after_register d d2 db name name' pass :
  status (fst (register pbkdf2 toLowerCase d db
      (Some name) (Some pass))) = 200 →
  toLowerCase name' = toLowerCase name →
  let db' := snd (register pbkdf2 toLowerCase d db (Some name) (Some pass)) in
  let r := login pbkdf2 toLowerCase d2 db' (Some name') (Some pass) in
  fst r =
    reply 200
      (Issued (uuid (first d2))
         (Profile.mk (uuid (first d)) name (Some (Stats.mk 0 0 ∅)))) ∧
  Db.sessions (snd r) !! uuid (first d2) = Some (uuid (first d)) ∧
  (∀ token, token ≠ uuid (first d2) →
     Db.sessions (snd r) !! token = Db.sessions db' !! token) ∧
  Db.users (snd r) = Db.users db' ∧
  Db.rooms (snd r) = Db.rooms db' ∧
  Db.history (snd r) = Db.history db'.
Proof.
  assert (∀ db' r',
            r' = (reply 200
                    (Issued (uuid (first d2))
                       (Profile.mk (uuid (first d)) name
                          (Some (Stats.mk 0 0 ∅)))),
                  set_sessions db'
                    (<[uuid (first d2) := uuid (first d)]>
                       (Db.sessions db'))) →
            fst r' =
              reply 200
                (Issued (uuid (first d2))
                   (Profile.mk (uuid (first d)) name
                      (Some (Stats.mk 0 0 ∅)))) ∧
            Db.sessions (snd r') !! uuid (first d2)
              = Some (uuid (first d)) ∧
            (∀ token, token ≠ uuid (first d2) →
               Db.sessions (snd r') !! token = Db.sessions db' !! token) ∧
            Db.users (snd r') = Db.users db' ∧
            Db.rooms (snd r') = Db.rooms db' ∧
            Db.history (snd r') = Db.history db') as Hshape.
  { intros db' r' ->. cbn [fst snd set_sessions Db.sessions Db.users
                           Db.rooms Db.history].
    split; [done|]. split; [apply lookup_insert_eq|].
    split; [|done]. intros token Ht. by apply lookup_insert_ne. }
  intros Hok Hname db' r. apply Hshape. subst r.
  subst db'. clear Hshape. unfold register in *.
  destruct (missing _ || missing _); [done|].
  destruct (existsb _ _) eqn:Hex; [done|].
  cbn [hashPassword snd default from_option id] in *.
  apply existsb_lowered_false in Hex.
  unfold login. cbn [default from_option id Db.users].
  rewrite Hname.
  set (user := User.mk (uuid (first d)) name (random_salt d)
                 (pbkdf2 pass (random_salt d)) (Some (Stats.mk 0 0 ∅))).
  assert (list_find (λ u, toLowerCase (User.username u) = toLowerCase name)
            (Db.users db ++ [user])
          = Some (length (Db.users db), user)) as ->.
  { apply list_find_app_Some. right. split; [done|]. split; [exact Hex|].
    rewrite Nat.sub_diag. simpl. by rewrite decide_True. }
  cbn [hashPassword User.salt User.hash]. rewrite String.eqb_refl.
  cbn [negb]. done.
Qed.

(** ** The listener *)

Lemma split_path_plain s : no_slash s = true → split_path s = [s].
Proof.
  induction s as [|c s IH]; [done|]. cbn [no_slash split_path].
  intros [Hc Hs]%andb_true_iff. apply negb_true_iff in Hc.
  by rewrite Hc, IH.
Qed.

Lemma split_path_append s t :
  no_slash s = true →
  split_path (String.append s (String "/" t)) = s :: split_path t.
Proof.
  induction s as [|c s IH].
  - intros _. rewrite append_nil. reflexivity.
  - cbn [no_slash]. intros [Hc Hs]%andb_true_iff.
    apply negb_true_iff in Hc.
    rewrite append_cons. cbn [split_path]. by rewrite Hc, IH.
Qed.

Lemma room_route_read rid :
  no_slash rid = true → rid ≠ EmptyString →
  room_route (String.append "/api/rooms/" rid) = Some (rid, None).
Proof.
  intros Hs Hne. unfold room_route.
  change (String.append "/api/rooms/" rid)
    with (String.append EmptyString (String "/"
           (String.append "api" (String "/"
              (String.append "rooms" (String "/" rid)))))).
  rewrite !split_path_append by reflexivity. rewrite split_path_plain by done.
  cbn. by destruct rid.
Qed.

Lemma room_route_action rid action :
  no_slash rid = true → rid ≠ EmptyString → no_slash action = true →
  room_route (String.append "/api/rooms/"
                (String.append rid (String "/" action)))
    = Some (rid, Some action).
Proof.
  intros Hs Hne Ha. unfold room_route.
  change (String.append "/api/rooms/"
            (String.append rid (String "/" action)))
    with (String.append EmptyString (String "/"
           (String.append "api" (String "/"
              (String.append "rooms" (String "/"
                 (String.append rid (String "/" action)))))))).
  rewrite !split_path_append by (reflexivity || done).
  rewrite split_path_plain by done.
  cbn. by destruct rid.
Qed.

(** A refusal passes [save()] as it is, and so does every answer when the
    file can be written. *)
Lemma saved_written d r : written d = true → saved d r = r.
Proof. intros Hw. unfold saved, save. rewrite Hw. by case_match. Qed.

Lemma answered_lift r : answered (lift r) = plain r.
Proof. reflexivity. Qed.

Lemma start_route_readable d db a rid raw state :
  readBody raw ≫= field "state" = Some state →
  start_route d db a rid raw
  = answered (saved d (lift (start db a rid state))).
Proof.
  intros Hb. unfold start_route, start. rewrite Hb.
  by repeat case_match.
Qed.

Lemma state_route_readable d db a rid raw b state w :
  readBody raw = Some b →
  field "state" b = Some state →
  field "reportWinnerId" b = Some w →
  state_route d db a rid raw
  = answered (saved d (lift (update (first d) db a rid state w))).
Proof.
  intros Hb Hs Hw. unfold state_route. rewrite Hb, Hs, Hw.
  unfold update.
  destruct (authUser db a); [|done].
  destruct (Db.rooms db !! rid); [|done].
  by destruct (negb _).
Qed.

Lemma create_route_readable d db a raw mp :
  readBody raw ≫= field "maxPlayers" = Some mp →
  plain_number mp = true →
  create_route d db a raw
  = answered (saved d (lift (create (first d) db a mp))).
Proof.
  intros Hb Hmp. unfold create_route. rewrite Hb. unfold create.
  destruct (authUser db a); [|done].
  assert (unprintable (or_else mp (VNum (of_Z 4))) = false) as ->; [|done].
  unfold or_else. by destruct mp, (truthy _).
Qed.

Lemma finds_member_own db rid :
  inherited rid = false → finds_member db rid = false.
Proof. intros Hrid. unfold finds_member. by case_match. Qed.

(** X20.  The listener hands room requests to the handlers.  Take a room
    identifier that is not empty, has no slash and is not the name of an
    inherited member, and a request during which the file can be written.
    A POST to [/api/rooms/<id>/join] is answered as [join] answers for
    that identifier and a GET of [/api/rooms/<id>] as [read] does,
    whatever the body; a POST to [/api/rooms/<id>/start] or
    [/api/rooms/<id>/state] whose body can be read is answered as [start]
    or [update] answer on the fields of the body; and a POST to
    [/api/rooms] whose body can be read and whose [maxPlayers] is absent,
    [null], a boolean or a number is answered as [create] answers. *)
Theorem listener_routes_room_requests d db a raw rid :
  no_slash rid = true → rid ≠ EmptyString →
  inherited rid = false →
  written d = true →
  listener pbkdf2 toLowerCase d db "POST"
    (String.append "/api/rooms/" (String.append rid "/join")) a raw
    = plain (join db a rid) ∧
  listener pbkdf2 toLowerCase d db "GET" (String.append "/api/rooms/" rid) a raw
    = plain (read db a rid) ∧
  (∀ state,
     readBody raw ≫= field "state" = Some state →
     listener pbkdf2 toLowerCase d db "POST"
       (String.append "/api/rooms/" (String.append rid "/start")) a raw
       = plain (start db a rid state)) ∧
  (∀ b state w,
     readBody raw = Some b →
     field "state" b = Some state →
     field "reportWinnerId" b = Some w →
     listener pbkdf2 toLowerCase d db "POST"
       (String.append "/api/rooms/" (String.append rid "/state")) a raw
       = plain (update (first d) db a rid state w)) ∧
  (∀ maxPlayers,
     readBody raw ≫= field "maxPlayers" = Some maxPlayers →
     plain_number maxPlayers = true →
     listener pbkdf2 toLowerCase d db "POST" "/api/rooms" a raw
       = plain (create (first d) db a maxPlayers)).
Proof.
  intros Hs Hne Hown%(finds_member_own db) Hw.
  assert (∀ t, String.eqb (String.append "/api/rooms/" t) "/api/register"
               = false ∧
               String.eqb (String.append "/api/rooms/" t) "/api/login"
               = false ∧
               String.eqb (String.append "/api/rooms/" t) "/api/me" = false ∧
               String.eqb (String.append "/api/rooms/" t) "/api/rooms"
               = false) as Hpaths.
  { intros t. rewrite !append_cons, append_nil. by destruct t. }
  split; [|split; [|split; [|split]]].
  - unfold listener. destruct (Hpaths (String.append rid "/join"))
      as (-> & -> & -> & ->).
    cbn [String.eqb Ascii.eqb Bool.eqb andb].
    rewrite (room_route_action rid "join" Hs Hne eq_refl).
    cbn [String.eqb Ascii.eqb Bool.eqb andb].
    by rewrite Hown, saved_written.
  - unfold listener. destruct (Hpaths rid) as (-> & -> & -> & ->).
    cbn [String.eqb Ascii.eqb Bool.eqb andb].
    rewrite (room_route_read rid Hs Hne).
    by rewrite Hown, saved_written.
  - intros state Hb. unfold listener.
    destruct (Hpaths (String.append rid "/start")) as (-> & -> & -> & ->).
    cbn [String.eqb Ascii.eqb Bool.eqb andb].
    rewrite (room_route_action rid "start" Hs Hne eq_refl).
    cbn [String.eqb Ascii.eqb Bool.eqb andb].
    rewrite Hown, (start_route_readable d db a rid raw state Hb).
    by rewrite saved_written.
  - intros b state w Hb Hst Hwin. unfold listener.
    destruct (Hpaths (String.append rid "/state")) as (-> & -> & -> & ->).
    cbn [String.eqb Ascii.eqb Bool.eqb andb].
    rewrite (room_route_action rid "state" Hs Hne eq_refl).
    cbn [String.eqb Ascii.eqb Bool.eqb andb].
    rewrite Hown, (state_route_readable d db a rid raw b state w Hb Hst Hwin).
    by rewrite saved_written.
  - intros mp Hb Hmp. unfold listener.
    cbn [String.eqb Ascii.eqb Bool.eqb andb].
    rewrite (create_route_readable d db a raw mp Hb Hmp).
    by rewrite saved_written.
Qed.

(** What the listener does with the answer of a handler that saves. *)
Lemma answered_saved_refused d r db ans db' :
  (status (fst r) ≠ 200 → snd r = db) →
  answered (saved d r) = Done ans db' →
  status ans ≠ 200 →
  written d = true ∨ status ans ≠ 500 →
  db' = db.
Proof.
  unfold answered. intros Hr [= <- <-]. by apply saved_refused.
Qed.

Lemma lift_refused e db req :
  status (fst (lift (server e db req))) ≠ 200 →
  snd (lift (server e db req)) = db.
Proof. cbn [lift fst snd status]. apply server_refused. Qed.

Lemma with_credentials_refused d db raw handler ans db' :
  (∀ u p, status (fst (handler u p)) ≠ 200 → snd (handler u p) = db) →
  with_credentials (λ u p, saved d (handler u p)) db raw = Done ans db' →
  status ans ≠ 200 →
  written d = true ∨ status ans ≠ 500 →
  db' = db.
Proof.
  intros Hh. unfold with_credentials, thrown.
  repeat case_match; try done; try (by intros [= <- <-]).
  apply answered_saved_refused, Hh.
Qed.

Lemma member_route_refused db a start ans db' :
  member_route db a start = Done ans db' →
  status ans ≠ 200 → db' = db.
Proof. unfold member_route. repeat case_match; by intros [= <- <-]. Qed.

Lemma listener_refused d db method pathname a raw ans db' :
  listener pbkdf2 toLowerCase d db method pathname a raw = Done ans db' →
  status ans ≠ 200 →
  written d = true ∨ status ans ≠ 500 →
  db' = db.
Proof.
  unfold listener.
  destruct (String.eqb method "OPTIONS"); [by intros [= <- <-]|].
  destruct (_ && String.eqb pathname "/api/register").
  { apply with_credentials_refused. intros u p. apply register_refused. }
  destruct (_ && String.eqb pathname "/api/login").
  { apply with_credentials_refused. intros u p. apply login_refused. }
  destruct (_ && String.eqb pathname "/api/me").
  { unfold answered, me. case_match; by intros [= <- <-]. }
  destruct (_ && String.eqb pathname "/api/rooms").
  { unfold create_route, thrown.
    repeat case_match; try (by intros [= <- <-]).
    apply answered_saved_refused, (lift_refused (first d) _ (PostRooms a _)). }
  destruct (room_route pathname) as [[rid [action|]]|];
    [| |by intros [= <- <-]].
  - destruct (_ && String.eqb action "join").
    { destruct (finds_member db rid);
        [intros Hm Hs _; by eapply member_route_refused|].
      apply answered_saved_refused,
        (lift_refused (first d) _ (PostJoin a rid)). }
    destruct (_ && String.eqb action "start").
    { destruct (finds_member db rid);
        [intros Hm Hs _; by eapply member_route_refused|].
      unfold start_route, thrown.
      repeat case_match; try (by intros [= <- <-]).
      apply answered_saved_refused,
        (lift_refused (first d) _ (PostStart a rid _)). }
    destruct (_ && String.eqb action "state"); [|by intros [= <- <-]].
    destruct (finds_member db rid);
        [intros Hm Hs _; by eapply member_route_refused|].
    unfold state_route, thrown.
    repeat case_match; try (by intros [= <- <-]).
    apply answered_saved_refused,
      (lift_refused (first d) _ (PostState a rid _ _)).
  - destruct (String.eqb method "GET"); [|by intros [= <- <-]].
    destruct (finds_member db rid);
        [intros Hm Hs _; by eapply member_route_refused|].
    apply answered_saved_refused, (lift_refused (first d) _ (GetRoom a rid)).
Qed.

(** What changes when the file cannot be written: nothing in the store,
    and of the answer at most that it is the 500 of the [catch]. *)
Lemma same_outcome (o : outcome) ans db' ans2 db2 :
  o = Done ans db' → o = Done ans2 db2 →
  db2 = db' ∧ (ans2 = ans ∨ ans2 = reply 500 Thrown).
Proof. intros -> [= <- <-]. auto. Qed.

Lemma answered_saved_writing d r ans db' ans2 db2 :
  answered (saved d r) = Done ans db' →
  answered (saved (writing false d) r) = Done ans2 db2 →
  db2 = db' ∧ (ans2 = ans ∨ ans2 = reply 500 Thrown).
Proof.
  unfold answered, saved, save. cbn [writing written].
  destruct (status (fst r) =? 200), (written d); cbn [fst snd];
    intros [= <- <-] [= <- <-]; auto.
Qed.

Lemma with_credentials_writing d db raw handler ans db' ans2 db2 :
  with_credentials (λ u p, saved d (handler u p)) db raw = Done ans db' →
  with_credentials (λ u p, saved (writing false d) (handler u p)) db raw
    = Done ans2 db2 →
  db2 = db' ∧ (ans2 = ans ∨ ans2 = reply 500 Thrown).
Proof.
  unfold with_credentials, thrown.
  repeat case_match; try done;
    try (intros [= <- <-] [= <- <-]; by auto).
  apply answered_saved_writing.
Qed.

Lemma listener_writing d db method pathname a raw ans db' ans2 db2 :
  listener pbkdf2 toLowerCase d db method pathname a raw = Done ans db' →
  listener pbkdf2 toLowerCase (writing false d) db method pathname a raw
    = Done ans2 db2 →
  db2 = db' ∧ (ans2 = ans ∨ ans2 = reply 500 Thrown).
Proof.
  unfold listener.
  change (register pbkdf2 toLowerCase (writing false d))
    with (register pbkdf2 toLowerCase d).
  change (login pbkdf2 toLowerCase (writing false d))
    with (login pbkdf2 toLowerCase d).
  destruct (String.eqb method "OPTIONS");
    [intros [= <- <-] [= <- <-]; by auto|].
  destruct (_ && String.eqb pathname "/api/register").
  { apply with_credentials_writing. }
  destruct (_ && String.eqb pathname "/api/login").
  { apply with_credentials_writing. }
  destruct (_ && String.eqb pathname "/api/me").
  { intros Ha Hb. rewrite Ha in Hb. injection Hb as <- <-. auto. }
  destruct (_ && String.eqb pathname "/api/rooms").
  { unfold create_route, thrown. cbn [writing first].
    repeat case_match; try (intros [= <- <-] [= <- <-]; by auto).
    apply answered_saved_writing. }
  destruct (room_route pathname) as [[rid [action|]]|];
    [| |intros [= <- <-] [= <- <-]; by auto].
  - destruct (_ && String.eqb action "join").
    { destruct (finds_member db rid); [apply same_outcome|].
      apply answered_saved_writing. }
    destruct (_ && String.eqb action "start").
    { destruct (finds_member db rid); [apply same_outcome|].
      unfold start_route, thrown.
      repeat case_match; try (intros [= <- <-] [= <- <-]; by auto).
      apply answered_saved_writing. }
    destruct (_ && String.eqb action "state");
      [|intros [= <- <-] [= <- <-]; by auto].
    destruct (finds_member db rid); [apply same_outcome|].
    unfold state_route, thrown. cbn [writing first].
    repeat case_match; try (intros [= <- <-] [= <- <-]; by auto).
    apply answered_saved_writing.
  - destruct (String.eqb method "GET");
      [|intros [= <- <-] [= <- <-]; by auto].
    destruct (finds_member db rid); [apply same_outcome|].
    apply answered_saved_writing.
Qed.

(** X21.  Whatever the method, the path, the header and the body, a
    request that the listener does not answer 200 leaves the store exactly
    as it was, unless the answer is the 500 of a [save()] that could not
    write the file: the 404 of an unknown route, the 500 of a body that
    cannot be read or of a login without password, and every refusal of a
    handler change nothing.  And the store a request leaves behind does
    not depend on whether the file could be written: when it could not,
    the store is the same and the answer is the same or 500. *)
Theorem listener_refusal_leaves_store d db method pathname a raw ans db' :
  listener pbkdf2 toLowerCase d db method pathname a raw = Done ans db' →
  (status ans ≠ 200 → written d = true ∨ status ans ≠ 500 → db' = db) ∧
  (∀ ans2 db2,
     listener pbkdf2 toLowerCase (writing false d) db method pathname a raw
       = Done ans2 db2 →
     db2 = db' ∧ (ans2 = ans ∨ ans2 = reply 500 Thrown)).
Proof.
  intros Hl. split.
  - by apply (listener_refused d db method pathname a raw).
  - intros ans2 db2. by apply listener_writing.
Qed.

Lemma unreadable_field raw k :
  unreadable raw → readBody raw ≫= field k = None.
Proof. by intros [->| ->]. Qed.

Lemma with_credentials_unreadable handler db raw :
  unreadable raw → with_credentials handler db raw = thrown db.
Proof. by intros [->| ->]. Qed.

(** X22.  A body that cannot be read changes nothing.  On the routes that
    read the body (POST to register, login, rooms, start and state) a
    request whose body does not parse or is [null] is never answered 200
    and leaves the store as it was.  All other routes do not look at the
    body. *)
Theorem unreadable_body_changes_nothing d db method pathname a raw :
  (reads_body method pathname = true →
   unreadable raw →
   ∃ ans,
     listener pbkdf2 toLowerCase d db method pathname a raw = Done ans db ∧
     status ans ≠ 200) ∧
  (reads_body method pathname = false →
   ∀ raw',
     listener pbkdf2 toLowerCase d db method pathname a raw
     = listener pbkdf2 toLowerCase d db method pathname a raw').
Proof.
  unfold reads_body, listener. split.
  - intros Hreads Hraw.
    apply andb_true_iff in Hreads as [Hpost Hpath].
    apply String.eqb_eq in Hpost. subst method.
    cbn [String.eqb Ascii.eqb Bool.eqb andb].
    destruct (String.eqb pathname "/api/register").
    { rewrite with_credentials_unreadable by done. by eexists. }
    destruct (String.eqb pathname "/api/login").
    { rewrite with_credentials_unreadable by done. by eexists. }
    destruct (String.eqb pathname "/api/rooms").
    { unfold create_route. rewrite unreadable_field by done.
      destruct (authUser db a); by eexists. }
    cbn [orb] in Hpath.
    destruct (room_route pathname) as [[rid [action|]]|]; try done.
    destruct (String.eqb_spec action "join") as [->|_]; [done|].
    destruct (String.eqb action "start").
    { unfold start_route, member_route. rewrite unreadable_field by done.
      repeat case_match; by eexists. }
    destruct (String.eqb action "state"); [|done].
    unfold state_route, member_route.
    destruct (finds_member db rid); [destruct (authUser db a); by eexists|].
    destruct (authUser db a); [|by eexists].
    destruct (Db.rooms db !! rid); [|by eexists].
    destruct (negb _); [by eexists|].
    destruct Hraw as [->| ->]; by eexists.
  - intros Hreads raw'.
    destruct (String.eqb method "OPTIONS"); [done|].
    destruct (String.eqb method "POST"); cbn [andb] in *.
    + destruct (String.eqb pathname "/api/register"); [done|].
      destruct (String.eqb pathname "/api/login"); [done|].
      destruct (String.eqb pathname "/api/rooms"); [done|].
      cbn [orb] in Hreads.
      destruct (String.eqb method "GET" && _); [done|].
      destruct (room_route pathname) as [[rid [action|]]|]; try done.
      destruct (String.eqb action "join"); [done|].
      apply orb_false_iff in Hreads as [-> ->]. done.
    + destruct (String.eqb method "GET" && _); [done|].
      by destruct (room_route pathname) as [[rid [action|]]|].
Qed.

End Api.

(** ** More on the room routes *)

(** X14.  Capacity of a new room.  When an authenticated caller creates a
    room with a [maxPlayers] that is absent, [null], a boolean or a
    number, the request is answered 200 and the store then holds, under
    the first eight characters of the UUID drawn, a room of the caller
    alone, not started, at revision 0; every other room, the users, the
    sessions and the history are as they were.  The capacity of the room
    is 4 when the argument is absent or falsy ([null], [false], 0,
    [NaN]); it is 2 for [true]; for a number [q] other than 0 it is 2 when
    [q <= 2], [q] itself, whole or not, when [2 < q < 4], and 4 when
    [4 <= q]; it is 4 for [Infinity] and 2 for [-Infinity]. *)
Theorem create_sets_capacity e db a mp user :
  authUser db a = Some user →
  plain_number mp = true →
  code (fst (create e db a mp)) = 200 ∧
  same_but_room (String.substring 0 8 (uuid e)) db (snd (create e db a mp)) ∧
  ∃ room,
    Db.rooms (snd (create e db a mp)) !! String.substring 0 8 (uuid e)
      = Some room ∧
    Room.players room = [Seat.mk (User.id user) (User.username user) true] ∧
    Room.hostId room = User.id user ∧
    Room.started room = false ∧
    Room.revision room = 0 ∧
    match mp with
    | VUndefined | VNull | VBool false | VNum NaN | VNum (Inf false) =>
        Room.maxPlayers room = of_Z 4
    | VBool true | VNum (Inf true) => Room.maxPlayers room = of_Z 2
    | VNum (Fin q) =>
        ((q == 0)%Q → Room.maxPlayers room = of_Z 4) ∧
        (¬ (q == 0)%Q → (q <= 2)%Q → Room.maxPlayers room = of_Z 2) ∧
        ((2 < q)%Q → (q < 4)%Q → Room.maxPlayers room = Fin q) ∧
        ((4 <= q)%Q → Room.maxPlayers room = of_Z 4)
    | _ => True
    end.
Proof.
  intros Hauth Hmp. unfold create. rewrite Hauth. cbn [fst snd code Room.id].
  split; [done|]. split; [apply put_room_frame|].
  eexists. rewrite lookup_put_room, decide_True by done.
  split; [done|].
  cbn [Room.players Room.hostId Room.started Room.revision Room.maxPlayers].
  do 4 (split; [done|]).
  destruct mp as [ | |[]|[|[]|q]|s|items|props]; try done.
  unfold or_else. cbn [truthy].
  destruct (Qeq_bool q 0) eqn:Hz; cbn [negb Number].
  - apply Qeq_bool_iff in Hz.
    split; [done|]. split; [done|]. split; intros; exfalso; lra.
  - assert (¬ (q == 0)%Q) as Hnz.
    { intros Hq. apply Qeq_bool_iff in Hq. congruence. }
    split; [done|]. split; [|split].
    all: unfold Math_min, Math_max, of_Z, num_lt.
    all: change (inject_Z 2) with 2%Q; change (inject_Z 4) with 4%Q.
    all: destruct (Qlt_bool q 4) eqn:H4;
      [apply Qlt_bool_true in H4|apply Qlt_bool_false in H4].
    all: try (assert (Qlt_bool 2 4 = true) as -> by reflexivity).
    all: try (destruct (Qlt_bool 2 q) eqn:H2;
              [apply Qlt_bool_true in H2|apply Qlt_bool_false in H2]).
    all: intros; (done || (exfalso; lra)).
Qed.

(** X15.  A room whose [maxPlayers] is [NaN] never fills up: as long as it
    is not started, the join of every authenticated caller who is not
    seated yet is accepted, however many players the room has. *)
Theorem room_without_capacity_never_fills db a rid user room :
  authUser db a = Some user →
  Db.rooms db !! rid = Some room →
  Room.maxPlayers room = NaN →
  Room.started room = false →
  list_find (λ p, Seat.id p = User.id user) (Room.players room) = None →
  code (fst (join db a rid)) = 200 ∧
  Room.players <$> Db.rooms (snd (join db a rid)) !! rid
    = Some (Room.players room ++ [seat_of user]).
Proof.
  intros Hauth Hroom Hmax Hst Hseat. unfold join.
  rewrite Hauth, Hroom, Hseat, Hmax, Hst. cbn [orb num_ge of_nat fst snd code].
  split; [done|]. by rewrite lookup_put_room, decide_True.
Qed.

(** X16.  A winner report that names no seated player is ignored, also in
    a started room: if [reportWinnerId] is not the identifier of a seated
    player (in particular if it is not a string), the update of a seated
    caller is answered 200 with the new revision, and the room as stored
    afterwards has the new state, a revision one higher, the same players
    and [started] as it was; the other rooms, the users with their
    statistics, the sessions and the history are as before. *)
Theorem unresolved_winner_is_ignored e db a rid state w user room :
  authUser db a = Some user →
  Db.rooms db !! rid = Some room →
  existsb (λ p, String.eqb (Seat.id p) (User.id user)) (Room.players room)
    = true →
  (∀ p, p ∈ Room.players room → w ≠ VStr (Seat.id p)) →
  fst (update e db a rid state w)
    = json 200 (OkBody (Room.revision room + 1)) ∧
  same_but_room rid db (snd (update e db a rid state w)) ∧
  ∃ room',
    Db.rooms (snd (update e db a rid state w)) !! rid = Some room' ∧
    Room.state room' = state ∧
    Room.revision room' = Room.revision room + 1 ∧
    Room.started room' = Room.started room ∧
    Room.players room' = Room.players room.
Proof.
  intros Hauth Hroom Hin Hw.
  rewrite (update_plain e db a rid state w user room) by
    (try done; right; apply list_find_None; apply Forall_forall;
     intros p Hp Heq; apply (Hw p Hp); destruct w; try done; simpl in Heq;
     apply Is_true_true in Heq; apply String.eqb_eq in Heq; by subst).
  cbn [fst snd]. split; [done|]. split; [apply put_room_frame|].
  eexists. rewrite lookup_put_room, decide_True by done.
  split; [done|].
  cbn [bump set_state Room.state Room.revision Room.started Room.players].
  by repeat split.
Qed.

(** X17.  The answer shows the room as stored.  Every accepted room request
    comes from an authenticated caller, and its answer describes the room
    as it is in the store after the request: the view of a creation, join,
    start or read is [sanitizeRoom] of the stored room for the caller, and
    the revision in the answer to a state update is the stored
    revision. *)
Theorem answer_shows_stored_room e db req :
  code (fst (server e db req)) = 200 →
  ∃ user room',
    authUser db (authorization_of req) = Some user ∧
    Db.rooms (snd (server e db req)) !! room_of e req = Some room' ∧
    body (fst (server e db req)) =
      match req with
      | PostState _ _ _ _ => OkBody (Room.revision room')
      | _ => RoomBody (sanitizeRoom (Some room') (User.id user))
      end.
Proof.
  destruct req as [a mp|a r|a r st|a r st w|a r];
    cbn [server authorization_of room_of]; unfold_handlers.
  all: destruct (authUser db a) as [user|]; [|by intros ?].
  all: try (destruct (Db.rooms db !! r) as [room|] eqn:Hroom; [|by intros ?]).
  all: repeat (case_match; try (by intros ?)); simplify_eq.
  all: intros _; eexists user, _; split; [done|]; cbn [fst snd body Db.rooms].
  all: first [rewrite lookup_put_room, decide_True by done
             |rewrite lookup_insert_eq
             |idtac].
  all: try (split; [reflexivity|done]).
  by split.
Qed.

Lemma find_seat_after_look (ps : list Seat.t) uid i seat :
  list_find (λ p, Seat.id p = uid) ps = Some (i, seat) →
  list_find (λ p, Seat.id p = uid) (<[i := set_connected seat]> ps)
    = Some (i, set_connected seat).
Proof.
  intros (Hi & Hid & Hfirst)%list_find_Some. apply list_find_Some.
  split; [|split].
  - apply list_lookup_insert_eq. by eapply lookup_lt_Some.
  - done.
  - intros j y Hj Hlt. rewrite list_lookup_insert_ne in Hj by lia.
    by eapply Hfirst.
Qed.

Lemma authUser_put_room db rid room a :
  authUser (put_room db rid room) a = authUser db a.
Proof. reflexivity. Qed.

(** X18.  Reading is idempotent.  A second read of a room by the same
    caller gets the same answer as the first and leaves the store as the
    first read left it, so polling has no cumulative effect. *)
Theorem read_is_idempotent db a rid :
  read (snd (read db a rid)) a rid = (fst (read db a rid), snd (read db a rid)).
Proof.
  unfold read at 2 3 4.
  destruct (authUser db a) as [user|] eqn:Hauth.
  2: { cbn [fst snd]. unfold read. by rewrite Hauth. }
  destruct (Db.rooms db !! rid) as [room|] eqn:Hroom.
  2: { cbn [fst snd]. unfold read. by rewrite Hauth, Hroom. }
  destruct (list_find _ _) as [[i seat]|] eqn:Hseat; cbn [fst snd].
  2: { unfold read. by rewrite Hauth, Hroom, Hseat. }
  unfold read. rewrite authUser_put_room, Hauth.
  rewrite lookup_put_room, decide_True by done.
  cbn [set_players Room.players].
  rewrite (find_seat_after_look _ _ _ _ Hseat).
  rewrite list_insert_insert_eq.
  f_equal. unfold put_room, set_rooms. cbn [Db.rooms Db.users Db.sessions
    Db.history]. by rewrite insert_insert_eq.
Qed.

Lemma jsonify_json v :
  v ≠ VUndefined → is_json (jsonify v) = true.
Proof.
  induction v as [ | |b|n|s|items IH|props IH] using value_induction;
    try done.
  - by destruct n as [|[]|q].
  - intros _. cbn [jsonify is_json].
    induction IH as [|x xs Hx _ IHxs]; [done|].
    cbn [map forallb]. rewrite IHxs, andb_true_r.
    destruct x; try done; by apply Hx.
  - intros _. cbn [jsonify is_json].
    induction IH as [|[k x] ps Hx _ IHps]; [done|].
    cbn [flat_map snd] in *.
    destruct x; cbn [app forallb snd]; rewrite ?IHps, ?andb_true_r;
      try done; by apply Hx.
Qed.

(** X19.  The [state] of a room view is always a JSON value (never
    [undefined], [NaN] or an infinity), whatever the room holds, and
    copying it once more as [sanitizeRoom] does changes nothing. *)
Theorem view_state_is_json room requester :
  ∃ view,
    sanitizeRoom (Some room) requester = Some view ∧
    is_json (View.state view) = true ∧
    (if truthy (View.state view) then jsonify (View.state view) else VNull)
      = View.state view.
Proof.
  eexists. split; [reflexivity|].
  cbn [sanitizeRoom View.state].
  split.
  - destruct (truthy (Room.state room)) eqn:Ht; [|done].
    apply jsonify_json. by destruct (Room.state room).
  - destruct (truthy (Room.state room)) eqn:Ht; [|done].
    destruct (truthy (jsonify (Room.state room))) eqn:Ht'.
    + apply jsonify_is_json, jsonify_json. by destruct (Room.state room).
    + destruct (Room.state room) as [ | |b|[|[]|q]|s|items|props];
        simpl in *; (done || congruence).
Qed.

(** ** The further properties at work *)

Lemma authUser_spec_witness :
  ∃ token uid i,
    "Bearer ta" = String.append "Bearer " token ∧ token ≠ EmptyString ∧
    Db.sessions Demo.lobby !! token = Some uid ∧ uid ≠ EmptyString ∧
    list_find (λ u, User.id u = uid) (Db.users Demo.lobby)
      = Some (i, Demo.alice).
Proof.
  apply (proj1 (authUser_spec Demo.lobby "Bearer ta" Demo.alice)).
  reflexivity.
Defined.

Lemma rooms_stay_within_capacity_witness :
  map_Forall (λ _ r, within_capacity r)
    (Db.rooms (Demo.db (Demo.room Demo.two false))) ∧
  (map_Forall (λ _ r, within_capacity r)
     (Db.rooms (session Tour.hash Tour.lowered
         (Demo.db (Demo.room Demo.two false))
                  Tour.visit)) ∧
   ∀ rid room m,
     Db.rooms (session Tour.hash Tour.lowered
         (Demo.db (Demo.room Demo.two false))
                 Tour.visit) !! rid = Some room →
     Room.maxPlayers room = of_Z m →
     Z.of_nat (length (Room.players room)) <= m).
Proof.
  assert (map_Forall (λ _ r, within_capacity r)
            (Db.rooms (Demo.db (Demo.room Demo.two false)))) as H.
  { apply map_Forall_insert_2; [|apply map_Forall_empty].
    vm_compute. reflexivity. }
  split; [exact H|].
  exact (rooms_stay_within_capacity Tour.hash Tour.lowered _ Tour.visit H).
Defined.

Lemma started_rooms_have_two_to_four_players_witness :
  map_Forall (λ _ r, match_size r)
    (Db.rooms (Demo.db (Demo.room Demo.two true))) ∧
  ∀ rid room,
    Db.rooms (session Tour.hash Tour.lowered (Demo.db (Demo.room Demo.two true))
                Tour.visit) !! rid = Some room →
    Room.started room = true →
    (2 ≤ length (Room.players room) ≤ 4)%nat.
Proof.
  assert (map_Forall (λ _ r, match_size r)
            (Db.rooms (Demo.db (Demo.room Demo.two true)))) as H.
  { apply map_Forall_insert_2; [|apply map_Forall_empty].
    intros _. simpl. lia. }
  split; [exact H|].
  exact (started_rooms_have_two_to_four_players Tour.hash Tour.lowered _
      Tour.visit H).
Defined.

Lemma host_keeps_first_seat_witness :
  map_Forall (λ _ r, host_first r)
    (Db.rooms (Demo.db (Demo.room Demo.two false))) ∧
  ∀ rid room,
    Db.rooms (session Tour.hash Tour.lowered
        (Demo.db (Demo.room Demo.two false))
                Tour.visit) !! rid = Some room →
    ∃ seat rest,
      Room.players room = seat :: rest ∧ Seat.id seat = Room.hostId room.
Proof.
  assert (map_Forall (λ _ r, host_first r)
            (Db.rooms (Demo.db (Demo.room Demo.two false)))) as H.
  { apply map_Forall_insert_2; [|apply map_Forall_empty]. reflexivity. }
  split; [exact H|].
  exact (host_keeps_first_seat Tour.hash Tour.lowered _ Tour.visit H).
Defined.

Lemma seats_belong_to_registered_users_witness :
  map_Forall
    (λ _ r, seats_registered
              (Db.users (Demo.db (Demo.room Demo.two false))) r)
    (Db.rooms (Demo.db (Demo.room Demo.two false))) ∧
  ∀ rid room p,
    Db.rooms (session Tour.hash Tour.lowered
        (Demo.db (Demo.room Demo.two false))
                Tour.visit) !! rid = Some room →
    p ∈ Room.players room →
    seat_tag p
      ∈ map user_tag
          (Db.users (session Tour.hash Tour.lowered
              (Demo.db (Demo.room Demo.two false))
                       Tour.visit)) ∧
    is_Some (list_find (λ x, User.id x = Seat.id p)
               (Db.users (session Tour.hash Tour.lowered
                            (Demo.db (Demo.room Demo.two false))
                            Tour.visit))).
Proof.
  assert (map_Forall
            (λ _ r, seats_registered
                      (Db.users (Demo.db (Demo.room Demo.two false))) r)
            (Db.rooms (Demo.db (Demo.room Demo.two false)))) as H.
  { apply map_Forall_insert_2; [|apply map_Forall_empty].
    intros p Hp. simpl in Hp.
    apply elem_of_cons in Hp as [->|Hp]; [simpl; apply list_elem_of_here|].
    apply elem_of_cons in Hp as [->|Hp];
      [simpl; apply list_elem_of_further, list_elem_of_here|].
    by apply elem_of_nil in Hp. }
  split; [exact H|].
  exact (seats_belong_to_registered_users Tour.hash Tour.lowered _
      Tour.visit H).
Defined.

Lemma rooms_are_never_removed_witness :
  Db.rooms (Demo.db (Demo.room Demo.two false)) !! "r0000001"
    = Some (Demo.room Demo.two false) ∧
  Forall (λ dc, filed (fst dc) (snd dc) ≠ Some "r0000001") Tour.visit ∧
  ∃ room',
    Db.rooms (session Tour.hash Tour.lowered
        (Demo.db (Demo.room Demo.two false))
                Tour.visit) !! "r0000001" = Some room' ∧
    Room.id room' = Room.id (Demo.room Demo.two false) ∧
    Room.hostId room' = Room.hostId (Demo.room Demo.two false) ∧
    Room.maxPlayers room' = Room.maxPlayers (Demo.room Demo.two false) ∧
    Room.locked room' = Room.locked (Demo.room Demo.two false) ∧
    map seat_tag (Room.players (Demo.room Demo.two false))
      `prefix_of` map seat_tag (Room.players room') ∧
    Room.revision (Demo.room Demo.two false) <= Room.revision room'.
Proof.
  assert (Forall (λ dc, filed (fst dc) (snd dc) ≠ Some "r0000001")
            Tour.visit) as H.
  { repeat constructor; vm_compute; discriminate. }
  split; [reflexivity|]. split; [exact H|].
  exact (rooms_are_never_removed Tour.hash Tour.lowered "r0000001" Tour.visit
           (Demo.db (Demo.room Demo.two false)) (Demo.room Demo.two false)
           eq_refl H).
Defined.

Lemma accounts_only_grow_witness :
  Db.users (Demo.db (Demo.room Demo.two false)) !! 2%nat = Some Demo.carol ∧
  ∃ u',
    Db.users (session Tour.hash Tour.lowered
        (Demo.db (Demo.room Demo.two false))
                Tour.visit) !! 2%nat = Some u' ∧
    credentials u' = credentials Demo.carol ∧
    Stats.wins (ensureStats Demo.carol) <= Stats.wins (ensureStats u') ∧
    Stats.losses (ensureStats Demo.carol) <= Stats.losses (ensureStats u').
Proof.
  split; [reflexivity|].
  exact (accounts_only_grow Tour.hash Tour.lowered Tour.visit
           (Demo.db (Demo.room Demo.two false)) 2%nat Demo.carol eq_refl).
Defined.

Lemma tokens_do_not_expire_witness :
  authUser (Demo.db (Demo.room Demo.two false)) "Bearer tb" = Some Demo.bob ∧
  Forall (λ dc, issued (fst dc) (snd dc) ≠ bearer "Bearer tb") Tour.visit ∧
  ∃ user',
    authUser (session Tour.hash Tour.lowered
        (Demo.db (Demo.room Demo.two false))
                Tour.visit) "Bearer tb" = Some user' ∧
    credentials user' = credentials Demo.bob.
Proof.
  assert (Forall (λ dc, issued (fst dc) (snd dc) ≠ bearer "Bearer tb")
            Tour.visit) as H.
  { repeat constructor; vm_compute; discriminate. }
  split; [reflexivity|]. split; [exact H|].
  exact (tokens_do_not_expire Tour.hash Tour.lowered "Bearer tb" Tour.visit
           (Demo.db (Demo.room Demo.two false)) Demo.bob eq_refl H).
Defined.

Lemma usernames_stay_unique_witness :
  NoDup (map (λ u, Tour.lowered (User.username u)) (Db.users Demo.lobby)) ∧
  NoDup (map (λ u, Tour.lowered (User.username u))
           (Db.users (session Tour.hash Tour.lowered Demo.lobby Tour.visit))).
Proof.
  assert (NoDup (map (λ u, Tour.lowered (User.username u))
                   (Db.users Demo.lobby))) as H.
  { apply (bool_decide_unpack _). vm_compute. reflexivity. }
  split; [exact H|].
  exact (usernames_stay_unique Tour.hash Tour.lowered Tour.visit Demo.lobby H).
Defined.

(** alice logs in with a wrong password: 401, nothing changes.  dora
    registers while the file cannot be written: 500, and she is
    registered. *)
Lemma refused_call_leaves_store_unchanged_witness :
  status (fst (api Tour.hash Tour.lowered Tour.again Demo.lobby
                 (Login (Some "alice") (Some "guess")))) ≠ 200 ∧
  (written Tour.again = true ∨
   status (fst (api Tour.hash Tour.lowered Tour.again Demo.lobby
                  (Login (Some "alice") (Some "guess")))) ≠ 500) ∧
  snd (api Tour.hash Tour.lowered Tour.again Demo.lobby
         (Login (Some "alice") (Some "guess"))) = Demo.lobby ∧
  status (fst (api Tour.hash Tour.lowered (writing false Tour.dora)
                 Demo.lobby (Register (Some "Dora") (Some "pw-d")))) = 500 ∧
  User.username
    <$> Db.users (snd (api Tour.hash Tour.lowered (writing false Tour.dora)
                         Demo.lobby (Register (Some "Dora") (Some "pw-d"))))
    = ["alice"; "bob"; "carol"; "Dora"].
Proof.
  assert (status (fst (api Tour.hash Tour.lowered Tour.again Demo.lobby
                         (Login (Some "alice") (Some "guess")))) ≠ 200) as H.
  { vm_compute. discriminate. }
  split; [exact H|]. split; [left; reflexivity|]. split.
  - exact (proj1 (refused_call_leaves_store_unchanged Tour.hash Tour.lowered
                    Tour.again Demo.lobby
                    (Login (Some "alice") (Some "guess")))
             H (or_introl eq_refl)).
  - destruct (proj2 (refused_call_leaves_store_unchanged Tour.hash
                       Tour.lowered (writing false Tour.dora) Demo.lobby
                       (Register (Some "Dora") (Some "pw-d")))
                eq_refl I ltac:(vm_compute; reflexivity)) as [H500 Hdb].
    split; [exact H500|]. rewrite Hdb. vm_compute. reflexivity.
Defined.

Lemma register_opens_session_witness :
  status (fst (register Tour.hash Tour.lowered Tour.dora Demo.lobby
                 (Some "Dora") (Some "pw-d"))) = 200 ∧
  uuid (first Tour.dora) ≠ EmptyString ∧
  second_uuid Tour.dora ≠ EmptyString ∧
  (uuid (first Tour.dora) ∉ map User.id (Db.users Demo.lobby)) ∧
  authUser (snd (register Tour.hash Tour.lowered Tour.dora Demo.lobby
                   (Some "Dora") (Some "pw-d"))) "Bearer t-dora"
    = Some (User.mk "u-dora" "Dora" "c0ffee" "c0ffee$pw-d"
              (Some (Stats.mk 0 0 ∅))).
Proof.
  assert (uuid (first Tour.dora) ∉ map User.id (Db.users Demo.lobby)) as H.
  { apply (bool_decide_unpack _). vm_compute. reflexivity. }
  split; [reflexivity|]. split; [discriminate|]. split; [discriminate|].
  split; [exact H|].
  exact (proj1 (register_opens_session Tour.hash Tour.lowered
      Tour.dora Demo.lobby
                  "Dora" "pw-d" eq_refl ltac:(discriminate)
                  ltac:(discriminate) H)).
Defined.

Lemma login_after_register_witness :
  status (fst (register Tour.hash Tour.lowered Tour.dora Demo.lobby
                 (Some "Dora") (Some "pw-d"))) = 200 ∧
  Tour.lowered "DORA" = Tour.lowered "Dora" ∧
  status (fst (login Tour.hash Tour.lowered Tour.again
                 (snd (register Tour.hash Tour.lowered Tour.dora Demo.lobby
                         (Some "Dora") (Some "pw-d")))
                 (Some "DORA") (Some "pw-d"))) = 200 ∧
  Db.sessions
    (snd (login Tour.hash Tour.lowered Tour.again
            (snd (register Tour.hash Tour.lowered Tour.dora Demo.lobby
                    (Some "Dora") (Some "pw-d")))
            (Some "DORA") (Some "pw-d"))) !! "t-dora-2" = Some "u-dora".
Proof.
  split; [reflexivity|]. split; [reflexivity|].
  destruct (login_after_register Tour.hash Tour.lowered Tour.dora Tour.again
              Demo.lobby "Dora" "DORA" "pw-d" eq_refl eq_refl)
    as (Hans & Htoken & _).
  split; [|exact Htoken].
  rewrite Hans. reflexivity.
Defined.

Lemma create_sets_capacity_witness :
  authUser Demo.lobby "Bearer ta" = Some Demo.alice ∧
  plain_number (VNum (Fin (7 # 2))) = true ∧
  ∃ room,
    Db.rooms (snd (create Demo.e0 Demo.lobby "Bearer ta"
                     (VNum (Fin (7 # 2))))) !! "r0000001" = Some room ∧
    Room.maxPlayers room = Fin (7 # 2).
Proof.
  split; [reflexivity|]. split; [reflexivity|].
  destruct (create_sets_capacity Demo.e0 Demo.lobby "Bearer ta"
              (VNum (Fin (7 # 2))) Demo.alice eq_refl eq_refl)
    as (_ & _ & room & Hroom & _ & _ & _ & _ & Hmax).
  exists room. split; [exact Hroom|].
  apply Hmax; reflexivity.
Defined.

Lemma room_without_capacity_never_fills_witness :
  authUser (Demo.db Tour.unbounded) "Bearer tc" = Some Demo.carol ∧
  Db.rooms (Demo.db Tour.unbounded) !! "r0000001" = Some Tour.unbounded ∧
  Room.maxPlayers Tour.unbounded = NaN ∧
  Room.started Tour.unbounded = false ∧
  list_find (λ p, Seat.id p = User.id Demo.carol)
    (Room.players Tour.unbounded) = None ∧
  code (fst (join (Demo.db Tour.unbounded) "Bearer tc" "r0000001")) = 200 ∧
  Room.players
    <$> Db.rooms (snd (join (Demo.db Tour.unbounded) "Bearer tc"
                         "r0000001")) !! "r0000001"
    = Some (Room.players Tour.unbounded ++ [seat_of Demo.carol]).
Proof.
  do 5 (split; [reflexivity|]).
  exact (room_without_capacity_never_fills (Demo.db Tour.unbounded)
           "Bearer tc" "r0000001" Demo.carol Tour.unbounded
           eq_refl eq_refl eq_refl eq_refl eq_refl).
Defined.

Lemma unresolved_winner_is_ignored_witness :
  authUser (Demo.db (Demo.room Demo.two true)) "Bearer tb" = Some Demo.bob ∧
  Db.rooms (Demo.db (Demo.room Demo.two true)) !! "r0000001"
    = Some (Demo.room Demo.two true) ∧
  existsb (λ p, String.eqb (Seat.id p) (User.id Demo.bob))
    (Room.players (Demo.room Demo.two true)) = true ∧
  (∀ p, p ∈ Room.players (Demo.room Demo.two true) →
        VStr "u-carol" ≠ VStr (Seat.id p)) ∧
  fst (update Demo.e1 (Demo.db (Demo.room Demo.two true)) "Bearer tb"
         "r0000001" (VStr "over") (VStr "u-carol"))
    = json 200 (OkBody 1) ∧
  ∃ room',
    Db.rooms (snd (update Demo.e1 (Demo.db (Demo.room Demo.two true))
                     "Bearer tb" "r0000001" (VStr "over") (VStr "u-carol")))
      !! "r0000001" = Some room' ∧
    Room.state room' = VStr "over" ∧
    Room.started room' = true.
Proof.
  assert (∀ p, p ∈ Room.players (Demo.room Demo.two true) →
               VStr "u-carol" ≠ VStr (Seat.id p)) as H.
  { intros p Hp. simpl in Hp.
    apply elem_of_cons in Hp as [->|Hp]; [discriminate|].
    apply elem_of_cons in Hp as [->|Hp]; [discriminate|].
    by apply elem_of_nil in Hp. }
  do 3 (split; [reflexivity|]). split; [exact H|].
  destruct (unresolved_winner_is_ignored Demo.e1
              (Demo.db (Demo.room Demo.two true)) "Bearer tb" "r0000001"
              (VStr "over") (VStr "u-carol") Demo.bob
              (Demo.room Demo.two true) eq_refl eq_refl eq_refl H)
    as (Hans & _ & room' & Hroom' & Hstate & _ & Hst & _).
  split; [exact Hans|]. exists room'.
  split; [exact Hroom'|]. split; [exact Hstate|exact Hst].
Defined.

Lemma answer_shows_stored_room_witness :
  code (fst (server Demo.e1 (Demo.db (Demo.room Demo.two false))
               (PostJoin "Bearer tc" "r0000001"))) = 200 ∧
  ∃ user room',
    authUser (Demo.db (Demo.room Demo.two false)) "Bearer tc" = Some user ∧
    Db.rooms (snd (server Demo.e1 (Demo.db (Demo.room Demo.two false))
                     (PostJoin "Bearer tc" "r0000001"))) !! "r0000001"
      = Some room' ∧
    body (fst (server Demo.e1 (Demo.db (Demo.room Demo.two false))
                 (PostJoin "Bearer tc" "r0000001")))
      = RoomBody (sanitizeRoom (Some room') (User.id user)).
Proof.
  split; [reflexivity|].
  exact (answer_shows_stored_room Demo.e1
           (Demo.db (Demo.room Demo.two false))
           (PostJoin "Bearer tc" "r0000001") eq_refl).
Defined.

Lemma listener_routes_room_requests_witness :
  no_slash "r0000001" = true ∧ "r0000001" ≠ EmptyString ∧
  inherited "r0000001" = false ∧ written Tour.dora = true ∧
  listener Tour.hash Tour.lowered Tour.dora
    (Demo.db (Demo.room Demo.two false)) "POST"
    "/api/rooms/r0000001/join" "Bearer tc" Tour.taken
    = plain (join (Demo.db (Demo.room Demo.two false)) "Bearer tc"
               "r0000001").
Proof.
  split; [reflexivity|]. split; [discriminate|].
  split; [reflexivity|]. split; [reflexivity|].
  exact (proj1 (listener_routes_room_requests Tour.hash Tour.lowered
                  Tour.dora (Demo.db (Demo.room Demo.two false)) "Bearer tc"
                  Tour.taken "r0000001" eq_refl ltac:(discriminate)
                  eq_refl eq_refl)).
Defined.

(** A registration under a name that is taken is answered 400 and changes
    nothing; carol's join while the file cannot be written is answered
    500, and she is seated all the same. *)
Lemma listener_refusal_leaves_store_witness :
  listener Tour.hash Tour.lowered Tour.dora Demo.lobby "POST" "/api/register"
    EmptyString Tour.taken
    = Done (reply 400 (Plain (Error "username already exists"))) Demo.lobby ∧
  status (reply 400 (Plain (Error "username already exists"))) ≠ 200 ∧
  (written Tour.dora = true ∨
   status (reply 400 (Plain (Error "username already exists"))) ≠ 500) ∧
  Demo.lobby = Demo.lobby ∧
  ∃ ans db',
    listener Tour.hash Tour.lowered Tour.dora
      (Demo.db (Demo.room Demo.two false)) "POST"
      "/api/rooms/r0000001/join" "Bearer tc" NoBody = Done ans db' ∧
    status ans = 200 ∧
    listener Tour.hash Tour.lowered (writing false Tour.dora)
      (Demo.db (Demo.room Demo.two false)) "POST"
      "/api/rooms/r0000001/join" "Bearer tc" NoBody
      = Done (reply 500 Thrown) db' ∧
    (length ∘ Room.players) <$> Db.rooms db' !! "r0000001" = Some 3%nat.
Proof.
  split; [reflexivity|]. split; [discriminate|].
  split; [left; reflexivity|]. split.
  - exact (proj1 (listener_refusal_leaves_store Tour.hash Tour.lowered
                    Tour.dora Demo.lobby "POST" "/api/register" EmptyString
                    Tour.taken
                    (reply 400 (Plain (Error "username already exists")))
                    Demo.lobby eq_refl)
             ltac:(discriminate) (or_introl eq_refl)).
  - eexists _, _. split; [vm_compute; reflexivity|].
    split; [reflexivity|]. split; [vm_compute; reflexivity|].
    vm_compute. reflexivity.
Defined.

Lemma unreadable_body_changes_nothing_witness :
  reads_body "POST" "/api/rooms/r0000001/state" = true ∧
  unreadable (Json VNull) ∧
  ∃ ans,
    listener Tour.hash Tour.lowered Tour.dora
      (Demo.db (Demo.room Demo.two true)) "POST"
      "/api/rooms/r0000001/state" "Bearer tb" (Json VNull)
      = Done ans (Demo.db (Demo.room Demo.two true)) ∧
    status ans ≠ 200.
Proof.
  assert (unreadable (Json VNull)) as H by (right; reflexivity).
  split; [reflexivity|]. split; [exact H|].
  exact (proj1 (unreadable_body_changes_nothing Tour.hash Tour.lowered
                  Tour.dora (Demo.db (Demo.room Demo.two true)) "POST"
                  "/api/rooms/r0000001/state" "Bearer tb" (Json VNull))
           eq_refl H).
Defined.

